(** * Personal Library Manager: persistence and record store

    A shallow embedding of [library_manager.py].  The [LibraryManager]
    object, the two files it owns, the terminal and the failures of the
    file system are one explicit [world]; every method is a function in a
    state-and-exception monad over it, so that [try]/[except], [with] and
    early [return] keep the shape they have in the source. *)

From Stdlib Require Import ZArith Ascii String PrimFloat Uint63 Floats.
From stdpp Require Import gmap strings list fin_maps pretty.

Set Warnings "-register-all".

Local Open Scope string_scope.
Local Open Scope Z_scope.

(** ** Python values

    [self.books] is annotated [List[Dict[str, Any]]], but [load_library]
    stores whatever [json.load] returns, so a book is any value the JSON
    decoder can build.  Dictionaries keep insertion order, hence the
    association list. *)

Inductive pyval : Type :=
  | PNone
  | PBool (b : bool)
  | PInt (z : Z)
  | PFloat (f : float)
  | PStr (s : string)
  | PList (l : list pyval)
  | PDict (kv : list (string * pyval)).

(** ** Exceptions *)

Inductive exn : Type :=
  | OSError (msg : string)
  | UnicodeError (msg : string)
  | JSONDecodeError (msg : string)
  | ValueError (msg : string)
  | KeyError (key : string)
  | IndexError (msg : string)
  | TypeError (msg : string)
  | AttributeError (msg : string)
  | EOFError
  | KeyboardInterrupt.

(** [except Exception] catches every class above but [KeyboardInterrupt],
    which derives from [BaseException] only. *)
Definition is_exception (e : exn) : bool :=
  match e with KeyboardInterrupt => false | _ => true end.

(** [except ValueError]: [UnicodeError] and [json.JSONDecodeError] are
    subclasses of [ValueError]. *)
Definition is_value_error (e : exn) : bool :=
  match e with
  | ValueError _ | UnicodeError _ | JSONDecodeError _ => true
  | _ => false
  end.

Definition is_json_decode_error (e : exn) : bool :=
  match e with JSONDecodeError _ => true | _ => false end.

(** The text an f-string shows for [{e}]. *)
Definition exn_str (e : exn) : string :=
  match e with
  | OSError m | UnicodeError m | JSONDecodeError m | ValueError m
  | IndexError m | TypeError m | AttributeError m => m
  | KeyError k => "'" +:+ k +:+ "'"
  | EOFError => "EOF when reading a line"
  | KeyboardInterrupt => ""
  end.

(** ** The world *)

(** What the file system can do to one primitive file operation. *)
Inductive io_error : Type :=
  | EIO (msg : string)        (* OSError: permissions, disk full, ... *)
  | EDecode (msg : string).   (* UnicodeError: bytes that are not UTF-8 *)

Definition io_exn (e : io_error) : exn :=
  match e with EIO m => OSError m | EDecode m => UnicodeError m end.

(** One decision per primitive operation ([open], [read], [write],
    [close]), taken in program order.  [written] is the number of
    characters a failing [write] has put in the file before it raised. *)
Inductive fault : Type :=
  | NoFault
  | Fault (e : io_error) (written : nat).

Record world : Type := World {
  books  : list pyval;            (* self.books *)
  loaded : bool;                  (* the local [loaded] of load_library *)
  files  : gmap string string;    (* path -> text content *)
  stdin  : list string;           (* lines still to be typed *)
  stdout : list string;           (* texts given to print and input *)
  faults : list fault             (* pending file-system decisions *)
}.

Definition filename : string := "library.json".
Definition backup_filename : string := "library_backup.json".

Definition set_books (l : list pyval) (w : world) : world :=
  World l (loaded w) (files w) (stdin w) (stdout w) (faults w).
Definition set_loaded (b : bool) (w : world) : world :=
  World (books w) b (files w) (stdin w) (stdout w) (faults w).
Definition set_files (fs : gmap string string) (w : world) : world :=
  World (books w) (loaded w) fs (stdin w) (stdout w) (faults w).
Definition set_stdin (i : list string) (w : world) : world :=
  World (books w) (loaded w) (files w) i (stdout w) (faults w).
Definition set_stdout (o : list string) (w : world) : world :=
  World (books w) (loaded w) (files w) (stdin w) o (faults w).
Definition set_faults (f : list fault) (w : world) : world :=
  World (books w) (loaded w) (files w) (stdin w) (stdout w) f.

(** ** The monad *)

Inductive outcome (A : Type) : Type :=
  | Ok (a : A)
  | Raise (e : exn).
Arguments Ok {A} a.
Arguments Raise {A} e.

Definition M (A : Type) : Type := world -> outcome A * world.

Definition ret {A} (a : A) : M A := fun w => (Ok a, w).
Definition raise {A} (e : exn) : M A := fun w => (Raise e, w).
Definition bind {A B} (m : M A) (k : A -> M B) : M B :=
  fun w => match m w with
           | (Ok a, w') => k a w'
           | (Raise e, w') => (Raise e, w')
           end.

Notation "'let*' x := m 'in' k" := (bind m (fun x => k))
  (at level 10, x name, m at level 200, k at level 200).

(** [try: m except <classes>: h], where [catches] tells the classes. *)
Definition try_except {A} (m : M A) (catches : exn -> bool) (h : exn -> M A) : M A :=
  fun w => match m w with
           | (Raise e, w') => if catches e then h e w' else (Raise e, w')
           | r => r
           end.

(** [try: m finally: c].  An exception of [c] replaces the one of [m]. *)
Definition finally {A} (m : M A) (c : M unit) : M A :=
  fun w => match m w with
           | (r, w') => match c w' with
                        | (Ok _, w'') => (r, w'')
                        | (Raise e, w'') => (Raise e, w'')
                        end
           end.

Definition get_books : M (list pyval) := fun w => (Ok (books w), w).
Definition put_books (l : list pyval) : M unit := fun w => (Ok tt, set_books l w).
Definition get_loaded : M bool := fun w => (Ok (loaded w), w).
Definition put_loaded (b : bool) : M unit := fun w => (Ok tt, set_loaded b w).

(** ** Terminal *)

(** The world after the texts [msgs] have gone to the terminal. *)
Definition shows (msgs : list string) (w : world) : world :=
  set_stdout (stdout w ++ msgs) w.

Definition print (s : string) : M unit :=
  fun w => (Ok tt, shows [s] w).

(** [input(prompt)]: shows the prompt, then takes the next line; the end
    of the input raises [EOFError]. *)
Definition input (prompt : string) : M string :=
  fun w => let w1 := shows [prompt] w in
           match stdin w with
           | [] => (Raise EOFError, w1)
           | s :: rest => (Ok s, set_stdin rest w1)
           end.

(** ** Files *)

Inductive mode : Type := ModeR | ModeW.

(** An open file: the path it was opened on. *)
Abbreviation handle := string (only parsing).

(** The decision for the next operation; none is left: no failure. *)
Definition next_fault : M fault :=
  fun w => (Ok (hd NoFault (faults w)), set_faults (tl (faults w)) w).

(** [os.path.exists]: never raises. *)
Definition path_exists (p : string) : M bool :=
  fun w => (Ok (bool_decide (is_Some (files w !! p))), w).

Definition file_content (p : string) (w : world) : string :=
  default "" (files w !! p).

(** [open(p, 'r')] needs the file; [open(p, 'w')] creates or truncates it. *)
Definition open (p : string) (m : mode) : M handle :=
  let* f := next_fault in
  match f with
  | Fault e _ => raise (io_exn e)
  | NoFault =>
      match m with
      | ModeR => fun w => match files w !! p with
                          | Some _ => (Ok p, w)
                          | None => (Raise (OSError "No such file or directory"), w)
                          end
      | ModeW => fun w => (Ok p, set_files (<[p := ""]> (files w)) w)
      end
  end.

Definition read (h : handle) : M string :=
  let* f := next_fault in
  match f with
  | Fault e _ => raise (io_exn e)
  | NoFault => fun w => (Ok (file_content h w), w)
  end.

Definition str_take (n : nat) (s : string) : string := String.substring 0 n s.

Definition write (h : handle) (data : string) : M unit :=
  let* f := next_fault in
  match f with
  | Fault e n =>
      fun w => (Raise (io_exn e),
                set_files (<[h := file_content h w +:+ str_take n data]> (files w)) w)
  | NoFault =>
      fun w => (Ok tt, set_files (<[h := file_content h w +:+ data]> (files w)) w)
  end.

Definition close (h : handle) : M unit :=
  let* f := next_fault in
  match f with
  | Fault e _ => raise (io_exn e)
  | NoFault => ret tt
  end.

(** [with open(p, m) as f: body]. *)
Definition with_open {A} (p : string) (m : mode) (body : handle -> M A) : M A :=
  let* h := open p m in finally (body h) (close h).

(** ** Built-ins of the Python runtime

    [json.dump], [json.load] and [str] belong to CPython, not to this
    program: they are an interface here, and every theorem below holds
    for each implementation of it.  So are [str.lower], [str.strip] and
    [int] on text that is not all ASCII, where they follow the Unicode
    tables, and [int] on a text too long for the interpreter's limit on
    digits.  On ASCII text they are written out below. *)

Class Builtins : Type := {
  (** [json.dumps(v, indent=4, ensure_ascii=False)] of a list *)
  json_dumps : list pyval -> string;
  (** [json.loads]: the value, or the message of the [JSONDecodeError] *)
  json_loads : string -> pyval + string;
  (** [str(v)], as an f-string field shows a value *)
  py_str : pyval -> string;
  (** [s.lower()] of a text that is not all ASCII *)
  lower_beyond : string -> string;
  (** [s.strip()] of a text that is not all ASCII *)
  strip_beyond : string -> string;
  (** [int(s)] of a text that is not all ASCII, or of more than 4300
      characters: the number, or nothing for a [ValueError] *)
  int_beyond : string -> option Z
}.

Definition nl : string := String (Ascii.ascii_of_nat 10) EmptyString.

(** [str(n)] for a length or a counter. *)
Definition str_nat `{Builtins} (n : nat) : string := py_str (PInt (Z.of_nat n)).

(** ** Strings

    A [str] is kept as the sequence of the bytes of its UTF-8 encoding:
    it is ASCII when every byte is below 128. *)

Fixpoint is_ascii (s : string) : bool :=
  match s with
  | EmptyString => true
  | String c r => (nat_of_ascii c <? 128)%nat && is_ascii r
  end.

Definition ascii_lower (c : ascii) : ascii :=
  let n := nat_of_ascii c in
  if ((65 <=? n) && (n <=? 90))%nat then ascii_of_nat (n + 32) else c.

(** [s.lower()] of ASCII text: the letters A to Z. *)
Fixpoint lower_plain (s : string) : string :=
  match s with
  | EmptyString => EmptyString
  | String c r => String (ascii_lower c) (lower_plain r)
  end.

(** [s.lower()] *)
Definition lower `{Builtins} (s : string) : string :=
  if is_ascii s then lower_plain s else lower_beyond s.

(** [c.isspace()] in ASCII: tab, line feed, vertical tab, form feed,
    carriage return, the four separators 28-31 and the space. *)
Definition is_space (c : ascii) : bool :=
  let n := nat_of_ascii c in
  (((9 <=? n) && (n <=? 13)) || ((28 <=? n) && (n <=? 32)))%nat.

Fixpoint lstrip (space : ascii -> bool) (s : string) : string :=
  match s with
  | EmptyString => EmptyString
  | String c r => if space c then lstrip space r else s
  end.

Fixpoint rstrip (space : ascii -> bool) (s : string) : string :=
  match s with
  | EmptyString => EmptyString
  | String c r =>
      match rstrip space r with
      | EmptyString => if space c then EmptyString else String c EmptyString
      | r' => String c r'
      end
  end.

(** [s.strip()] of ASCII text. *)
Definition strip_plain (s : string) : string := rstrip is_space (lstrip is_space s).

(** [s.strip()] *)
Definition strip `{Builtins} (s : string) : string :=
  if is_ascii s then strip_plain s else strip_beyond s.

(** [t in s] on strings: [t] starts at some position of [s]. *)
Fixpoint str_in (t s : string) : bool :=
  String.prefix t s ||
  match s with
  | EmptyString => false
  | String _ r => str_in t r
  end.

Definition digit_of (c : ascii) : option Z :=
  let n := nat_of_ascii c in
  if ((48 <=? n) && (n <=? 57))%nat then Some (Z.of_nat (n - 48)) else None.

(** Digits with single underscores between them. *)
Fixpoint parse_digits (acc : Z) (after_digit : bool) (s : string) : option Z :=
  match s with
  | EmptyString => if after_digit then Some acc else None
  | String c r =>
      match digit_of c with
      | Some d => parse_digits (acc * 10 + d) true r
      | None =>
          if Ascii.eqb c "_" && after_digit then parse_digits acc false r else None
      end
  end.

(** The white space [int] skips in ASCII text: tab, line feed, vertical
    tab, form feed, carriage return and the space, not the separators
    28-31. *)
Definition is_int_space (c : ascii) : bool :=
  let n := nat_of_ascii c in
  (((9 <=? n) && (n <=? 13)) || (n =? 32))%nat.

(** [int(s)] in base 10 of ASCII text: surrounding white space, an
    optional sign, digits. *)
Definition int_plain (s : string) : option Z :=
  match rstrip is_int_space (lstrip is_int_space s) with
  | String "+" r => parse_digits 0 false r
  | String "-" r => Z.opp <$> parse_digits 0 false r
  | t => parse_digits 0 false t
  end.

(** The least limit an interpreter puts on the digits of a numeral. *)
Definition max_str_digits : nat := 4300.

(** [int(s)]: the number, or nothing for a [ValueError]. *)
Definition py_int `{Builtins} (s : string) : option Z :=
  if is_ascii s && (String.length s <=? max_str_digits)%nat
  then int_plain s else int_beyond s.

(** ** Persistence layer *)

Section Persistence.
Context `{Builtins}.

(** [with open(src, 'r') as s: with open(dst, 'w') as d: d.write(s.read())] *)
Definition copy_file (src dst : string) : M unit :=
  with_open src ModeR (fun s =>
    with_open dst ModeW (fun d =>
      let* data := read s in
      write d data)).

Definition saved_message : string :=
  nl +:+ "Library successfully saved to " +:+ filename.
Definition backup_warning (e : exn) : string :=
  "Warning: Could not create backup file: " +:+ exn_str e.
Definition save_error (e : exn) : string := "Error saving library: " +:+ exn_str e.
Definition recovered_message : string := "Recovered from backup file.".
Definition recovery_error (e : exn) : string :=
  "Error recovering from backup: " +:+ exn_str e.

(** Lines 150-156: the best-effort backup of the existing primary file. *)
Definition backup_step : M unit :=
  let* ex := path_exists filename in
  if ex then
    try_except (copy_file filename backup_filename) is_exception
      (fun e => print (backup_warning e))
  else ret tt.

(** Lines 159-161: [json.dump] into the primary file. *)
Definition write_primary : M unit :=
  with_open filename ModeW (fun f =>
    let* bs := get_books in
    let* _ := write f (json_dumps bs) in
    print saved_message).

(** Lines 149-161: the body of the outer [try]. *)
Definition save_body : M unit :=
  let* _ := backup_step in
  write_primary.

(** Lines 166-172: the recovery from the backup file. *)
Definition recover : M unit :=
  try_except
    (let* _ := copy_file backup_filename filename in
     print recovered_message)
    is_exception
    (fun backup_e => print (recovery_error backup_e)).

(** Lines 163-172: the outer [except Exception as e]. *)
Definition save_handler (e : exn) : M unit :=
  let* _ := print (save_error e) in
  let* ex := path_exists backup_filename in
  if ex then recover else ret tt.

Definition save_library : M unit :=
  try_except save_body is_exception save_handler.

(** [json.load(f)]: read the whole file, then decode. *)
Definition json_load (f : handle) : M pyval :=
  let* data := read f in
  match json_loads data with
  | inl v => ret v
  | inr msg => raise (JSONDecodeError msg)
  end.

Definition count_message (n : nat) : string :=
  "Total books loaded: " +:+ str_nat n.

(** Lines 182-197: the attempt on the primary file. *)
Definition load_primary : M unit :=
  try_except
    (with_open filename ModeR (fun f =>
       let* data := json_load f in
       match data with
       | PList l =>
           let* _ := put_books l in
           let* _ := put_loaded true in
           let* _ := print (nl +:+ "Library loaded successfully from " +:+ filename) in
           let* bs := get_books in
           print (count_message (length bs))
       | _ => print "Error: Invalid data format in library file"
       end))
    is_exception
    (fun e => if is_json_decode_error e
              then print "Error: Library file is corrupted"
              else print ("Error loading library: " +:+ exn_str e)).

(** Lines 200-212: the attempt on the backup file. *)
Definition load_backup : M unit :=
  try_except
    (with_open backup_filename ModeR (fun f =>
       let* data := json_load f in
       match data with
       | PList l =>
           let* _ := put_books l in
           let* _ := put_loaded true in
           let* _ := print (nl +:+ "Library loaded successfully from backup file") in
           let* bs := get_books in
           print (count_message (length bs))
       | _ => print "Error: Invalid data format in backup file"
       end))
    is_exception
    (fun e => print ("Error loading from backup: " +:+ exn_str e)).

Definition empty_start_message : string := nl +:+ "Starting with an empty library".

Definition load_library : M unit :=
  let* _ := put_loaded false in
  let* ex := path_exists filename in
  let* _ := (if ex then load_primary else ret tt) in
  let* ld := get_loaded in
  let* exb := path_exists backup_filename in
  let* _ := (if negb ld && exb then load_backup else ret tt) in
  let* ld := get_loaded in
  if negb ld then
    let* _ := put_books [] in
    print empty_start_message
  else ret tt.

(** [LibraryManager.__init__] *)
Definition init : M unit :=
  let* _ := put_books [] in
  load_library.

End Persistence.

(** ** Record store *)

(** [d[k]] for a dictionary held as an association list. *)
Fixpoint dict_get (k : string) (kv : list (string * pyval)) : option pyval :=
  match kv with
  | [] => None
  | (k', v) :: rest => if String.eqb k' k then Some v else dict_get k rest
  end.

(** [type(v).__name__] *)
Definition type_name (v : pyval) : string :=
  match v with
  | PNone => "NoneType"
  | PBool _ => "bool"
  | PInt _ => "int"
  | PFloat _ => "float"
  | PStr _ => "str"
  | PList _ => "list"
  | PDict _ => "dict"
  end.

(** The text of the [TypeError] of [v[k]] with a string subscript, for a
    [v] that is no dictionary. *)
Definition subscript_error (v : pyval) : string :=
  match v with
  | PStr _ => "string indices must be integers, not 'str'"
  | PList _ => "list indices must be integers or slices, not str"
  | _ => "'" +:+ type_name v +:+ "' object is not subscriptable"
  end.

(** [v[k]] with a string subscript. *)
Definition getitem (v : pyval) (k : string) : M pyval :=
  match v with
  | PDict kv =>
      match dict_get k kv with
      | Some x => ret x
      | None => raise (KeyError k)
      end
  | _ => raise (TypeError (subscript_error v))
  end.

(** [v.lower()] *)
Definition method_lower `{Builtins} (v : pyval) : M string :=
  match v with
  | PStr s => ret (lower s)
  | _ =>
      raise (AttributeError
               ("'" +:+ type_name v +:+ "' object has no attribute 'lower'"))
  end.

(** Truth value of an object in a condition. *)
Definition truthy (v : pyval) : bool :=
  match v with
  | PNone => false
  | PBool b => b
  | PInt z => negb (z =? 0)
  | PFloat f => negb (PrimFloat.eqb f 0)
  | PStr s => negb (String.eqb s "")
  | PList l => match l with [] => false | _ => true end
  | PDict kv => match kv with [] => false | _ => true end
  end.

(** [self.books.pop(i)] *)
Definition pop (i : nat) : M pyval :=
  fun w => match books w !! i with
           | Some b => (Ok b, set_books (delete i (books w)) w)
           | None => (Raise (IndexError "pop index out of range"), w)
           end.

(** [self.books.append(b)] *)
Definition append (b : pyval) : M unit :=
  fun w => (Ok tt, set_books (books w ++ [b]) w).

Definition empty_message : string := nl +:+ "Your library is empty!".

Section RecordStore.
Context `{Builtins}.

(** [_display_books]: the loop over [enumerate(books, 1)]. *)
Fixpoint display_from (i : nat) (bs : list pyval) : M unit :=
  match bs with
  | [] => ret tt
  | book :: rest =>
      let* r := getitem book "read" in
      let status := if truthy r then "✓" else "✗" in
      let* t := getitem book "title" in
      let* a := getitem book "author" in
      let* y := getitem book "year" in
      let* _ := print (str_nat i +:+ ". " +:+ py_str t +:+ " by " +:+ py_str a
                       +:+ " (" +:+ py_str y +:+ ")") in
      let* g := getitem book "genre" in
      let* _ := print ("   Genre: " +:+ py_str g +:+ " | Read: " +:+ status) in
      display_from (S i) rest
  end.

Definition _display_books (bs : list pyval) : M unit := display_from 1 bs.

(** *** remove_book *)

Definition not_found_message (title : string) : string :=
  nl +:+ "Book with title '" +:+ title +:+ "' not found in your library.".

Definition remove_header : string := nl +:+ "=== Remove Book ===".
Definition remove_prompt : string := "Enter the title of the book to remove: ".

Definition removed_message (title : string) : string :=
  nl +:+ "Successfully removed '" +:+ title +:+ "' from your library!".

(** Lines 66-73: the loop over [enumerate(self.books)], at index [i] with
    [bs] still to visit, and the statement after the loop. *)
Fixpoint remove_scan (title : string) (i : nat) (bs : list pyval) : M unit :=
  match bs with
  | [] => print (not_found_message title)
  | book :: rest =>
      let* t := getitem book "title" in
      let* tl := method_lower t in
      if String.eqb tl (lower title) then
        let* removed_book := pop i in
        let* _ := save_library in
        let* rt := getitem removed_book "title" in
        print (removed_message (py_str rt))
      else remove_scan title (S i) rest
  end.

Definition remove_book : M unit :=
  let* bs := get_books in
  match bs with
  | [] => print empty_message
  | _ =>
      let* _ := print remove_header in
      let* line := input remove_prompt in
      let title := strip line in
      remove_scan title 0 bs
  end.

(** *** search_books *)

Definition search_header : string := nl +:+ "=== Search Books ===".
Definition search_prompt : string := "Enter search term (title or author): ".
Definition found_header : string := nl +:+ "Found books:".
Definition no_match_message (search_term : string) : string :=
  nl +:+ "No books found matching '" +:+ search_term +:+ "'".

(** Lines 86-89: the loop that fills [found_books]. *)
Fixpoint search_scan (search_term : string) (bs found_books : list pyval)
  : M (list pyval) :=
  match bs with
  | [] => ret found_books
  | book :: rest =>
      let* t := getitem book "title" in
      let* tl := method_lower t in
      if str_in search_term tl then
        search_scan search_term rest (found_books ++ [book])
      else
        let* a := getitem book "author" in
        let* al := method_lower a in
        if str_in search_term al then
          search_scan search_term rest (found_books ++ [book])
        else search_scan search_term rest found_books
  end.

Definition search_books : M unit :=
  let* bs := get_books in
  match bs with
  | [] => print empty_message
  | _ =>
      let* _ := print search_header in
      let* line := input search_prompt in
      let search_term := lower (strip line) in
      let* found_books := search_scan search_term bs [] in
      match found_books with
      | [] => print (no_match_message search_term)
      | _ =>
          let* _ := print found_header in
          _display_books found_books
      end
  end.

Definition display_all_books : M unit :=
  let* bs := get_books in
  match bs with
  | [] => print empty_message
  | _ =>
      let* _ := print (nl +:+ "=== Your Library ===") in
      _display_books bs
  end.

End RecordStore.

(** *** display_statistics *)

(** [hash(v)] exists: lists and dictionaries cannot be dictionary keys. *)
Definition hashable (v : pyval) : bool :=
  match v with PList _ | PDict _ => false | _ => true end.

(** [f == z] between a float and an integer: the exact values are
    compared. *)
Definition float_eq_int (f : float) (z : Z) : bool :=
  match Prim2SF f with
  | S754_zero _ => z =? 0
  | S754_finite s m e =>
      let v := if s then Z.neg m else Z.pos m in
      if 0 <=? e then v * 2 ^ e =? z
      else (v mod 2 ^ (- e) =? 0) && (v / 2 ^ (- e) =? z)
  | _ => false
  end.

(** [k == g] between dictionary keys: [True == 1 == 1.0] and
    [False == 0 == 0.0] as in Python.  The NaN that [json] reads is one
    shared object, which a dictionary finds by identity. *)
Definition key_eqb (k g : pyval) : bool :=
  match k, g with
  | PNone, PNone => true
  | PStr s, PStr t => String.eqb s t
  | PInt a, PInt b => a =? b
  | PBool a, PBool b => Bool.eqb a b
  | PBool a, PInt b | PInt b, PBool a => (if a then 1 else 0) =? b
  | PFloat a, PFloat b =>
      PrimFloat.eqb a b || (PrimFloat.is_nan a && PrimFloat.is_nan b)
  | PFloat a, PInt b | PInt b, PFloat a => float_eq_int a b
  | PFloat a, PBool b | PBool b, PFloat a => float_eq_int a (if b then 1 else 0)
  | _, _ => false
  end.

(** [genres[genre] = genres.get(genre, 0) + 1] on an insertion-ordered
    dictionary: a known key keeps its place, a new one goes last. *)
Fixpoint genres_incr (genre : pyval) (genres : list (pyval * nat))
  : list (pyval * nat) :=
  match genres with
  | [] => [(genre, 1%nat)]
  | (k, c) :: rest =>
      if key_eqb k genre then (k, S c) :: rest
      else (k, c) :: genres_incr genre rest
  end.

(** [float(n)], exact below 2^53. *)
Definition float_of_nat (n : nat) : float :=
  PrimFloat.of_uint63 (Uint63.of_Z (Z.of_nat n)).

(** Line 115. The [else 0] is an [int], which [.1f] shows as a float. *)
Definition percentage_read (read_books total_books : nat) : float :=
  if (0 <? total_books)%nat
  then (float_of_nat read_books / float_of_nat total_books * 100)%float
  else 0%float.

(** Nearest integer to [num / den], ties to even ([0 <= num], [0 < den]). *)
Definition round_half_even (num den : Z) : Z :=
  let q := num / den in
  let r := num mod den in
  if 2 * r <? den then q
  else if den <? 2 * r then q + 1
  else if Z.even q then q else q + 1.

(** [f"{x:.1f}"]: the exact binary value of [x], rounded to one decimal. *)
Definition format_1f (x : float) : string :=
  match Prim2SF x with
  | S754_nan => "nan"
  | S754_infinity s => if s then "-inf" else "inf"
  | S754_zero s => if s then "-0.0" else "0.0"
  | S754_finite s m e =>
      let tenths :=
        if 0 <=? e then Z.pos m * 2 ^ e * 10
        else round_half_even (Z.pos m * 10) (2 ^ (- e)) in
      (if s then "-" else "") +:+ pretty (tenths / 10) +:+ "."
        +:+ pretty (tenths mod 10)
  end.

Section Statistics.
Context `{Builtins}.

(** Line 114: [sum(1 for book in self.books if book["read"])] *)
Fixpoint count_read (bs : list pyval) : M nat :=
  match bs with
  | [] => ret 0%nat
  | book :: rest =>
      let* r := getitem book "read" in
      let* n := count_read rest in
      ret (if truthy r then S n else n)
  end.

(** Lines 124-127 *)
Fixpoint count_genres (bs : list pyval) (genres : list (pyval * nat))
  : M (list (pyval * nat)) :=
  match bs with
  | [] => ret genres
  | book :: rest =>
      let* genre := getitem book "genre" in
      if hashable genre then count_genres rest (genres_incr genre genres)
      else
        raise (TypeError ("unhashable type: '" +:+ type_name genre +:+ "'"))
  end.

Definition stats_header : string := nl +:+ "=== Library Statistics ===".
Definition total_line (n : nat) : string := "Total books: " +:+ str_nat n.
Definition read_line (n : nat) : string := "Books read: " +:+ str_nat n.
Definition percentage_line (x : float) : string :=
  "Percentage read: " +:+ format_1f x +:+ "%".
Definition genre_header : string := nl +:+ "Books by genre:".
Definition genre_line (genre : pyval) (count : nat) : string :=
  py_str genre +:+ ": " +:+ str_nat count.

(** Lines 130-131 *)
Fixpoint print_genres (genres : list (pyval * nat)) : M unit :=
  match genres with
  | [] => ret tt
  | (genre, count) :: rest =>
      let* _ := print (genre_line genre count) in
      print_genres rest
  end.

Definition display_statistics : M unit :=
  let* bs := get_books in
  match bs with
  | [] => print empty_message
  | _ =>
      let total_books := length bs in
      let* read_books := count_read bs in
      let percentage := percentage_read read_books total_books in
      let* _ := print stats_header in
      let* _ := print (total_line total_books) in
      let* _ := print (read_line read_books) in
      let* _ := print (percentage_line percentage) in
      let* genres := count_genres bs [] in
      let* _ := print genre_header in
      print_genres genres
  end.

End Statistics.

(** *** add_book *)

(** Line 28: [1800 <= year <= 2024] *)
Definition year_in_range (year : Z) : bool := (1800 <=? year) && (year <=? 2024).

Definition year_prompt : string := "Enter publication year: ".
Definition year_range_message : string :=
  "Please enter a valid year between 1800 and 2024.".
Definition year_number_message : string :=
  "Please enter a valid number for the year.".

Section AddBook.
Context `{Builtins}.

(** Lines 26-32: one turn of the [while True] loop.  [Some year] is the
    [break]; [None] means that the loop goes round again. *)
Definition year_turn : M (option Z) :=
  try_except
    (let* line := input year_prompt in
     match py_int line with
     | None => raise (ValueError "invalid literal for int() with base 10")
     | Some year =>
         if year_in_range year then ret (Some year)
         else
           let* _ := print year_range_message in
           ret None
     end)
    is_value_error
    (fun _ =>
       let* _ := print year_number_message in
       ret None).

(** The loop, by recursion on the lines left to type: each turn takes
    one, and at the end of the input [input] raises [EOFError]. *)
Fixpoint read_year_from (lines : list string) : M Z :=
  let* r := year_turn in
  match r with
  | Some year => ret year
  | None =>
      match lines with
      | [] => raise EOFError
      | _ :: rest => read_year_from rest
      end
  end.

Definition read_year : M Z := fun w => read_year_from (stdin w) w.

Definition add_book : M unit :=
  let* _ := print (nl +:+ "=== Add New Book ===") in
  let* l1 := input "Enter book title: " in
  let title := strip l1 in
  let* l2 := input "Enter author name: " in
  let author := strip l2 in
  let* year := read_year in
  let* l3 := input "Enter genre: " in
  let genre := strip l3 in
  let* l4 := input "Have you read this book? (yes/no): " in
  let read_status := String.eqb (strip (lower l4)) "yes" in
  let book := PDict [("title", PStr title); ("author", PStr author);
                     ("year", PInt year); ("genre", PStr genre);
                     ("read", PBool read_status)] in
  let* _ := append book in
  let* _ := save_library in
  print (nl +:+ "Successfully added '" +:+ title +:+ "' to your library!").

End AddBook.

(** ** Export and menu *)

(** [s * n] *)
Fixpoint str_mul (s : string) (n : nat) : string :=
  match n with
  | O => ""
  | S k => s +:+ str_mul s k
  end.

(** The default of the [filename] argument of [export_to_txt]. *)
Definition export_filename : string := "library_export.txt".

Definition export_title : string := "=== Personal Library Export ===" +:+ nl +:+ nl.
Definition export_rule : string := str_mul "=" 50 +:+ nl +:+ nl.
Definition entry_rule : string := str_mul "-" 30 +:+ nl +:+ nl.

Section TextExport.
Context `{Builtins}.

Definition export_total (n : nat) : string := "Total Books: " +:+ str_nat n +:+ nl.
Definition exported_message (filename : string) : string :=
  nl +:+ "Library exported to " +:+ filename.
Definition export_error (e : exn) : string :=
  "Error exporting library to text file: " +:+ exn_str e.

(** Lines 230-237: the loop over [enumerate(self.books, 1)]. *)
Fixpoint export_from (f : handle) (i : nat) (bs : list pyval) : M unit :=
  match bs with
  | [] => ret tt
  | book :: rest =>
      let* _ := write f ("Book #" +:+ str_nat i +:+ ":" +:+ nl) in
      let* t := getitem book "title" in
      let* _ := write f ("Title: " +:+ py_str t +:+ nl) in
      let* a := getitem book "author" in
      let* _ := write f ("Author: " +:+ py_str a +:+ nl) in
      let* y := getitem book "year" in
      let* _ := write f ("Year: " +:+ py_str y +:+ nl) in
      let* g := getitem book "genre" in
      let* _ := write f ("Genre: " +:+ py_str g +:+ nl) in
      let* r := getitem book "read" in
      let* _ := write f ("Read: " +:+ (if truthy r then "Yes" else "No") +:+ nl) in
      let* _ := write f entry_rule in
      export_from f (S i) rest
  end.

Definition export_to_txt (filename : string) : M unit :=
  try_except
    (with_open filename ModeW (fun f =>
       let* _ := write f export_title in
       let* bs := get_books in
       let* _ := write f (export_total (length bs)) in
       let* _ := write f export_rule in
       let* bs := get_books in
       let* _ := export_from f 1 bs in
       print (exported_message filename)))
    is_exception
    (fun e => print (export_error e)).

End TextExport.

(** *** main *)

Definition menu : list string :=
  [nl +:+ "=== Personal Library Manager ===";
   "1. Add a book";
   "2. Remove a book";
   "3. Search books";
   "4. Display all books";
   "5. Display statistics";
   "6. Export to text file";
   "7. Exit"].

Definition choice_prompt : string := nl +:+ "Enter your choice (1-7): ".
Definition exit_message : string := nl +:+ "Saving library before exit...".
Definition goodbye_message : string :=
  nl +:+ "Thank you for using Personal Library Manager!".
Definition invalid_choice_message : string :=
  nl +:+ "Invalid choice. Please try again.".

(** Lines 249-256 *)
Fixpoint print_lines (msgs : list string) : M unit :=
  match msgs with
  | [] => ret tt
  | s :: rest => let* _ := print s in print_lines rest
  end.

Section Menu.
Context `{Builtins}.

(** Lines 262-280: the chain of conditionals on the choice; [true] is
    the [break]. *)
Definition dispatch (choice : string) : M bool :=
  if String.eqb choice "1" then let* _ := add_book in ret false
  else if String.eqb choice "2" then let* _ := remove_book in ret false
  else if String.eqb choice "3" then let* _ := search_books in ret false
  else if String.eqb choice "4" then let* _ := display_all_books in ret false
  else if String.eqb choice "5" then let* _ := display_statistics in ret false
  else if String.eqb choice "6" then let* _ := export_to_txt export_filename in ret false
  else if String.eqb choice "7" then
    let* _ := print exit_message in
    let* _ := save_library in
    let* _ := print goodbye_message in
    ret true
  else
    let* _ := print invalid_choice_message in
    ret false.

(** Lines 249-280: one turn of the [while True] loop of [main]. *)
Definition menu_turn : M bool :=
  let* _ := print_lines menu in
  let* line := input choice_prompt in
  let choice := strip line in
  dispatch choice.

(** The loop, by recursion on the lines left to type: a turn that does
    not leave takes at least one of them. *)
Fixpoint main_loop_from (lines : list string) : M unit :=
  let* stop := menu_turn in
  if stop then ret tt
  else
    match lines with
    | [] => raise EOFError
    | _ :: rest => main_loop_from rest
    end.

Definition main_loop : M unit := fun w => main_loop_from (stdin w) w.

Definition main : M unit :=
  let* _ := init in
  main_loop.

End Menu.

(** ** A reference implementation of the built-ins

    Enough of [json] and [str] to run the program on concrete libraries:
    exact on [None], [bool], [int], [str] and on lists and dictionaries
    of them, which is what book records are made of.  Float literals are
    not read, and a float is written with one decimal.  An error of the
    decoder carries its kind only, where Python adds the position.  Of
    the methods on text outside ASCII, [strip] and [int] are written out
    in full, [lower] for two alphabets. *)

Module Reference.

Definition dq : string := String (ascii_of_nat 34) EmptyString.
Definition backslash : string := String (ascii_of_nat 92) EmptyString.

Definition hex_digit (n : nat) : ascii :=
  if (n <? 10)%nat then ascii_of_nat (48 + n) else ascii_of_nat (87 + n).

(** With [ensure_ascii=False] only the quote, the backslash and the
    control characters are escaped. *)
Definition escape_char (c : ascii) : string :=
  let n := nat_of_ascii c in
  if (n =? 34)%nat then backslash +:+ dq
  else if (n =? 92)%nat then backslash +:+ backslash
  else if (n =? 10)%nat then backslash +:+ "n"
  else if (n =? 13)%nat then backslash +:+ "r"
  else if (n =? 9)%nat then backslash +:+ "t"
  else if (n =? 8)%nat then backslash +:+ "b"
  else if (n =? 12)%nat then backslash +:+ "f"
  else if (n <? 32)%nat then
    backslash +:+ "u00" +:+ String (hex_digit (n / 16)) (String (hex_digit (n mod 16)) EmptyString)
  else String c EmptyString.

Fixpoint escape (s : string) : string :=
  match s with
  | EmptyString => EmptyString
  | String c r => escape_char c +:+ escape r
  end.

Definition quoted (s : string) : string := dq +:+ escape s +:+ dq.

Fixpoint pad (level : nat) : string :=
  match level with
  | O => EmptyString
  | S n => "    " +:+ pad n
  end.

(** The items of a container, one per line at nesting [level]. *)
Fixpoint lines (level : nat) (items : list string) : string :=
  match items with
  | [] => EmptyString
  | [x] => x
  | x :: rest => x +:+ "," +:+ nl +:+ pad level +:+ lines level rest
  end.

(** A container: empty, or its items on lines of their own. *)
Definition bracket (opening closing : string) (level : nat) (items : list string)
  : string :=
  match items with
  | [] => opening +:+ closing
  | _ => opening +:+ nl +:+ pad (S level) +:+ lines (S level) items
         +:+ nl +:+ pad level +:+ closing
  end.

(** [json.dumps(v, indent=4, ensure_ascii=False)] at nesting [level]. *)
Fixpoint dump (level : nat) (v : pyval) : string :=
  match v with
  | PNone => "null"
  | PBool b => if b then "true" else "false"
  | PInt z => pretty z
  | PFloat f => format_1f f
  | PStr s => quoted s
  | PList l => bracket "[" "]" level (map (dump (S level)) l)
  | PDict kv =>
      bracket "{" "}" level
        (map (fun kx => match kx with
                        | (k, x) => quoted k +:+ ": " +:+ dump (S level) x
                        end) kv)
  end.

Definition dumps (l : list pyval) : string := dump 0 (PList l).

(** *** Decoder *)

Definition is_json_ws (c : ascii) : bool :=
  let n := nat_of_ascii c in
  ((n =? 32) || (n =? 9) || (n =? 10) || (n =? 13))%nat.

Fixpoint skip_ws (s : string) : string :=
  match s with
  | EmptyString => EmptyString
  | String c r => if is_json_ws c then skip_ws r else s
  end.

Definition hex_value (c : ascii) : option N :=
  let n := N_of_ascii c in
  (if (48 <=? n) && (n <=? 57) then Some (n - 48)
   else if (97 <=? n) && (n <=? 102) then Some (n - 87)
   else if (65 <=? n) && (n <=? 70) then Some (n - 55)
   else None)%N.

(** UTF-8 of a code point of the basic plane, surrogates excluded. *)
Definition utf8 (cp : N) : option string :=
  (if cp <? 128 then Some (String (ascii_of_N cp) EmptyString)
   else if cp <? 2048 then
     Some (String (ascii_of_N (192 + cp / 64))
            (String (ascii_of_N (128 + cp mod 64)) EmptyString))
   else if (55296 <=? cp) && (cp <=? 57343) then None
   else
     Some (String (ascii_of_N (224 + cp / 4096))
            (String (ascii_of_N (128 + (cp / 64) mod 64))
              (String (ascii_of_N (128 + cp mod 64)) EmptyString))))%N.

Definition unescape (e : ascii) : option string :=
  let n := nat_of_ascii e in
  if (n =? 34)%nat then Some dq
  else if (n =? 92)%nat then Some backslash
  else if (n =? 47)%nat then Some "/"
  else if (n =? 110)%nat then Some nl
  else if (n =? 114)%nat then Some (String (ascii_of_nat 13) EmptyString)
  else if (n =? 116)%nat then Some (String (ascii_of_nat 9) EmptyString)
  else if (n =? 98)%nat then Some (String (ascii_of_nat 8) EmptyString)
  else if (n =? 102)%nat then Some (String (ascii_of_nat 12) EmptyString)
  else None.

(** The characters of a string literal after its opening quote. *)
Fixpoint string_body (s : string) : option (string * string) :=
  match s with
  | EmptyString => None
  | String c r =>
      let n := nat_of_ascii c in
      if (n =? 34)%nat then Some (EmptyString, r)
      else if (n <? 32)%nat then None
      else if (n =? 92)%nat then
        match r with
        | String "u" (String a (String b (String c' (String d r')))) =>
            match hex_value a, hex_value b, hex_value c', hex_value d with
            | Some x3, Some x2, Some x1, Some x0 =>
                match utf8 (x3 * 4096 + x2 * 256 + x1 * 16 + x0)%N, string_body r' with
                | Some t, Some (u, rest) => Some (t +:+ u, rest)
                | _, _ => None
                end
            | _, _, _, _ => None
            end
        | String e r' =>
            match unescape e, string_body r' with
            | Some t, Some (u, rest) => Some (t +:+ u, rest)
            | _, _ => None
            end
        | EmptyString => None
        end
      else
        match string_body r with
        | Some (u, rest) => Some (String c u, rest)
        | None => None
        end
  end.

Fixpoint digits (acc : Z) (s : string) : Z * string :=
  match s with
  | EmptyString => (acc, s)
  | String c r =>
      match digit_of c with
      | Some d => digits (acc * 10 + d) r
      | None => (acc, s)
      end
  end.

Definition starts_fraction (s : string) : bool :=
  match s with
  | String c _ => Ascii.eqb c "." || Ascii.eqb c "e" || Ascii.eqb c "E"
  | EmptyString => false
  end.

(** An integer literal: no leading zero, no fraction, no exponent. *)
Definition natural (s : string) : option (Z * string) :=
  match s with
  | String "0" r => if starts_fraction r then None else Some (0, r)
  | String c _ =>
      match digit_of c with
      | Some _ => let '(z, r) := digits 0 s in
                  if starts_fraction r then None else Some (z, r)
      | None => None
      end
  | EmptyString => None
  end.

(** [s.startswith(p)] *)
Fixpoint starts_with (p s : string) : bool :=
  match p, s with
  | EmptyString, _ => true
  | String a p', String b s' => Ascii.eqb a b && starts_with p' s'
  | String _ _, EmptyString => false
  end.

Fixpoint str_drop (n : nat) (s : string) : string :=
  match n, s with
  | O, _ => s
  | S n', String _ r => str_drop n' r
  | S _, EmptyString => EmptyString
  end.

(** [d[k] = v] on an insertion-ordered dictionary. *)
Fixpoint dict_set (k : string) (v : pyval) (kv : list (string * pyval))
  : list (string * pyval) :=
  match kv with
  | [] => [(k, v)]
  | (k', v') :: rest =>
      if String.eqb k' k then (k', v) :: rest else (k', v') :: dict_set k v rest
  end.

Fixpoint value (fuel : nat) (s : string) : option (pyval * string) :=
  match fuel with
  | O => None
  | S n =>
      match s with
      | String "[" r =>
          match skip_ws r with
          | String "]" r' => Some (PList [], r')
          | r' => match elements n r' with
                  | Some (l, rest) => Some (PList l, rest)
                  | None => None
                  end
          end
      | String "{" r =>
          match skip_ws r with
          | String "}" r' => Some (PDict [], r')
          | r' => match members n r' [] with
                  | Some (kv, rest) => Some (PDict kv, rest)
                  | None => None
                  end
          end
      | String "-" r =>
          match natural r with
          | Some (z, rest) => Some (PInt (- z), rest)
          | None => None
          end
      | String c r =>
          if (nat_of_ascii c =? 34)%nat then
            match string_body r with
            | Some (t, rest) => Some (PStr t, rest)
            | None => None
            end
          else if starts_with "null" s then Some (PNone, str_drop 4 s)
          else if starts_with "true" s then Some (PBool true, str_drop 4 s)
          else if starts_with "false" s then Some (PBool false, str_drop 5 s)
          else match natural s with
               | Some (z, rest) => Some (PInt z, rest)
               | None => None
               end
      | EmptyString => None
      end
  end
with elements (fuel : nat) (s : string) : option (list pyval * string) :=
  match fuel with
  | O => None
  | S n =>
      match value n s with
      | Some (v, r) =>
          match skip_ws r with
          | String "," r' =>
              match elements n (skip_ws r') with
              | Some (l, rest) => Some (v :: l, rest)
              | None => None
              end
          | String "]" r' => Some ([v], r')
          | _ => None
          end
      | None => None
      end
  end
with members (fuel : nat) (s : string) (acc : list (string * pyval))
  : option (list (string * pyval) * string) :=
  match fuel with
  | O => None
  | S n =>
      match s with
      | String c r =>
          if (nat_of_ascii c =? 34)%nat then
            match string_body r with
            | Some (k, r1) =>
                match skip_ws r1 with
                | String ":" r2 =>
                    match value n (skip_ws r2) with
                    | Some (v, r3) =>
                        match skip_ws r3 with
                        | String "," r4 => members n (skip_ws r4) (dict_set k v acc)
                        | String "}" r4 => Some (dict_set k v acc, r4)
                        | _ => None
                        end
                    | None => None
                    end
                | _ => None
                end
            | None => None
            end
          else None
      | EmptyString => None
      end
  end.

Definition loads (s : string) : pyval + string :=
  match value (S (String.length s)) (skip_ws s) with
  | Some (v, r) =>
      match skip_ws r with
      | EmptyString => inl v
      | _ => inr "Extra data"
      end
  | None => inr "Expecting value"
  end.

(** [str(v)]: a string is shown as it is, a container through its items. *)
Fixpoint str (v : pyval) : string :=
  match v with
  | PNone => "None"
  | PBool b => if b then "True" else "False"
  | PInt z => pretty z
  | PFloat f => format_1f f
  | PStr s => s
  | PList l =>
      "[" +:+ (fix items (ys : list pyval) : string :=
                 match ys with
                 | [] => EmptyString
                 | [y] => str y
                 | y :: zs => str y +:+ ", " +:+ items zs
                 end) l +:+ "]"
  | PDict kv =>
      "{" +:+ (fix members (ys : list (string * pyval)) : string :=
                 match ys with
                 | [] => EmptyString
                 | [(k, y)] => "'" +:+ k +:+ "': " +:+ str y
                 | (k, y) :: zs => "'" +:+ k +:+ "': " +:+ str y +:+ ", " +:+ members zs
                 end) kv +:+ "}"
  end.

(** *** Text outside ASCII

    Enough of Unicode to run the program on such text: its white space
    and its decimal digits (Unicode 14), and the case of the letters of
    the Latin-1 supplement and of the Cyrillic alphabet. *)

Definition is_tail (c : ascii) : bool :=
  ((128 <=? N_of_ascii c) && (N_of_ascii c <? 192))%N.

Definition tail_bits (c : ascii) : N := (N_of_ascii c - 128)%N.

(** A byte that is no part of a character stands for itself, above the
    code points. *)
Definition stray (c : ascii) : N := (1114112 + N_of_ascii c)%N.

(** The code points of a text in UTF-8. *)
Fixpoint code_points (s : string) : list N :=
  match s with
  | EmptyString => []
  | String a r =>
      let x := N_of_ascii a in
      if (x <? 128)%N then x :: code_points r
      else
        match r with
        | String b r2 =>
            if ((194 <=? x) && (x <? 224))%N && is_tail b then
              ((x - 192) * 64 + tail_bits b)%N :: code_points r2
            else
              match r2 with
              | String c r3 =>
                  if ((224 <=? x) && (x <? 240))%N && is_tail b && is_tail c then
                    ((x - 224) * 4096 + tail_bits b * 64 + tail_bits c)%N
                      :: code_points r3
                  else
                    match r3 with
                    | String d r4 =>
                        if ((240 <=? x) && (x <? 245))%N
                           && is_tail b && is_tail c && is_tail d then
                          ((x - 240) * 262144 + tail_bits b * 4096
                           + tail_bits c * 64 + tail_bits d)%N :: code_points r4
                        else stray a :: code_points r
                    | EmptyString => stray a :: code_points r
                    end
              | EmptyString => stray a :: code_points r
              end
        | EmptyString => [stray a]
        end
  end.

Definition bytes (l : list N) : string :=
  fold_right (fun x s => String (ascii_of_N x) s) EmptyString l.

(** UTF-8 of a code point. *)
Definition encode (cp : N) : string :=
  (if cp <? 128 then bytes [cp]
   else if cp <? 2048 then bytes [192 + cp / 64; 128 + cp mod 64]
   else if cp <? 65536 then
     bytes [224 + cp / 4096; 128 + (cp / 64) mod 64; 128 + cp mod 64]
   else if cp <? 1114112 then
     bytes [240 + cp / 262144; 128 + (cp / 4096) mod 64;
            128 + (cp / 64) mod 64; 128 + cp mod 64]
   else bytes [cp - 1114112])%N.

Definition text (l : list N) : string :=
  fold_right (fun cp s => encode cp +:+ s) EmptyString l.

(** [c.isspace()] *)
Definition is_space_cp (cp : N) : bool :=
  (((9 <=? cp) && (cp <=? 13)) || ((28 <=? cp) && (cp <=? 32))
   || (cp =? 133) || (cp =? 160) || (cp =? 5760)
   || ((8192 <=? cp) && (cp <=? 8202))
   || (cp =? 8232) || (cp =? 8233) || (cp =? 8239) || (cp =? 8287)
   || (cp =? 12288))%N.

Fixpoint lstrip_cp (l : list N) : list N :=
  match l with
  | [] => []
  | cp :: r => if is_space_cp cp then lstrip_cp r else l
  end.

Definition strip_cp (l : list N) : list N :=
  rev (lstrip_cp (rev (lstrip_cp l))).

Definition strip_text (s : string) : string := text (strip_cp (code_points s)).

(** The lower case of a letter of ASCII, of the Latin-1 supplement or of
    the Cyrillic alphabet. *)
Definition lower_cp (cp : N) : N :=
  (if (65 <=? cp) && (cp <=? 90) then cp + 32
   else if (192 <=? cp) && (cp <=? 222) && negb (cp =? 215) then cp + 32
   else if (1024 <=? cp) && (cp <=? 1039) then cp + 80
   else if (1040 <=? cp) && (cp <=? 1071) then cp + 32
   else cp)%N.

Definition lower_text (s : string) : string := text (map lower_cp (code_points s)).

(** The digit 0 of each script that has decimal digits; the nine others
    follow it. *)
Definition digit_zeros : list N :=
  [48; 1632; 1776; 1984; 2406; 2534; 2662; 2790; 2918; 3046; 3174; 3302;
   3430; 3558; 3664; 3792; 3872; 4160; 4240; 6112; 6160; 6470; 6608; 6784;
   6800; 6992; 7088; 7232; 7248; 42528; 43216; 43264; 43472; 43504; 43600;
   44016; 65296; 66720; 68912; 69734; 69872; 69942; 70096; 70384; 70736;
   70864; 71248; 71360; 71472; 71904; 72016; 72784; 73040; 73120; 92768;
   92864; 93008; 120782; 120792; 120802; 120812; 120822; 123200; 123632;
   125264; 130032]%N.

Definition digit_cp (cp : N) : option N :=
  (fun z => cp - z)%N <$> List.find (fun z => (z <=? cp) && (cp <? z + 10))%N digit_zeros.

(** What [int] does to a text that is not all ASCII before it reads it:
    a digit of any script becomes the ASCII digit, white space becomes
    a space, an ASCII character stays; nothing else is allowed. *)
Fixpoint numeral (l : list N) : option string :=
  match l with
  | [] => Some EmptyString
  | cp :: r =>
      let put x := String (ascii_of_N x) <$> numeral r in
      if (cp <? 127)%N then put cp
      else if is_space_cp cp then put 32%N
      else match digit_cp cp with
           | Some d => put (48 + d)%N
           | None => None
           end
  end.

Fixpoint count_digits (s : string) : nat :=
  match s with
  | EmptyString => 0%nat
  | String c r =>
      match digit_of c with
      | Some _ => S (count_digits r)
      | None => count_digits r
      end
  end.

(** [int] with its limit of 4300 digits. *)
Definition int_text (s : string) : option Z :=
  match (if is_ascii s then Some s else numeral (code_points s)) with
  | Some t => if (max_str_digits <? count_digits t)%nat then None else int_plain t
  | None => None
  end.

#[global] Instance builtins : Builtins :=
  {| json_dumps := dumps; json_loads := loads; py_str := str;
     lower_beyond := lower_text; strip_beyond := strip_text;
     int_beyond := int_text |}.

(** *** What the decoder reads back

    The vocabulary of the proof that [loads] inverts [dumps]. *)

(** What may follow a value: the end, white space, a comma, a closing
    bracket. *)
Definition delimited (s : string) : bool :=
  match s with
  | EmptyString => true
  | String c _ =>
      is_json_ws c || Ascii.eqb c "," || Ascii.eqb c "]" || Ascii.eqb c "}"
  end.

(** The text starts a value: no white space, no closing bracket. *)
Definition starts_value (s : string) : bool :=
  match s with
  | EmptyString => false
  | String c _ =>
      negb (is_json_ws c) && negb (Ascii.eqb c "]") && negb (Ascii.eqb c "}")
  end.

(** Values the encoder writes so that the decoder reads them back: no
    float, and no key twice in a dictionary. *)
Fixpoint clean (v : pyval) : bool :=
  match v with
  | PFloat _ => false
  | PList l => forallb clean l
  | PDict kv =>
      bool_decide (NoDup (map fst kv)) &&
      forallb (fun kx => match kx with (_, x) => clean x end) kv
  | _ => true
  end.

(** A bound on the fuel the decoder needs. *)
Fixpoint size (v : pyval) : nat :=
  match v with
  | PList l => S (list_sum (map (fun x => S (size x)) l))
  | PDict kv => S (list_sum (map (fun kx => match kx with (_, x) => S (size x) end) kv))
  | _ => 1
  end.

Definition member_text (level : nat) (kx : string * pyval) : string :=
  match kx with (k, x) => quoted k +:+ ": " +:+ dump level x end.

Definition list_weight (l : list pyval) : nat :=
  list_sum (map (fun x => S (size x)) l).

Definition dict_weight (kv : list (string * pyval)) : nat :=
  list_sum (map (fun kx => match kx with (_, x) => S (size x) end) kv).

End Reference.

(** * Specification

    The vocabulary in which the properties below are stated: what a run
    may raise and may change, the two-step rule of [load], and the views
    of a well-formed record that [remove], [search] and [statistics]
    are specified on. *)

(** ** Runs *)

(** Every exception [m] can raise is of a class [P] accepts. *)
Definition raises_only {A} (P : exn -> bool) (m : M A) : Prop :=
  forall w e w', m w = (Raise e, w') -> P e = true.

(** [m] returns, in every world. *)
Definition never_raises {A} (m : M A) : Prop :=
  forall w, exists a w', m w = (Ok a, w').

(** The world once the next file-system decision has been taken. *)
Definition decided (w : world) : world := set_faults (tl (faults w)) w.

(** Whatever its outcome, [m] takes a world to an [R]-related one. *)
Definition preserves {A} (R : relation world) (m : M A) : Prop :=
  forall w r w', m w = (r, w') -> R w w'.

(** Nothing but files and pending failures changes. *)
Definition quiet (w w' : world) : Prop :=
  books w' = books w /\ loaded w' = loaded w /\
  stdin w' = stdin w /\ stdout w' = stdout w.

(** The library and the input are as before; messages may have been shown. *)
Definition same_store (w w' : world) : Prop :=
  books w' = books w /\ stdin w' = stdin w.

(** ** Records *)

(** [b[k]], when [b] is a dictionary that has the key. *)
Definition field (k : string) (b : pyval) : option pyval :=
  match b with PDict kv => dict_get k kv | _ => None end.

(** [b[k]], when it is a string. *)
Definition str_field (k : string) (b : pyval) : option string :=
  match field k b with Some (PStr s) => Some s | _ => None end.

Definition has_title (b : pyval) : bool :=
  match str_field "title" b with Some _ => true | None => false end.

(** A record as [add_book] builds it: the five keys, each of its type. *)
Definition is_book (b : pyval) : bool :=
  match field "title" b, field "author" b, field "year" b,
        field "genre" b, field "read" b with
  | Some (PStr _), Some (PStr _), Some (PInt _), Some (PStr _), Some (PBool _) => true
  | _, _, _, _, _ => false
  end.

(** The test of line 67: the titles are equal once lowered. *)
Definition title_matches `{Builtins} (title : string) (b : pyval) : bool :=
  match str_field "title" b with
  | Some t => String.eqb (lower t) (lower title)
  | None => false
  end.

(** [t] occurs in [s]: some text before it, some text after it. *)
Definition substring_of (t s : string) : Prop :=
  exists pre post, s = pre +:+ t +:+ post.

(** The test of line 88 on a record with a title and an author. *)
Definition search_matches `{Builtins} (search_term : string) (b : pyval) : bool :=
  match str_field "title" b, str_field "author" b with
  | Some t, Some a => str_in search_term (lower t) || str_in search_term (lower a)
  | _, _ => false
  end.

(** ** Statistics *)

(** [read] is [True]. *)
Definition is_read (b : pyval) : bool :=
  match field "read" b with Some (PBool true) => true | _ => false end.

Definition read_count (bs : list pyval) : nat := length (List.filter is_read bs).

(** The genre of each record, in the order of the library. *)
Definition genres (bs : list pyval) : list string := omap (str_field "genre") bs.

(** The distinct values of a list, each at the place of its first occurrence. *)
Fixpoint first_seen (gs : list string) : list string :=
  match gs with
  | [] => []
  | g :: rest => g :: List.filter (fun x => negb (String.eqb x g)) (first_seen rest)
  end.

(** How many times [g] occurs in [gs]. *)
Definition occurrences (g : string) (gs : list string) : nat :=
  length (List.filter (String.eqb g) gs).

(** Each distinct genre with its count, in first-seen order. *)
Definition genre_table (gs : list string) : list (string * nat) :=
  map (fun g => (g, occurrences g gs)) (first_seen gs).

(** [genres_incr] on string keys. *)
Fixpoint incr (g : string) (T : list (string * nat)) : list (string * nat) :=
  match T with
  | [] => [(g, 1%nat)]
  | (k, c) :: rest => if String.eqb k g then (k, S c) :: rest else (k, c) :: incr g rest
  end.

Definition lift (kc : string * nat) : pyval * nat := (PStr kc.1, kc.2).

(** [g] is a key of [T]. *)
Definition known (T : list (string * nat)) (g : string) : bool :=
  existsb (String.eqb g) (map fst T).

Section Specification.
Context `{Builtins}.

(** What [load] adopts from a file: the array its content decodes to. *)
Definition adoptable (c : option string) : option (list pyval) :=
  match c with
  | Some t => match json_loads t with inl (PList l) => Some l | _ => None end
  | None => None
  end.

(** The library after [load]: the primary file if it can be adopted,
    else the backup file if it can, else nothing. *)
Definition load_spec (fs : gmap string string) : list pyval :=
  match adoptable (fs !! filename) with
  | Some l => l
  | None =>
      match adoptable (fs !! backup_filename) with
      | Some l => l
      | None => []
      end
  end.

(** What one attempt does to the world when the file system behaves. *)
Definition attempted (c : string) (w w' : world) : Prop :=
  files w' = files w /\ stdin w' = stdin w /\ faults w' = [] /\
  match adoptable (Some c) with
  | Some l => books w' = l /\ loaded w' = true
  | None => books w' = books w /\ loaded w' = loaded w
  end.

(** The two lines [_display_books] prints for the record numbered [i]. *)
Definition book_lines (i : nat) (b : pyval) : list string :=
  match field "title" b, field "author" b, field "year" b,
        field "genre" b, field "read" b with
  | Some t, Some a, Some y, Some g, Some r =>
      [str_nat i +:+ ". " +:+ py_str t +:+ " by " +:+ py_str a
         +:+ " (" +:+ py_str y +:+ ")";
       "   Genre: " +:+ py_str g +:+ " | Read: " +:+ (if truthy r then "✓" else "✗")]
  | _, _, _, _, _ => []
  end.

Fixpoint display_lines (i : nat) (bs : list pyval) : list string :=
  match bs with
  | [] => []
  | b :: rest => (book_lines i b ++ display_lines (S i) rest)%list
  end.

(** The lines [display_statistics] prints for a library that is not empty. *)
Definition stats_lines (bs : list pyval) : list string :=
  ([stats_header;
    total_line (length bs);
    read_line (read_count bs);
    percentage_line (percentage_read (read_count bs) (length bs));
    genre_header] ++
   map (fun gc => genre_line (PStr gc.1) gc.2) (genre_table (genres bs)))%list.

End Specification.

(** ** Footprints *)

(** What a method may change besides the terminal and the pending
    failures: the library, the files of some paths, the input. *)
Record footprint : Type := Footprint {
  writes_books : bool;
  writes_files : list string;
  reads_input : bool
}.

(** [w'] differs from [w] within the footprint [f]; lines of the input
    and pending failures can only have been taken from the front. *)
Definition within (f : footprint) (w w' : world) : Prop :=
  (writes_books f = false -> books w' = books w) /\
  (reads_input f = false -> stdin w' = stdin w) /\
  stdin w' `suffix_of` stdin w /\
  (forall p, p ∉ writes_files f -> files w' !! p = files w !! p) /\
  faults w' `suffix_of` faults w.

Definition shows_only : footprint := Footprint false [] false.
Definition saves : footprint := Footprint false [filename; backup_filename] false.
Definition loads_books : footprint := Footprint true [] false.
Definition exports (p : string) : footprint := Footprint false [p] false.
Definition session : footprint :=
  Footprint true [filename; backup_filename; export_filename] true.

(** ** Further views of a run *)

(** The record [add_book] builds from its answers. *)
Definition new_book `{Builtins} (title author : string) (year : Z) (genre answer : string)
  : pyval :=
  PDict [("title", PStr (strip title)); ("author", PStr (strip author));
         ("year", PInt year); ("genre", PStr (strip genre));
         ("read", PBool (String.eqb (strip (lower answer)) "yes"))].

(** The year a typed line stands for, if the loop of [add_book] takes it. *)
Definition year_of `{Builtins} (line : string) : option Z :=
  match py_int line with
  | Some year => if year_in_range year then Some year else None
  | None => None
  end.

(** What the loop answers to a line it does not take. *)
Definition year_reply `{Builtins} (line : string) : string :=
  match py_int line with
  | Some _ => year_range_message
  | None => year_number_message
  end.

Definition is_eof (e : exn) : bool :=
  match e with EOFError => true | _ => false end.

(** A run that ends normally or at the end of the input. *)
Definition ends_well {A} (r : outcome A) : Prop :=
  match r with
  | Ok _ => True
  | Raise e => e = EOFError
  end.

(** On a library of book records, [m] ends well and leaves a library of
    book records. *)
Definition keeps_books {A} (m : M A) : Prop :=
  forall w r w',
    forallb is_book (books w) = true -> m w = (r, w') ->
    ends_well r /\ forallb is_book (books w') = true.

Section FurtherSpecification.
Context `{Builtins}.

(** The text [export_to_txt] writes for the record numbered [i]. *)
Definition export_entry (i : nat) (b : pyval) : string :=
  match field "title" b, field "author" b, field "year" b,
        field "genre" b, field "read" b with
  | Some t, Some a, Some y, Some g, Some r =>
      ("Book #" +:+ str_nat i +:+ ":" +:+ nl) +:+
      ("Title: " +:+ py_str t +:+ nl) +:+
      ("Author: " +:+ py_str a +:+ nl) +:+
      ("Year: " +:+ py_str y +:+ nl) +:+
      ("Genre: " +:+ py_str g +:+ nl) +:+
      ("Read: " +:+ (if truthy r then "Yes" else "No") +:+ nl) +:+
      entry_rule
  | _, _, _, _, _ => ""
  end.

Fixpoint export_entries (i : nat) (bs : list pyval) : string :=
  match bs with
  | [] => ""
  | b :: rest => export_entry i b +:+ export_entries (S i) rest
  end.

Definition export_text (bs : list pyval) : string :=
  export_title +:+ export_total (length bs) +:+ export_rule +:+ export_entries 1 bs.

End FurtherSpecification.

(** ** What the methods show *)

(** The prompts and answers of the year loop for the lines it refuses. *)
Definition asked_years `{Builtins} (refused : list string) : list string :=
  flat_map (fun line => [year_prompt; year_reply line]) refused.

(** All that [add_book] shows before it saves. *)
Definition add_prompts `{Builtins} (refused : list string) : list string :=
  ([nl +:+ "=== Add New Book ==="; "Enter book title: "; "Enter author name: "] ++
   asked_years refused ++
   [year_prompt; "Enter genre: "; "Have you read this book? (yes/no): "])%list.

Definition added_message (title : string) : string :=
  nl +:+ "Successfully added '" +:+ title +:+ "' to your library!".

(** Only the input is taken from. *)
Definition answers : footprint := Footprint false [] true.

Definition library_header : string := nl +:+ "=== Your Library ===".

(** The world in which the file [p] holds [text]. *)
Definition written (p text : string) (w : world) : world :=
  set_files (<[p := text]> (files w)) w.

(** A library of book records stays one. *)
Definition tidy (w w' : world) : Prop :=
  forallb is_book (books w) = true -> forallb is_book (books w') = true.

(** A text of decimal digits only. *)
Fixpoint all_digits (s : string) : bool :=
  match s with
  | EmptyString => true
  | String c r => match digit_of c with Some _ => all_digits r | None => false end
  end.

(** ** Sample libraries and worlds *)

Definition dune : pyval :=
  PDict [("title", PStr "Dune"); ("author", PStr "Frank Herbert");
         ("year", PInt 1965); ("genre", PStr "Science Fiction");
         ("read", PBool true)].

Definition hobbit : pyval :=
  PDict [("title", PStr "The Hobbit"); ("author", PStr "J.R.R. Tolkien");
         ("year", PInt 1937); ("genre", PStr "Fantasy");
         ("read", PBool false)].

(** A second copy of Dune, typed in capitals. *)
Definition dune_again : pyval :=
  PDict [("title", PStr "DUNE"); ("author", PStr "F. Herbert");
         ("year", PInt 1984); ("genre", PStr "Science Fiction");
         ("read", PBool true)].

Definition shelf : list pyval := [hobbit; dune; dune_again].

(** An array that holds no book at all. *)
Definition odd_array : list pyval := [PInt 1; PStr "x"; PNone].

(** The first start: no file, nothing typed, nothing shown, no failure. *)
Definition fresh : world := World [] false ∅ [] [] [].

Definition with_files (fs : gmap string string) (w : world) : world :=
  set_files fs w.

(** Both files on disk, the primary one holding [old]. *)
Definition on_disk (old : list pyval) : gmap string string :=
  <[filename := Reference.dumps old]>
    (<[backup_filename := Reference.dumps []]> ∅).

(** The primary file is damaged, the backup holds [saved]. *)
Definition damaged (saved : list pyval) : gmap string string :=
  <[filename := "{ not json"]>
    (<[backup_filename := Reference.dumps saved]> ∅).

Definition denied : fault := Fault (EIO "Permission denied") 0.

(** * Reasoning about runs *)

(** ** Inversion of the monad's combinators *)

Lemma bind_ok_inv {A B} (m : M A) (k : A -> M B) w b w' :
  bind m k w = (Ok b, w') -> exists a w1, m w = (Ok a, w1) /\ k a w1 = (Ok b, w').
Proof.
  unfold bind. destruct (m w) as [[a|e] w1]; [eauto | discriminate].
Qed.

Lemma bind_raise_inv {A B} (m : M A) (k : A -> M B) w e w' :
  bind m k w = (Raise e, w') ->
  m w = (Raise e, w') \/ exists a w1, m w = (Ok a, w1) /\ k a w1 = (Raise e, w').
Proof.
  unfold bind. destruct (m w) as [[a|e0] w1]; [eauto | intros [= -> ->]; auto].
Qed.

Lemma bind_ok_run {A B} (m : M A) (k : A -> M B) w a w1 :
  m w = (Ok a, w1) -> bind m k w = k a w1.
Proof. unfold bind. now intros ->. Qed.

Lemma finally_ok_inv {A} (m : M A) (c : M unit) w a w' :
  finally m c w = (Ok a, w') -> exists w1, m w = (Ok a, w1) /\ c w1 = (Ok tt, w').
Proof.
  unfold finally. destruct (m w) as [r w1]. destruct (c w1) as [[[]|e] w2] eqn:Ec.
  - intros [= -> ->]. exists w1. split; [reflexivity | exact Ec].
  - discriminate.
Qed.

Lemma try_except_ok_run {A} (m : M A) c h w a w1 :
  m w = (Ok a, w1) -> try_except m c h w = (Ok a, w1).
Proof. unfold try_except. now intros ->. Qed.

Lemma try_except_raise_run {A} (m : M A) c h w e w1 :
  m w = (Raise e, w1) -> c e = true -> try_except m c h w = h e w1.
Proof. unfold try_except. now intros -> ->. Qed.

(** ** Which exceptions a computation can raise *)

Lemma raises_only_ret {A} P (a : A) : raises_only P (ret a).
Proof. intros w e w'. discriminate. Qed.

Lemma raises_only_raise {A} (P : exn -> bool) e : P e = true -> raises_only P (@raise A e).
Proof. intros He w e' w' [= <- _]. exact He. Qed.

Lemma raises_only_bind {A B} P (m : M A) (k : A -> M B) :
  raises_only P m -> (forall a, raises_only P (k a)) -> raises_only P (bind m k).
Proof.
  intros Hm Hk w e w' Hr. apply bind_raise_inv in Hr as [Hr | (a & w1 & _ & Hr)].
  - eapply Hm, Hr.
  - eapply Hk, Hr.
Qed.

Lemma raises_only_finally {A} P (m : M A) (c : M unit) :
  raises_only P m -> raises_only P c -> raises_only P (finally m c).
Proof.
  intros Hm Hc w e w'. unfold finally.
  destruct (m w) as [r w1] eqn:Em. destruct (c w1) as [[[]|e2] w2] eqn:Ec.
  - intros [= -> ->]. eapply Hm, Em.
  - intros [= -> ->]. eapply Hc, Ec.
Qed.

Lemma never_raises_try {A} (m : M A) c h :
  raises_only c m -> (forall e, never_raises (h e)) -> never_raises (try_except m c h).
Proof.
  intros Hm Hh w. unfold try_except. destruct (m w) as [[a|e] w1] eqn:Em.
  - eauto.
  - rewrite (Hm _ _ _ Em). apply Hh.
Qed.

Lemma never_raises_bind {A B} (m : M A) (k : A -> M B) :
  never_raises m -> (forall a, never_raises (k a)) -> never_raises (bind m k).
Proof.
  intros Hm Hk w. destruct (Hm w) as (a & w1 & Em).
  rewrite (bind_ok_run _ _ _ _ _ Em). apply Hk.
Qed.

Lemma never_raises_ret {A} (a : A) : never_raises (ret a).
Proof. intros w. unfold ret. eauto. Qed.

Lemma never_raises_print s : never_raises (print s).
Proof. intros w. unfold print. eauto. Qed.

Lemma never_raises_path_exists p : never_raises (path_exists p).
Proof. intros w. unfold path_exists. eauto. Qed.

(** ** The file primitives *)

Lemma io_exn_is_exception e : is_exception (io_exn e) = true.
Proof. now destruct e. Qed.

Lemma open_read_ok p w h w' :
  open p ModeR w = (Ok h, w') -> h = p /\ is_Some (files w !! p) /\ w' = decided w.
Proof.
  unfold open, bind, next_fault, raise. destruct (hd NoFault (faults w)); [|discriminate].
  destruct (files (set_faults _ w) !! p) eqn:E; [|discriminate].
  intros [= <- <-]. destruct w; simpl in *. eauto.
Qed.

Lemma open_write_ok p w h w' :
  open p ModeW w = (Ok h, w') ->
  h = p /\ w' = set_files (<[p := ""]> (files w)) (decided w).
Proof.
  unfold open, bind, next_fault, raise. destruct (hd NoFault (faults w)); [|discriminate].
  intros [= <- <-]. now destruct w.
Qed.

Lemma read_ok h w s w' :
  read h w = (Ok s, w') -> s = file_content h w /\ w' = decided w.
Proof.
  unfold read, bind, next_fault, raise. destruct (hd NoFault (faults w)); [|discriminate].
  intros [= <- <-]. now destruct w.
Qed.

Lemma write_ok h data w w' :
  write h data w = (Ok tt, w') ->
  w' = set_files (<[h := file_content h w +:+ data]> (files w)) (decided w).
Proof.
  unfold write, bind, next_fault. destruct (hd NoFault (faults w)); [|discriminate].
  intros [= <-]. now destruct w.
Qed.

Lemma close_ok h w w' : close h w = (Ok tt, w') -> w' = decided w.
Proof.
  unfold close, bind, next_fault, raise, ret. destruct (hd NoFault (faults w)); [|discriminate].
  now intros [= <-].
Qed.

Lemma raises_only_open p m : raises_only is_exception (open p m).
Proof.
  intros w e w'. unfold open, bind, next_fault, raise.
  destruct (hd NoFault (faults w)).
  - destruct m; [|discriminate]. destruct (files _ !! p); [discriminate|]. now intros [= <- _].
  - intros [= <- _]. apply io_exn_is_exception.
Qed.

Lemma raises_only_read h : raises_only is_exception (read h).
Proof.
  intros w e w'. unfold read, bind, next_fault, raise.
  destruct (hd NoFault (faults w)); [discriminate|].
  intros [= <- _]. apply io_exn_is_exception.
Qed.

Lemma raises_only_write h d : raises_only is_exception (write h d).
Proof.
  intros w e w'. unfold write, bind, next_fault.
  destruct (hd NoFault (faults w)); [discriminate|].
  intros [= <- _]. apply io_exn_is_exception.
Qed.

Lemma raises_only_close h : raises_only is_exception (close h).
Proof.
  intros w e w'. unfold close, bind, next_fault, raise, ret.
  destruct (hd NoFault (faults w)); [discriminate|].
  intros [= <- _]. apply io_exn_is_exception.
Qed.

Lemma raises_only_print P s : raises_only P (print s).
Proof. intros w e w'. discriminate. Qed.

Lemma raises_only_with_open {A} p m (body : handle -> M A) :
  (forall h, raises_only is_exception (body h)) ->
  raises_only is_exception (with_open p m body).
Proof.
  intros Hb. apply raises_only_bind; [apply raises_only_open|].
  intros h. apply raises_only_finally; [apply Hb | apply raises_only_close].
Qed.

Lemma with_open_ok_inv {A} p m (body : handle -> M A) w a w' :
  with_open p m body w = (Ok a, w') ->
  exists w1 w2, open p m w = (Ok p, w1) /\ body p w1 = (Ok a, w2) /\ w' = decided w2.
Proof.
  intros Hr. apply bind_ok_inv in Hr as (h & w1 & Ho & Hr).
  apply finally_ok_inv in Hr as (w2 & Hb & Hc). apply close_ok in Hc.
  assert (h = p) as ->.
  { destruct m; [apply open_read_ok in Ho | apply open_write_ok in Ho]; tauto. }
  eauto.
Qed.

(** ** Runs without a file-system failure *)

Lemma open_read_clean p c w :
  faults w = [] -> files w !! p = Some c -> open p ModeR w = (Ok p, w).
Proof.
  destruct w as [bs ld fs i o fl]; simpl. intros -> Hp.
  unfold open, bind, next_fault; simpl. now rewrite Hp.
Qed.

Lemma open_write_clean p w :
  faults w = [] -> open p ModeW w = (Ok p, set_files (<[p := ""]> (files w)) w).
Proof. destruct w as [bs ld fs i o fl]; simpl. now intros ->. Qed.

Lemma read_clean h w : faults w = [] -> read h w = (Ok (file_content h w), w).
Proof. destruct w as [bs ld fs i o fl]; simpl. now intros ->. Qed.

Lemma write_clean h data w :
  faults w = [] ->
  write h data w = (Ok tt, set_files (<[h := file_content h w +:+ data]> (files w)) w).
Proof. destruct w as [bs ld fs i o fl]; simpl. now intros ->. Qed.

Lemma close_clean h w : faults w = [] -> close h w = (Ok tt, w).
Proof. destruct w as [bs ld fs i o fl]; simpl. now intros ->. Qed.

Lemma with_open_clean {A} p m (body : handle -> M A) w w1 r w2 :
  open p m w = (Ok p, w1) -> body p w1 = (r, w2) -> faults w2 = [] ->
  with_open p m body w = (r, w2).
Proof.
  intros Ho Hb Hf. unfold with_open. rewrite (bind_ok_run _ _ _ _ _ Ho).
  unfold finally. rewrite Hb, (close_clean _ _ Hf). reflexivity.
Qed.

(** ** What a computation leaves alone *)

#[local] Instance quiet_refl : Reflexive quiet.
Proof. now intros w. Qed.
#[local] Instance quiet_trans : Transitive quiet.
Proof. intros a b c (?&?&?&?) (?&?&?&?). unfold quiet. repeat split; congruence. Qed.
#[local] Instance same_store_refl : Reflexive same_store.
Proof. now intros w. Qed.
#[local] Instance same_store_trans : Transitive same_store.
Proof. intros a b c (?&?) (?&?). unfold same_store. split; congruence. Qed.

Lemma quiet_same_store w w' : quiet w w' -> same_store w w'.
Proof. intros (?&?&?&?). now split. Qed.

Lemma preserves_weaken {A} (R S : relation world) (m : M A) :
  (forall w w', R w w' -> S w w') -> preserves R m -> preserves S m.
Proof. intros HRS Hm w r w' Hr. eapply HRS, Hm, Hr. Qed.

Lemma preserves_ret {A} R `{!Reflexive R} (a : A) : preserves R (ret a).
Proof. intros w r w' [= _ <-]. reflexivity. Qed.

Lemma preserves_raise {A} R `{!Reflexive R} e : preserves R (@raise A e).
Proof. intros w r w' [= _ <-]. reflexivity. Qed.

Lemma preserves_bind {A B} R `{!Transitive R} (m : M A) (k : A -> M B) :
  preserves R m -> (forall a, preserves R (k a)) -> preserves R (bind m k).
Proof.
  intros Hm Hk w r w'. unfold bind. destruct (m w) as [[a|e] w1] eqn:Em.
  - intros Hr. etransitivity; [eapply Hm, Em | eapply Hk, Hr].
  - intros [= _ <-]. eapply Hm, Em.
Qed.

Lemma preserves_finally {A} R `{!Transitive R} (m : M A) (c : M unit) :
  preserves R m -> preserves R c -> preserves R (finally m c).
Proof.
  intros Hm Hc w r w'. unfold finally. destruct (m w) as [r1 w1] eqn:Em.
  destruct (c w1) as [[[]|e] w2] eqn:Ec; intros [= _ <-];
    (etransitivity; [eapply Hm, Em | eapply Hc, Ec]).
Qed.

Lemma preserves_try_except {A} R `{!Transitive R} (m : M A) c h :
  preserves R m -> (forall e, preserves R (h e)) -> preserves R (try_except m c h).
Proof.
  intros Hm Hh w r w'. unfold try_except. destruct (m w) as [[a|e] w1] eqn:Em.
  - intros [= _ <-]. eapply Hm, Em.
  - destruct (c e).
    + intros Hr. etransitivity; [eapply Hm, Em | eapply Hh, Hr].
    + intros [= _ <-]. eapply Hm, Em.
Qed.

Lemma preserves_if {A} R (b : bool) (m1 m2 : M A) :
  preserves R m1 -> preserves R m2 -> preserves R (if b then m1 else m2).
Proof. now destruct b. Qed.

Lemma quiet_next_fault : preserves quiet next_fault.
Proof. intros w r w' [= _ <-]. now destruct w. Qed.

Lemma quiet_open p m : preserves quiet (open p m).
Proof.
  apply preserves_bind; [apply _ | apply quiet_next_fault |].
  intros [|e n]; [|apply preserves_raise, _].
  destruct m; intros w r w'.
  - destruct (files w !! p); intros [= _ <-]; reflexivity.
  - intros [= _ <-]. now destruct w.
Qed.

Lemma quiet_read h : preserves quiet (read h).
Proof.
  apply preserves_bind; [apply _ | apply quiet_next_fault |].
  intros [|e n]; [|apply preserves_raise, _].
  intros w r w' [= _ <-]. reflexivity.
Qed.

Lemma quiet_write h d : preserves quiet (write h d).
Proof.
  apply preserves_bind; [apply _ | apply quiet_next_fault |].
  intros [|e n]; intros w r w' [= _ <-]; now destruct w.
Qed.

Lemma quiet_close h : preserves quiet (close h).
Proof.
  apply preserves_bind; [apply _ | apply quiet_next_fault |].
  intros [|e n]; [apply preserves_ret, _ | apply preserves_raise, _].
Qed.

Lemma preserves_with_open {A} R `{!Transitive R} p m (body : handle -> M A) :
  preserves R (open p m) -> (forall h, preserves R (close h)) ->
  (forall h, preserves R (body h)) -> preserves R (with_open p m body).
Proof.
  intros Ho Hc Hb. apply preserves_bind; [apply _ | apply Ho |].
  intros h. apply preserves_finally; [apply _ | apply Hb | apply Hc].
Qed.

Lemma same_store_print s : preserves same_store (print s).
Proof. intros w r w' [= _ <-]. now destruct w. Qed.

Lemma same_store_path_exists p : preserves same_store (path_exists p).
Proof. intros w r w' [= _ <-]. reflexivity. Qed.

Section PersistenceProofs.
Context `{Builtins}.

Lemma quiet_copy_file src dst : preserves quiet (copy_file src dst).
Proof.
  apply preserves_with_open; [apply _ | apply quiet_open | apply quiet_close |].
  intros s. apply preserves_with_open; [apply _ | apply quiet_open | apply quiet_close |].
  intros d. apply preserves_bind; [apply _ | apply quiet_read |].
  intros data. apply quiet_write.
Qed.

Lemma copy_file_clean src dst c w :
  src <> dst -> faults w = [] -> files w !! src = Some c ->
  copy_file src dst w = (Ok tt, set_files (<[dst := c]> (files w)) w).
Proof.
  intros Hne Hf Hsrc. unfold copy_file.
  eapply with_open_clean; [eapply open_read_clean; eauto | | ].
  - eapply with_open_clean; [apply open_write_clean; exact Hf | | ].
    + unfold bind. rewrite read_clean by exact Hf.
      rewrite write_clean by exact Hf.
      unfold file_content. simpl.
      rewrite lookup_insert_eq, lookup_insert_ne, Hsrc by congruence. simpl.
      rewrite insert_insert_eq. now destruct w.
    + exact Hf.
  - exact Hf.
Qed.

Lemma raises_only_copy_file src dst : raises_only is_exception (copy_file src dst).
Proof.
  apply raises_only_with_open. intros s. apply raises_only_with_open. intros d.
  apply raises_only_bind; [apply raises_only_read|]. intros data. apply raises_only_write.
Qed.

(** A copy that completes leaves the bytes of [src] in [dst]. *)
Lemma copy_file_ok src dst w w' :
  src <> dst -> copy_file src dst w = (Ok tt, w') ->
  is_Some (files w !! src) /\
  files w' = <[dst := file_content src w]> (files w) /\
  books w' = books w /\ loaded w' = loaded w /\
  stdin w' = stdin w /\ stdout w' = stdout w.
Proof.
  intros Hne Hr.
  apply with_open_ok_inv in Hr as (w1 & w2 & Ho1 & Hr & ->).
  apply open_read_ok in Ho1 as (_ & Hsrc & ->).
  apply with_open_ok_inv in Hr as (w3 & w4 & Ho2 & Hr & ->).
  apply open_write_ok in Ho2 as (_ & ->).
  apply bind_ok_inv in Hr as (data & w5 & Hrd & Hw).
  apply read_ok in Hrd as (-> & ->). apply write_ok in Hw as ->.
  split; [exact Hsrc|]. destruct w as [bs ld fs i o fl]. simpl.
  repeat split. unfold file_content. simpl.
  rewrite lookup_insert_eq, lookup_insert_ne by congruence. simpl.
  now rewrite insert_insert_eq.
Qed.

(** ** save_library *)

Lemma filename_neq : filename <> backup_filename.
Proof. discriminate. Qed.

Lemma raises_only_write_primary : raises_only is_exception write_primary.
Proof.
  apply raises_only_with_open. intros f.
  apply raises_only_bind; [intros w e w'; discriminate|]. intros bs.
  apply raises_only_bind; [apply raises_only_write|]. intros _.
  apply raises_only_print.
Qed.

(** A write of the primary file that completes has put the whole
    serialized library there. *)
Lemma write_primary_ok w w' :
  write_primary w = (Ok tt, w') ->
  files w' = <[filename := json_dumps (books w)]> (files w) /\
  books w' = books w /\ loaded w' = loaded w /\ stdin w' = stdin w /\
  stdout w' = (stdout w ++ [saved_message])%list.
Proof.
  intros Hr. apply with_open_ok_inv in Hr as (w1 & w2 & Ho & Hr & ->).
  apply open_write_ok in Ho as (_ & ->).
  apply bind_ok_inv in Hr as (bs & w3 & [= <- <-] & Hr).
  apply bind_ok_inv in Hr as ([] & w4 & Hw & [= <-]).
  apply write_ok in Hw as ->.
  destruct w as [bs ld fs i o fl]. unfold file_content. simpl.
  rewrite lookup_insert_eq. simpl. now rewrite insert_insert_eq.
Qed.

Lemma write_primary_clean w :
  faults w = [] ->
  write_primary w =
  (Ok tt, shows [saved_message]
            (set_files (<[filename := json_dumps (books w)]> (files w)) w)).
Proof.
  intros Hf. unfold write_primary.
  eapply with_open_clean; [apply open_write_clean; exact Hf | | exact Hf].
  unfold bind, get_books. rewrite write_clean by exact Hf.
  unfold print, file_content. simpl. rewrite lookup_insert_eq. simpl.
  rewrite insert_insert_eq. now destruct w.
Qed.

Lemma backup_step_absent w :
  files w !! filename = None -> backup_step w = (Ok tt, w).
Proof.
  intros Hn. unfold backup_step, bind, path_exists. rewrite Hn.
  rewrite bool_decide_eq_false_2; [reflexivity | now intros [? ?]].
Qed.

Lemma backup_step_copied w w1 :
  is_Some (files w !! filename) ->
  copy_file filename backup_filename w = (Ok tt, w1) ->
  backup_step w = (Ok tt, w1).
Proof.
  intros He Hc. unfold backup_step, bind, path_exists.
  rewrite bool_decide_eq_true_2 by exact He.
  now apply try_except_ok_run.
Qed.

Lemma backup_step_warned w e w1 :
  is_Some (files w !! filename) ->
  copy_file filename backup_filename w = (Raise e, w1) ->
  backup_step w = (Ok tt, shows [backup_warning e] w1).
Proof.
  intros He Hc. unfold backup_step, bind, path_exists.
  rewrite bool_decide_eq_true_2 by exact He.
  rewrite (try_except_raise_run _ _ _ _ _ _ Hc); [reflexivity|].
  eapply raises_only_copy_file, Hc.
Qed.

Lemma never_raises_backup_step : never_raises backup_step.
Proof.
  apply never_raises_bind; [apply never_raises_path_exists|]. intros [|].
  - apply never_raises_try; [apply raises_only_copy_file|].
    intros e. apply never_raises_print.
  - apply never_raises_ret.
Qed.

Lemma raises_only_save_body : raises_only is_exception save_body.
Proof.
  apply raises_only_bind; [|intros _; apply raises_only_write_primary].
  intros w e w' Hr. destruct (never_raises_backup_step w) as (a & w1 & E). congruence.
Qed.

Lemma never_raises_recover : never_raises recover.
Proof.
  apply never_raises_try; [|intros e; apply never_raises_print].
  apply raises_only_bind; [apply raises_only_copy_file|].
  intros _. apply raises_only_print.
Qed.

Lemma never_raises_save_handler e : never_raises (save_handler e).
Proof.
  apply never_raises_bind; [apply never_raises_print|]. intros _.
  apply never_raises_bind; [apply never_raises_path_exists|]. intros [|].
  - apply never_raises_recover.
  - apply never_raises_ret.
Qed.

(** When the [try] block raises, the handler takes over. *)
Lemma save_raise_run w e w1 :
  save_body w = (Raise e, w1) -> save_library w = save_handler e w1.
Proof.
  intros Hr. unfold save_library. apply try_except_raise_run; [exact Hr|].
  eapply raises_only_save_body, Hr.
Qed.

(** The recovery returns and says one thing. *)
Lemma recover_run w :
  exists w' m, recover w = (Ok tt, w') /\ stdout w' = (stdout w ++ [m])%list.
Proof.
  unfold recover, try_except, bind.
  destruct (copy_file backup_filename filename w) as [[[]|e] w1] eqn:Hc.
  - exists (shows [recovered_message] w1), recovered_message. split; [reflexivity|].
    simpl. now rewrite (proj2 (proj2 (proj2 (quiet_copy_file _ _ _ _ _ Hc)))).
  - rewrite (raises_only_copy_file _ _ _ _ _ Hc).
    exists (shows [recovery_error e] w1), (recovery_error e). split; [reflexivity|].
    simpl. now rewrite (proj2 (proj2 (proj2 (quiet_copy_file _ _ _ _ _ Hc)))).
Qed.

Lemma never_raises_save_library : never_raises save_library.
Proof.
  apply never_raises_try; [apply raises_only_save_body | apply never_raises_save_handler].
Qed.

Lemma same_store_copy_file src dst : preserves same_store (copy_file src dst).
Proof. eapply preserves_weaken; [apply quiet_same_store | apply quiet_copy_file]. Qed.

Lemma same_store_save_library : preserves same_store save_library.
Proof.
  apply preserves_try_except; [apply _ | |].
  - apply preserves_bind; [apply _ | |].
    + apply preserves_bind; [apply _ | apply same_store_path_exists |].
      intros b. apply preserves_if; [|apply preserves_ret, _].
      apply preserves_try_except; [apply _ | apply same_store_copy_file |].
      intros e. apply same_store_print.
    + intros _. apply preserves_with_open; [apply _ | | |].
      * eapply preserves_weaken; [apply quiet_same_store | apply quiet_open].
      * intros h. eapply preserves_weaken; [apply quiet_same_store | apply quiet_close].
      * intros h. apply preserves_bind; [apply _ | |].
        -- intros w r w' [= _ <-]. reflexivity.
        -- intros bs. apply preserves_bind; [apply _ | |].
           ++ eapply preserves_weaken; [apply quiet_same_store | apply quiet_write].
           ++ intros _. apply same_store_print.
  - intros e. apply preserves_bind; [apply _ | apply same_store_print |].
    intros _. apply preserves_bind; [apply _ | apply same_store_path_exists |].
    intros b. apply preserves_if; [|apply preserves_ret, _].
    apply preserves_try_except; [apply _ | |].
    + apply preserves_bind; [apply _ | apply same_store_copy_file |].
      intros _. apply same_store_print.
    + intros e2. apply same_store_print.
Qed.

(** The whole of a save that meets no failure. *)
Lemma save_library_clean w :
  faults w = [] ->
  save_library w =
  (Ok tt,
   shows [saved_message]
     (set_files
        (<[filename := json_dumps (books w)]>
           (match files w !! filename with
            | Some c => <[backup_filename := c]> (files w)
            | None => files w
            end)) w)).
Proof.
  intros Hf. unfold save_library. apply try_except_ok_run.
  unfold save_body. destruct (files w !! filename) as [c|] eqn:Hp.
  - erewrite bind_ok_run.
    2:{ apply backup_step_copied; [now rewrite Hp|].
        apply (copy_file_clean filename backup_filename c); [discriminate | exact Hf | exact Hp]. }
    rewrite write_primary_clean by exact Hf. now destruct w.
  - erewrite bind_ok_run by (apply backup_step_absent; exact Hp).
    now apply write_primary_clean.
Qed.

(** ** load_library *)

Lemma json_load_clean p c w :
  faults w = [] -> files w !! p = Some c ->
  json_load p w = match json_loads c with
                  | inl v => (Ok v, w)
                  | inr msg => (Raise (JSONDecodeError msg), w)
                  end.
Proof.
  intros Hf Hp. unfold json_load, bind. rewrite read_clean by exact Hf.
  unfold file_content. rewrite Hp. simpl. now destruct (json_loads c).
Qed.

Lemma load_primary_clean c w :
  faults w = [] -> files w !! filename = Some c ->
  exists w', load_primary w = (Ok tt, w') /\ attempted c w w'.
Proof.
  intros Hf Hp. unfold load_primary, try_except, attempted, adoptable.
  pose proof (json_load_clean filename c w Hf Hp) as Hj.
  destruct (json_loads c) as [v|msg].
  - destruct v;
      (erewrite with_open_clean;
       [ | eapply open_read_clean; eauto | unfold bind; rewrite Hj; reflexivity | exact Hf ]);
      eexists; (split; [reflexivity|]); now destruct w.
  - erewrite with_open_clean;
      [ | eapply open_read_clean; eauto | unfold bind; rewrite Hj; reflexivity | exact Hf ].
    eexists; (split; [reflexivity|]); now destruct w.
Qed.

Lemma load_backup_clean c w :
  faults w = [] -> files w !! backup_filename = Some c ->
  exists w', load_backup w = (Ok tt, w') /\ attempted c w w'.
Proof.
  intros Hf Hp. unfold load_backup, try_except, attempted, adoptable.
  pose proof (json_load_clean backup_filename c w Hf Hp) as Hj.
  destruct (json_loads c) as [v|msg].
  - destruct v;
      (erewrite with_open_clean;
       [ | eapply open_read_clean; eauto | unfold bind; rewrite Hj; reflexivity | exact Hf ]);
      eexists; (split; [reflexivity|]); now destruct w.
  - erewrite with_open_clean;
      [ | eapply open_read_clean; eauto | unfold bind; rewrite Hj; reflexivity | exact Hf ].
    eexists; (split; [reflexivity|]); now destruct w.
Qed.

(** A load that meets no failure returns, and the library is the one
    the two-step rule of the specification picks. *)
Lemma load_library_clean w :
  faults w = [] ->
  exists w', load_library w = (Ok tt, w') /\
             books w' = load_spec (files w) /\
             files w' = files w /\ stdin w' = stdin w /\ faults w' = [].
Proof.
  intros Hf. unfold load_library, load_spec.
  set (w0 := set_loaded false w).
  assert (Hf0 : faults w0 = []) by exact Hf.
  unfold bind at 1. unfold put_loaded. fold w0.
  unfold bind at 1. unfold path_exists at 1.
  change (files w0) with (files w).
  assert (exists w1, (if bool_decide (is_Some (files w !! filename))
                      then load_primary else ret tt) w0 = (Ok tt, w1) /\
            files w1 = files w /\ stdin w1 = stdin w /\ faults w1 = [] /\
            match adoptable (files w !! filename) with
            | Some l => books w1 = l /\ loaded w1 = true
            | None => loaded w1 = false
            end) as (w1 & E1 & Hfs1 & Hin1 & Hf1 & Hres1).
  { destruct (files w !! filename) as [c|] eqn:Hp.
    - rewrite bool_decide_eq_true_2 by eauto.
      destruct (load_primary_clean c w0 Hf0 Hp) as (w1 & E & Ha).
      exists w1. split; [exact E|]. destruct Ha as (? & ? & ? & Ha).
      repeat split; try assumption.
      destruct (adoptable (Some c)); [exact Ha | tauto].
    - rewrite bool_decide_eq_false_2 by (now intros [? ?]).
      exists w0. simpl. repeat split; auto. }
  unfold bind at 1. rewrite E1.
  unfold bind at 1. unfold get_loaded at 1.
  unfold bind at 1. unfold path_exists at 1. rewrite Hfs1.
  destruct (adoptable (files w !! filename)) as [l|] eqn:Ha.
  - destruct Hres1 as [Hb Hl]. rewrite Hl. simpl.
    unfold bind, ret, get_loaded. rewrite Hl. simpl. eauto 10.
  - rewrite Hres1. simpl.
    destruct (files w !! backup_filename) as [c|] eqn:Hpb.
    + rewrite bool_decide_eq_true_2 by eauto.
      assert (Hpb1 : files w1 !! backup_filename = Some c) by now rewrite Hfs1.
      destruct (load_backup_clean c w1 Hf1 Hpb1) as (w2 & E2 & Hfs2 & Hin2 & Hf2 & Hres2).
      unfold bind at 1. rewrite E2. unfold bind, get_loaded.
      destruct (adoptable (Some c)) as [l|].
      * destruct Hres2 as [Hb Hl]. rewrite Hl. simpl. unfold ret.
        exists w2. repeat split; congruence.
      * destruct Hres2 as [Hb Hl]. rewrite Hl, Hres1. simpl.
        eexists. split; [reflexivity|]. simpl. repeat split; congruence.
    + rewrite bool_decide_eq_false_2 by (now intros [? ?]).
      unfold bind, ret, get_loaded. rewrite Hres1. simpl.
      eexists. split; [reflexivity|]. simpl. repeat split; congruence.
Qed.

Lemma same_store_backup_step : preserves same_store backup_step.
Proof.
  apply preserves_bind; [apply _ | apply same_store_path_exists |].
  intros b. apply preserves_if; [|apply preserves_ret, _].
  apply preserves_try_except; [apply _ | apply same_store_copy_file |].
  intros e. apply same_store_print.
Qed.

Lemma save_body_ok_inv w w' :
  save_body w = (Ok tt, w') ->
  exists w0, backup_step w = (Ok tt, w0) /\ write_primary w0 = (Ok tt, w').
Proof. intros Hr. apply bind_ok_inv in Hr as ([] & w0 & ? & ?). eauto. Qed.

(** After a save whose [try] block ran to its end the primary file holds
    the serialized library. *)
Lemma save_body_ok w w' :
  save_body w = (Ok tt, w') ->
  files w' !! filename = Some (json_dumps (books w)) /\ books w' = books w.
Proof.
  intros Hr. apply save_body_ok_inv in Hr as (w0 & Hb & Hw).
  apply same_store_backup_step in Hb as [Hbk _].
  apply write_primary_ok in Hw as (Hfs & Hbs & _).
  rewrite Hfs, lookup_insert_eq, Hbs, Hbk. auto.
Qed.

(** Claim C1, as the code keeps it.  After save(L1) and then save(L2),
    where both saves succeed and the copy of the primary file to the
    backup file made by the second save completes, the backup file is
    the serialized form of L1 and the primary file that of L2.  (The
    copy is best-effort: when it fails the save goes on, and the backup
    file is then not refreshed.) *)
Theorem backup_invariant L1 L2 w w1 wc w2 :
  books w = L1 ->
  save_body w = (Ok tt, w1) ->
  copy_file filename backup_filename (set_books L2 w1) = (Ok tt, wc) ->
  save_body (set_books L2 w1) = (Ok tt, w2) ->
  save_library w = (Ok tt, w1) /\
  save_library (set_books L2 w1) = (Ok tt, w2) /\
  files w2 !! backup_filename = Some (json_dumps L1) /\
  files w2 !! filename = Some (json_dumps L2).
Proof.
  intros HL1 H1 Hc H2.
  split; [now apply try_except_ok_run|]. split; [now apply try_except_ok_run|].
  apply save_body_ok in H1 as [Hp1 _]. rewrite HL1 in Hp1.
  pose proof (save_body_ok _ _ H2) as [Hp2 _].
  split; [|exact Hp2].
  apply save_body_ok_inv in H2 as (w0 & Hb & Hw).
  pose proof (copy_file_ok _ _ _ _ filename_neq Hc) as (Hex & Hfs & _).
  assert (w0 = wc) as -> by (rewrite (backup_step_copied _ _ Hex Hc) in Hb; congruence).
  apply write_primary_ok in Hw as (Hfs2 & _).
  rewrite Hfs2, lookup_insert_ne, Hfs, lookup_insert_eq by discriminate.
  unfold file_content. simpl. now rewrite Hp1.
Qed.

(** Claim C4.  [save] returns in every world, whatever the file system
    does.  When the copy of the primary file to the backup file fails,
    the only trace is a warning and the primary file is written next;
    with no further failure it holds the serialized library:
    [save_library] never raises. *)
Theorem save_never_raises :
  (forall w, exists w', save_library w = (Ok tt, w')) /\
  (forall w e w1,
     is_Some (files w !! filename) ->
     copy_file filename backup_filename w = (Raise e, w1) ->
     let warned := shows [backup_warning e] w1 in
     stdout w1 = stdout w /\
     save_body w = write_primary warned /\
     (faults w1 = [] ->
      exists w', save_library w = (Ok tt, w') /\
                 files w' !! filename = Some (json_dumps (books w)) /\
                 stdout w' = (stdout w ++ [backup_warning e; saved_message])%list)) /\
  (forall w e w1,
     save_body w = (Raise e, w1) ->
     exists w' more,
       save_library w = (Ok tt, w') /\
       stdout w' = (stdout w1 ++ save_error e :: more)%list).
Proof.
  split; [|split].
  - intros w. destruct (never_raises_save_library w) as ([] & w' & E). eauto.
  - intros w e w1 Hex Hc warned.
    pose proof (quiet_copy_file _ _ _ _ _ Hc) as (Hbk & _ & _ & Hout).
    assert (Hbody : save_body w = write_primary warned).
    { unfold save_body. now rewrite (bind_ok_run _ _ _ _ _ (backup_step_warned _ _ _ Hex Hc)). }
    split; [exact Hout|]. split; [exact Hbody|]. intros Hf.
    assert (Hfw : faults warned = []) by exact Hf.
    eexists. split.
    + unfold save_library. apply try_except_ok_run.
      rewrite Hbody. apply write_primary_clean, Hfw.
    + simpl. rewrite lookup_insert_eq, Hbk, Hout, <- app_assoc. auto.
  - intros w e w1 Hr. rewrite (save_raise_run _ _ _ Hr).
    unfold save_handler, bind, print, path_exists.
    destruct (bool_decide (is_Some (files (shows [save_error e] w1) !! backup_filename))).
    + destruct (recover_run (shows [save_error e] w1)) as (w' & m & Hrec & Hout).
      exists w', [m]. split; [exact Hrec|]. rewrite Hout. simpl.
      now rewrite <- app_assoc.
    + exists (shows [save_error e] w1), []. split; reflexivity.
Qed.


(** A save and then a fresh start, with no failure of the file system:
    the primary file holds the serialized library, and the library after
    the start is what the two-step rule picks from the files. *)
Lemma save_then_init w :
  faults w = [] ->
  exists w1 w2,
    save_library w = (Ok tt, w1) /\ init w1 = (Ok tt, w2) /\
    files w1 !! filename = Some (json_dumps (books w)) /\
    books w2 = load_spec (files w1).
Proof.
  intros Hf. eexists.
  destruct (load_library_clean
              (set_books [] (shows [saved_message]
                 (set_files
                    (<[filename := json_dumps (books w)]>
                       (match files w !! filename with
                        | Some c => <[backup_filename := c]> (files w)
                        | None => files w
                        end)) w))) Hf) as (w2 & El & Hb & _).
  exists w2. split; [apply save_library_clean, Hf|]. split; [exact El|].
  split; [simpl; apply lookup_insert_eq | exact Hb].
Qed.

(** Claim C2.  Saving a library and then loading it, with no failure of
    the file system, gives back the same records in the same order,
    whenever the JSON decoder inverts the encoder on that library. *)
Theorem save_load_roundtrip L w :
  books w = L -> faults w = [] ->
  json_loads (json_dumps L) = inl (PList L) ->
  exists w1 w2, save_library w = (Ok tt, w1) /\ init w1 = (Ok tt, w2) /\ books w2 = L.
Proof.
  intros HL Hf Hrt.
  destruct (save_then_init w Hf) as (w1 & w2 & Hsave & Hinit & Hfile & Hbooks).
  exists w1, w2. split; [exact Hsave|]. split; [exact Hinit|].
  rewrite Hbooks. unfold load_spec, adoptable.
  rewrite Hfile, HL, Hrt. reflexivity.
Qed.

(** Claim C3.  With no failure of the file system, [load] returns and
    the library is the content of the primary file if it decodes to an
    array, else that of the backup file if it does, else empty.  In
    particular a primary file that is not an array and a backup file
    that is one give the content of the backup. *)
Theorem load_fallback w :
  faults w = [] ->
  exists w', load_library w = (Ok tt, w') /\
    books w' = load_spec (files w) /\
    (forall c cb l,
       files w !! filename = Some c ->
       (forall d, json_loads c <> inl (PList d)) ->
       files w !! backup_filename = Some cb ->
       json_loads cb = inl (PList l) ->
       books w' = l) /\
    (adoptable (files w !! filename) = None ->
     adoptable (files w !! backup_filename) = None -> books w' = []).
Proof.
  intros Hf. destruct (load_library_clean w Hf) as (w' & E & Hb & _).
  exists w'. split; [exact E|]. split; [exact Hb|]. split.
  - intros c cb l Hp Hbad Hpb Hgood. rewrite Hb. unfold load_spec.
    rewrite Hp, Hpb. simpl. rewrite Hgood.
    destruct (json_loads c) as [[]|] eqn:Ej; try reflexivity.
    now destruct (Hbad l0).
  - intros H1 H2. rewrite Hb. unfold load_spec. now rewrite H1, H2.
Qed.

(** Claim C10.  Whatever array the adopted file decodes to becomes the
    library as it is: no element is checked to be a book record. *)
Theorem load_adopts_any_array w c d :
  faults w = [] ->
  json_loads c = inl (PList d) ->
  (files w !! filename = Some c \/
   (adoptable (files w !! filename) = None /\ files w !! backup_filename = Some c)) ->
  exists w', load_library w = (Ok tt, w') /\ books w' = d.
Proof.
  intros Hf Hj Hc. destruct (load_library_clean w Hf) as (w' & E & Hb & _).
  exists w'. split; [exact E|]. rewrite Hb. unfold load_spec.
  destruct Hc as [Hp | [Hn Hp]].
  - rewrite Hp. simpl. now rewrite Hj.
  - rewrite Hn, Hp. simpl. now rewrite Hj.
Qed.

Lemma never_raises_load_library : never_raises load_library.
Proof.
  assert (Hjl : forall f, raises_only is_exception (json_load f)).
  { intros f. apply raises_only_bind; [apply raises_only_read|]. intros data.
    destruct (json_loads data); [apply raises_only_ret | now apply raises_only_raise]. }
  assert (Hput : forall l, raises_only is_exception (put_books l)) by (intros l w e w'; discriminate).
  assert (Hpl : forall b, raises_only is_exception (put_loaded b)) by (intros l w e w'; discriminate).
  assert (Hgb : raises_only is_exception get_books) by (intros w e w'; discriminate).
  assert (Hadopt : forall msg1 msg2 p,
            raises_only is_exception
              (with_open p ModeR (fun f =>
                 let* data := json_load f in
                 match data with
                 | PList l =>
                     let* _ := put_books l in
                     let* _ := put_loaded true in
                     let* _ := print msg1 in
                     let* bs := get_books in
                     print (count_message (length bs))
                 | _ => print msg2
                 end))).
  { intros msg1 msg2 p. apply raises_only_with_open. intros f.
    apply raises_only_bind; [apply Hjl|]. intros data.
    destruct data; try apply raises_only_print.
    repeat (apply raises_only_bind; [first [apply Hput | apply Hpl | apply Hgb | apply raises_only_print]|]; intros ?).
    apply raises_only_print. }
  repeat (apply never_raises_bind; [|intros ?]).
  - intros w. unfold put_loaded. eauto.
  - apply never_raises_path_exists.
  - destruct a0; [|apply never_raises_ret].
    apply never_raises_try; [apply Hadopt|].
    intros e. destruct (is_json_decode_error e); apply never_raises_print.
  - intros w. unfold get_loaded. eauto.
  - apply never_raises_path_exists.
  - destruct (negb a2 && a3); [|apply never_raises_ret].
    apply never_raises_try; [apply Hadopt|]. intros e. apply never_raises_print.
  - intros w. unfold get_loaded. eauto.
  - destruct (negb a5); [|apply never_raises_ret].
    apply never_raises_bind; [intros w; unfold put_books; eauto|].
    intros _. apply never_raises_print.
Qed.

End PersistenceProofs.

(** Spec-level views of a record *)

Lemma prefix_spec t s : String.prefix t s = true <-> exists post, s = t +:+ post.
Proof.
  revert s. induction t as [|c t IH]; intros s; simpl.
  - split; [intros _; now exists s | now destruct s].
  - destruct s as [|d s]; [split; [discriminate | intros [? [=]]]|].
    change (String.prefix (String c t) (String d s))
      with (if ascii_dec c d then String.prefix t s else false).
    destruct (ascii_dec c d) as [->|Hne].
    + rewrite IH. split; intros [post E]; exists post.
      * now rewrite E.
      * change (String d t +:+ post) with (String d (t +:+ post)) in E. congruence.
    + split; [discriminate|]. intros [post E].
      change (String c t +:+ post) with (String c (t +:+ post)) in E. congruence.
Qed.

Lemma str_in_cons t c s :
  str_in t (String c s) = String.prefix t (String c s) || str_in t s.
Proof. reflexivity. Qed.

Lemma str_in_spec t s : str_in t s = true <-> substring_of t s.
Proof.
  split.
  - induction s as [|c s IH].
    + change (str_in t "") with (String.prefix t "" || false).
      rewrite orb_false_r, prefix_spec. intros [post E]. now exists "", post.
    + rewrite str_in_cons, orb_true_iff, prefix_spec.
      intros [[post E] | Hin]; [now exists "", post|].
      destruct (IH Hin) as (pre & post & ->). now exists (String c pre), post.
  - intros (pre & post & ->). induction pre as [|c pre IH].
    + change ("" +:+ t +:+ post) with (t +:+ post).
      assert (Hp : String.prefix t (t +:+ post) = true) by (apply prefix_spec; eauto).
      destruct (t +:+ post) as [|d r].
      * change (str_in t "") with (String.prefix t "" || false). now rewrite Hp.
      * now rewrite str_in_cons, Hp.
    + change (String c pre +:+ t +:+ post) with (String c (pre +:+ t +:+ post)).
      rewrite str_in_cons, IH. apply orb_true_r.
Qed.

Lemma shows_shows a b w : shows b (shows a w) = shows (a ++ b) w.
Proof. destruct w. unfold shows. simpl. now rewrite app_assoc. Qed.

Lemma print_run s w : print s w = (Ok tt, shows [s] w).
Proof. reflexivity. Qed.

Lemma getitem_field b k v w : field k b = Some v -> getitem b k w = (Ok v, w).
Proof. destruct b; simpl; try discriminate. now intros ->. Qed.

Lemma str_field_field k b s : str_field k b = Some s -> field k b = Some (PStr s).
Proof.
  unfold str_field. destruct (field k b) as [[]|]; try discriminate. now intros [= ->].
Qed.

Lemma pop_middle pre b post w :
  books w = (pre ++ b :: post)%list ->
  pop (length pre) w = (Ok b, set_books (pre ++ post) w).
Proof.
  intros Hb. unfold pop. rewrite Hb, list_lookup_middle by reflexivity.
  now rewrite delete_middle.
Qed.

Lemma forallb_Forall {A} (f : A -> bool) (l : list A) :
  forallb f l = true -> Forall (fun x => f x = true) l.
Proof.
  induction l as [|x l IH]; simpl; [constructor|].
  intros [? ?]%andb_prop. constructor; auto.
Qed.

Section RecordStoreProofs.
Context `{Builtins}.

Lemma remove_scan_no_match title i bs w :
  Forall (fun x => has_title x = true /\ title_matches title x = false) bs ->
  remove_scan title i bs w = (Ok tt, shows [not_found_message title] w).
Proof.
  intros Hall. revert i. induction Hall as [|b bs [Ht Hm] _ IH]; intros i.
  - reflexivity.
  - simpl. unfold has_title, title_matches in *.
    destruct (str_field "title" b) as [t|] eqn:Et; [|discriminate].
    rewrite (bind_ok_run _ _ _ _ _ (getitem_field _ _ _ _ (str_field_field _ _ _ Et))).
    simpl. unfold bind at 1, ret at 1. rewrite Hm. apply IH.
Qed.

Lemma remove_scan_first_match title i pre b post t w :
  Forall (fun x => has_title x = true /\ title_matches title x = false) pre ->
  str_field "title" b = Some t -> lower t = lower title ->
  remove_scan title i (pre ++ b :: post) w =
  (let* removed_book := pop (i + length pre) in
   let* _ := save_library in
   let* rt := getitem removed_book "title" in
   print (removed_message (py_str rt))) w.
Proof.
  intros Hall Et Hl. revert i. induction Hall as [|x pre [Ht Hm] _ IH]; intros i.
  - simpl. rewrite (bind_ok_run _ _ _ _ _ (getitem_field _ _ _ _ (str_field_field _ _ _ Et))).
    simpl. unfold bind at 1, ret at 1. rewrite Hl, String.eqb_refl.
    now rewrite Nat.add_0_r.
  - simpl. unfold has_title, title_matches in *.
    destruct (str_field "title" x) as [tx|] eqn:Ex; [|discriminate].
    rewrite (bind_ok_run _ _ _ _ _ (getitem_field _ _ _ _ (str_field_field _ _ _ Ex))).
    simpl. unfold bind at 1, ret at 1. rewrite Hm, IH.
    now rewrite Nat.add_succ_r.
Qed.

(** Claim C6, as the code keeps it.  On a library that is not empty,
    [remove] deletes the first record whose title equals the given one
    up to case, and no other record, then saves; if no title matches,
    the library and the files are as before and not-found is reported.
    On the empty library it reports that the library is empty, without
    asking for a title. *)
Theorem remove_first_match w :
  forallb has_title (books w) = true ->
  (books w = [] -> remove_book w = (Ok tt, shows [empty_message] w)) /\
  (forall line rest,
     books w <> [] -> stdin w = line :: rest ->
     let title := strip line in
     let asked := set_stdin rest (shows [remove_header; remove_prompt] w) in
     (forall pre b post t,
        books w = (pre ++ b :: post)%list ->
        Forall (fun x => title_matches title x = false) pre ->
        str_field "title" b = Some t -> lower t = lower title ->
        exists w1,
          save_library (set_books (pre ++ post) asked) = (Ok tt, w1) /\
          books w1 = (pre ++ post)%list /\
          remove_book w = (Ok tt, shows [removed_message (py_str (PStr t))] w1)) /\
     (Forall (fun x => title_matches title x = false) (books w) ->
      remove_book w = (Ok tt, shows [not_found_message title] asked))).
Proof.
  intros Hwf. split.
  - intros He. unfold remove_book, bind, get_books. now rewrite He.
  - intros line rest Hne Hin title asked.
    assert (Hrun : remove_book w = remove_scan title 0 (books w) asked).
    { unfold remove_book, bind at 1, get_books. destruct (books w) as [|b0 bs0] eqn:Eb; [done|].
      unfold bind, print, input. rewrite shows_shows. simpl.
      change (stdin (shows _ w)) with (stdin w). rewrite Hin. reflexivity. }
    apply forallb_Forall in Hwf. rewrite Forall_forall in Hwf.
    split.
    + intros pre b post t Hb Hpre Et Hl.
      assert (Hpre' : Forall (fun x => has_title x = true /\ title_matches title x = false) pre).
      { rewrite Forall_forall in *. intros x Hx. split; [|auto].
        apply Hwf. rewrite Hb. set_solver. }
      rewrite Hrun, Hb, (remove_scan_first_match _ _ _ _ _ t _ Hpre' Et Hl). simpl.
      assert (Hbooks : books asked = (pre ++ b :: post)%list) by exact Hb.
      rewrite (bind_ok_run _ _ _ _ _ (pop_middle _ _ _ _ Hbooks)).
      destruct (never_raises_save_library (set_books (pre ++ post) asked)) as ([] & w1 & Es).
      exists w1. split; [exact Es|].
      pose proof (same_store_save_library _ _ _ Es) as [Hbk _].
      split; [exact Hbk|].
      rewrite (bind_ok_run _ _ _ _ _ Es).
      rewrite (bind_ok_run _ _ _ _ _ (getitem_field _ _ _ _ (str_field_field _ _ _ Et))).
      reflexivity.
    + intros Hnone. rewrite Hrun. apply remove_scan_no_match.
      rewrite Forall_forall in *. intros x Hx. split; [|auto].
      apply Hwf, Hx.
Qed.

(** *** search_books *)

Lemma is_book_fields b :
  is_book b = true ->
  exists t a y g r,
    field "title" b = Some (PStr t) /\ field "author" b = Some (PStr a) /\
    field "year" b = Some (PInt y) /\ field "genre" b = Some (PStr g) /\
    field "read" b = Some (PBool r).
Proof.
  unfold is_book.
  destruct (field "title" b) as [[]|]; try discriminate.
  destruct (field "author" b) as [[]|]; try discriminate.
  destruct (field "year" b) as [[]|]; try discriminate.
  destruct (field "genre" b) as [[]|]; try discriminate.
  destruct (field "read" b) as [[]|]; try discriminate.
  intros _. eauto 10.
Qed.

Lemma search_scan_ok term bs found w :
  forallb is_book bs = true ->
  search_scan term bs found w = (Ok (found ++ List.filter (search_matches term) bs)%list, w).
Proof.
  revert found. induction bs as [|b bs IH]; intros found; simpl.
  - intros _. now rewrite app_nil_r.
  - intros [Hb Hbs]%andb_prop.
    destruct (is_book_fields b Hb) as (t & a & y & g & r & Et & Ea & _).
    unfold search_matches, str_field. rewrite Et, Ea.
    rewrite (bind_ok_run _ _ _ _ _ (getitem_field _ _ _ _ Et)). simpl.
    unfold bind at 1, ret at 1.
    destruct (str_in term (lower t)); simpl.
    + rewrite IH by exact Hbs. now rewrite <- app_assoc.
    + rewrite (bind_ok_run _ _ _ _ _ (getitem_field _ _ _ _ Ea)). simpl.
      unfold bind at 1, ret at 1.
      destruct (str_in term (lower a)); rewrite IH by exact Hbs; [|reflexivity].
      now rewrite <- app_assoc.
Qed.

Lemma display_from_ok i bs w :
  forallb is_book bs = true ->
  display_from i bs w = (Ok tt, shows (display_lines i bs) w).
Proof.
  revert i w. induction bs as [|b bs IH]; intros i w; simpl.
  - intros _. unfold ret, shows. rewrite app_nil_r. now destruct w.
  - intros [Hb Hbs]%andb_prop.
    destruct (is_book_fields b Hb) as (t & a & y & g & r & Et & Ea & Ey & Eg & Er).
    unfold book_lines. rewrite Et, Ea, Ey, Eg, Er.
    rewrite (bind_ok_run _ _ _ _ _ (getitem_field _ _ _ _ Er)).
    rewrite (bind_ok_run _ _ _ _ _ (getitem_field _ _ _ _ Et)).
    rewrite (bind_ok_run _ _ _ _ _ (getitem_field _ _ _ _ Ea)).
    rewrite (bind_ok_run _ _ _ _ _ (getitem_field _ _ _ _ Ey)).
    unfold bind at 1, print at 1.
    rewrite (bind_ok_run _ _ _ _ _ (getitem_field _ _ _ _ Eg)).
    unfold bind at 1, print at 1.
    rewrite IH by exact Hbs. now rewrite !shows_shows.
Qed.

Lemma filter_is_book f (bs : list pyval) :
  forallb is_book bs = true -> forallb is_book (List.filter f bs) = true.
Proof.
  induction bs as [|b bs IH]; simpl; [done|].
  intros [Hb Hbs]%andb_prop. destruct (f b); simpl; [rewrite Hb|]; auto.
Qed.

(** Claim C7.  [search] finds exactly the records whose title or author
    contains the term, up to case, in the order of the library, and
    changes neither the library nor the files. *)
Theorem search_finds_matches w line rest :
  forallb is_book (books w) = true ->
  stdin w = line :: rest ->
  let term := strip line in
  let found := List.filter (search_matches (lower term)) (books w) in
  (forall b,
     search_matches (lower term) b = true <->
     exists t a,
       str_field "title" b = Some t /\ str_field "author" b = Some a /\
       (substring_of (lower term) (lower t) \/ substring_of (lower term) (lower a))) /\
  (forall w0, search_scan (lower term) (books w) [] w0 = (Ok found, w0)) /\
  exists w',
    search_books w = (Ok tt, w') /\
    books w' = books w /\ files w' = files w /\
    (books w <> [] ->
     stdout w' =
     (stdout w ++ [search_header; search_prompt] ++
        match found with
        | [] => [no_match_message (lower term)]
        | _ => found_header :: display_lines 1 found
        end)%list).
Proof.
  intros Hwf Hin term found. split; [|split].
  - intros b. unfold search_matches.
    destruct (str_field "title" b) as [t|]; [|split; [discriminate | intros (?&?&[=]&_)]].
    destruct (str_field "author" b) as [a|]; [|split; [discriminate | intros (?&?&_&[=]&_)]].
    rewrite orb_true_iff, !str_in_spec. split.
    + intros Hm. now exists t, a.
    + intros (t' & a' & [= <-] & [= <-] & Hm). exact Hm.
  - intros w0. now rewrite search_scan_ok.
  - unfold search_books, bind at 1, get_books.
    destruct (books w) as [|b0 bs0] eqn:Eb.
    + eexists. split; [reflexivity|]. simpl. rewrite Eb. now repeat split.
    + unfold bind at 1, print at 1. unfold bind at 1, input.
      change (stdin (shows _ w)) with (stdin w). rewrite Hin.
      rewrite shows_shows. simpl app.
      unfold bind at 1. rewrite search_scan_ok by exact Hwf.
      rewrite app_nil_l. fold term. fold found.
      assert (Hfound : forallb is_book found = true) by now apply filter_is_book.
      destruct found as [|f fs] eqn:Ef.
      * eexists. split; [reflexivity|]. simpl. rewrite Eb.
        repeat split. intros _. now rewrite <- app_assoc.
      * rewrite (bind_ok_run _ _ _ _ _ (print_run _ _)).
        unfold _display_books. rewrite display_from_ok by exact Hfound.
        eexists. split; [reflexivity|]. rewrite !shows_shows. simpl. rewrite Eb.
        repeat split. intros _. now rewrite <- app_assoc.
Qed.

End RecordStoreProofs.

(** Spec-level statistics *)

Lemma genres_incr_lift g T : genres_incr (PStr g) (map lift T) = map lift (incr g T).
Proof.
  induction T as [|[k c] T IH]; simpl; [reflexivity|].
  destruct (String.eqb k g); simpl; [reflexivity | now rewrite IH].
Qed.

Lemma fold_incr_lift gs T :
  fold_left (fun a g => genres_incr (PStr g) a) gs (map lift T) =
  map lift (fold_left (fun a g => incr g a) gs T).
Proof.
  revert T. induction gs as [|g gs IH]; intros T; simpl; [reflexivity|].
  now rewrite genres_incr_lift, IH.
Qed.

Lemma filter_filter_comm {A} (P Q : A -> bool) l :
  List.filter P (List.filter Q l) = List.filter Q (List.filter P l).
Proof.
  induction l as [|x l IH]; simpl; [reflexivity|].
  destruct (P x) eqn:EP, (Q x) eqn:EQ; simpl; rewrite ?EP, ?EQ, IH; reflexivity.
Qed.

Lemma filter_filter_and {A} (P Q : A -> bool) l :
  List.filter P (List.filter Q l) = List.filter (fun x => Q x && P x) l.
Proof.
  induction l as [|x l IH]; simpl; [reflexivity|].
  destruct (Q x) eqn:EQ; simpl; [destruct (P x)|]; now rewrite IH.
Qed.

Lemma filter_absorb {A} (P Q : A -> bool) l :
  (forall x, P x = true -> Q x = true) ->
  List.filter P (List.filter Q l) = List.filter P l.
Proof.
  intros HPQ. induction l as [|x l IH]; simpl; [reflexivity|].
  destruct (Q x) eqn:EQ; simpl.
  - now rewrite IH.
  - destruct (P x) eqn:EP; [|exact IH]. rewrite (HPQ _ EP) in EQ. discriminate.
Qed.

Lemma filter_all {A} (P : A -> bool) l :
  (forall x, P x = true) -> List.filter P l = l.
Proof.
  intros HP. induction l as [|x l IH]; simpl; [reflexivity|]. now rewrite HP, IH.
Qed.

Lemma first_seen_filter P gs :
  first_seen (List.filter P gs) = List.filter P (first_seen gs).
Proof.
  induction gs as [|g gs IH]; simpl; [reflexivity|].
  destruct (P g) eqn:EP; simpl.
  - now rewrite IH, filter_filter_comm.
  - rewrite IH. symmetry. apply filter_absorb.
    intros x Hx. destruct (String.eqb_spec x g) as [->|]; [congruence | reflexivity].
Qed.

Lemma occurrences_filter P g gs :
  P g = true -> occurrences g (List.filter P gs) = occurrences g gs.
Proof.
  intros HP. unfold occurrences. f_equal. apply filter_absorb.
  intros x Hx%String.eqb_eq. now subst.
Qed.

Lemma occurrences_cons g x gs :
  occurrences g (x :: gs) = ((if String.eqb g x then 1 else 0) + occurrences g gs)%nat.
Proof. unfold occurrences. simpl. now destruct (String.eqb g x). Qed.

Lemma known_incr g T x : known (incr g T) x = known T x || String.eqb x g.
Proof.
  unfold known. induction T as [|[k c] T IH]; simpl.
  - now rewrite orb_false_r.
  - destruct (String.eqb_spec k g) as [->|Hne]; simpl.
    + clear IH. destruct (String.eqb x g); simpl; now rewrite ?orb_true_r, ?orb_false_r.
    + rewrite IH. now rewrite orb_assoc.
Qed.

(** Bumping a known key adds one to its count and moves nothing. *)
Lemma incr_known g T (f : string -> nat) :
  NoDup (map fst T) -> known T g = true ->
  map (fun kc => (kc.1, (kc.2 + f kc.1)%nat)) (incr g T) =
  map (fun kc => (kc.1, (kc.2 + ((if String.eqb kc.1 g then 1 else 0) + f kc.1))%nat)) T.
Proof.
  unfold known. induction T as [|[k c] T IH]; simpl; [discriminate|].
  intros Hnd Hk. apply NoDup_cons in Hnd as [Hnk Hnd].
  destruct (String.eqb_spec k g) as [->|Hne]; simpl.
  - rewrite ?String.eqb_refl. f_equal; [f_equal; lia|].
    apply map_ext_in. intros [k' c'] Hin. simpl.
    destruct (String.eqb_spec k' g) as [->|]; [|reflexivity].
    exfalso. apply Hnk. apply list_elem_of_In. apply in_map_iff. now exists (g, c').
  - rewrite ?(proj2 (String.eqb_neq k g) Hne). f_equal.
    apply IH; [exact Hnd|].
    destruct (String.eqb_spec g k) as [->|]; [congruence | exact Hk].
Qed.

Lemma incr_unknown g T : known T g = false -> incr g T = (T ++ [(g, 1%nat)])%list.
Proof.
  unfold known. induction T as [|[k c] T IH]; simpl; [reflexivity|].
  intros [Hk Hr]%orb_false_elim.
  rewrite String.eqb_sym, Hk. now rewrite IH.
Qed.

Lemma known_spec T g : known T g = true <-> g ∈ map fst T.
Proof.
  unfold known. rewrite existsb_exists. split.
  - intros (x & Hin & ->%String.eqb_eq). now apply list_elem_of_In.
  - intros Hin. exists g. split; [now apply list_elem_of_In | apply String.eqb_refl].
Qed.

Lemma keys_incr g T :
  map fst (incr g T) = if known T g then map fst T else (map fst T ++ [g])%list.
Proof.
  destruct (known T g) eqn:Ek.
  - unfold known in Ek. induction T as [|[k c] T IH]; simpl in *; [discriminate|].
    destruct (String.eqb_spec k g) as [->|Hne]; simpl; [reflexivity|].
    rewrite IH; [reflexivity|].
    destruct (String.eqb_spec g k) as [->|]; [congruence | exact Ek].
  - rewrite incr_unknown by exact Ek. now rewrite map_app.
Qed.

Lemma NoDup_incr g T : NoDup (map fst T) -> NoDup (map fst (incr g T)).
Proof.
  intros Hnd. rewrite keys_incr. destruct (known T g) eqn:Ek; [exact Hnd|].
  apply NoDup_app. split; [exact Hnd|]. split; [|apply NoDup_singleton].
  intros x Hx ->%list_elem_of_singleton.
  apply known_spec in Hx. congruence.
Qed.

(** The table after the loop has gone over [gs], from a table [T] with
    distinct keys: the counts of [T] grown by the occurrences in [gs],
    then the new keys in the order they were met. *)
Lemma fold_incr gs T :
  NoDup (map fst T) ->
  fold_left (fun a g => incr g a) gs T =
  (map (fun kc => (kc.1, (kc.2 + occurrences kc.1 gs)%nat)) T ++
   genre_table (List.filter (fun g => negb (known T g)) gs))%list.
Proof.
  revert T. induction gs as [|g gs IH]; intros T Hnd.
  - simpl. unfold genre_table. simpl. rewrite app_nil_r.
    rewrite <- (map_id T) at 1. apply map_ext. intros [k c]. simpl.
    unfold occurrences. simpl. f_equal. lia.
  - simpl fold_left. rewrite IH by now apply NoDup_incr.
    destruct (known T g) eqn:Ek.
    + simpl List.filter. rewrite Ek. simpl negb. cbv iota.
      f_equal.
      * rewrite (incr_known g T (fun k => occurrences k gs) Hnd Ek).
        apply map_ext. intros [k c]. simpl. rewrite occurrences_cons. reflexivity.
      * f_equal. apply filter_ext. intros x. rewrite known_incr.
        destruct (String.eqb_spec x g) as [->|]; [|now rewrite orb_false_r].
        now rewrite Ek.
    + simpl List.filter. rewrite Ek. simpl negb. cbv iota.
      rewrite incr_unknown by exact Ek. rewrite map_app, <- app_assoc. f_equal.
      * apply map_ext_in. intros [k c] Hin. simpl. rewrite occurrences_cons.
        destruct (String.eqb_spec k g) as [->|]; [|reflexivity].
        exfalso. assert (known T g = true); [|congruence].
        apply known_spec, list_elem_of_In, in_map_iff. now exists (g, c).
      * unfold genre_table at 2. simpl first_seen. simpl map.
        rewrite occurrences_cons, String.eqb_refl.
        rewrite (occurrences_filter (fun g0 => negb (known T g0))) by now rewrite Ek.
        set (X := List.filter (fun g0 => negb (known T g0)) gs).
        simpl app. f_equal.
        assert (HY : List.filter (fun g0 => negb (known (T ++ [(g, 1%nat)]) g0)) gs =
                     List.filter (fun x => negb (String.eqb x g)) X).
        { unfold X. rewrite filter_filter_and. apply filter_ext. intros x.
          rewrite <- incr_unknown by exact Ek. rewrite known_incr.
          now rewrite negb_orb. }
        rewrite HY. unfold genre_table. rewrite first_seen_filter.
        apply map_ext_in. intros k Hin. f_equal.
        apply filter_In in Hin as [_ Hk].
        rewrite occurrences_cons, (occurrences_filter _ _ _ Hk).
        apply negb_true_iff in Hk. now rewrite Hk.
Qed.

Lemma fold_genres_incr gs :
  fold_left (fun a g => genres_incr (PStr g) a) gs [] = map lift (genre_table gs).
Proof.
  change (@nil (pyval * nat)) with (map lift []).
  rewrite fold_incr_lift, fold_incr by constructor.
  simpl. f_equal. f_equal. now apply filter_all.
Qed.

Section StatisticsProofs.
Context `{Builtins}.

Lemma read_count_cons b bs :
  read_count (b :: bs) = if is_read b then S (read_count bs) else read_count bs.
Proof. unfold read_count. simpl. now destruct (is_read b). Qed.

Lemma count_read_ok bs w :
  forallb is_book bs = true -> count_read bs w = (Ok (read_count bs), w).
Proof.
  induction bs as [|b bs IH]; simpl; [reflexivity|].
  intros [Hb Hbs]%andb_prop.
  destruct (is_book_fields b Hb) as (t & a & y & g & r & _ & _ & _ & _ & Er).
  rewrite (bind_ok_run _ _ _ _ _ (getitem_field _ _ _ _ Er)).
  rewrite (bind_ok_run _ _ _ _ _ (IH Hbs)).
  rewrite read_count_cons. unfold is_read. rewrite Er. now destruct r.
Qed.

Lemma count_genres_ok bs acc w :
  forallb is_book bs = true ->
  count_genres bs acc w =
  (Ok (fold_left (fun a g => genres_incr (PStr g) a) (genres bs) acc), w).
Proof.
  revert acc. induction bs as [|b bs IH]; intros acc; simpl; [reflexivity|].
  intros [Hb Hbs]%andb_prop.
  destruct (is_book_fields b Hb) as (t & a & y & g & r & _ & _ & _ & Eg & _).
  rewrite (bind_ok_run _ _ _ _ _ (getitem_field _ _ _ _ Eg)). simpl.
  rewrite IH by exact Hbs. unfold genres. simpl. unfold str_field at 2. now rewrite Eg.
Qed.

Lemma print_genres_ok T w :
  print_genres T w = (Ok tt, shows (map (fun gc => genre_line gc.1 gc.2) T) w).
Proof.
  revert w. induction T as [|[g c] T IH]; intros w; simpl.
  - unfold ret, shows. rewrite app_nil_r. now destruct w.
  - rewrite (bind_ok_run _ _ _ _ _ (print_run _ _)), IH. now rewrite shows_shows.
Qed.

(** Claim C8, as the code keeps it.  On a library that is not empty,
    [statistics] reports the number of records, the number of records
    read, the percentage read, and the count of each distinct genre in
    first-seen order.  On the empty library it reports only that the
    library is empty.  The percentage of a total of 0 is 0. *)
Theorem statistics_report w :
  forallb is_book (books w) = true ->
  (books w = [] -> display_statistics w = (Ok tt, shows [empty_message] w)) /\
  (books w <> [] ->
   display_statistics w = (Ok tt, shows (stats_lines (books w)) w)) /\
  (forall read_books, percentage_read read_books 0 = 0%float).
Proof.
  intros Hwf. split; [|split].
  - intros He. unfold display_statistics, bind, get_books. now rewrite He.
  - intros Hne. unfold display_statistics, bind at 1, get_books.
    destruct (books w) as [|b0 bs0] eqn:Eb; [done|]. clear Hne.
    rewrite (bind_ok_run _ _ _ _ _ (count_read_ok _ _ Hwf)).
    rewrite !(bind_ok_run _ _ _ _ _ (print_run _ _)).
    rewrite (bind_ok_run _ _ _ _ _ (count_genres_ok _ _ _ Hwf)).
    rewrite (bind_ok_run _ _ _ _ _ (print_run _ _)).
    rewrite print_genres_ok, fold_genres_incr, !shows_shows.
    unfold stats_lines. rewrite map_map. reflexivity.
  - reflexivity.
Qed.

(** *** add_book: the year *)

(** Claim C9.  A year is accepted exactly when it is an integer between
    1800 and 2024, both included: the line is taken and the loop ends.
    Any other line, a number out of range or not a number at all, is
    answered by a message and the loop asks again. *)
Theorem year_validation line rest w :
  let w0 := set_stdin (line :: rest) w in
  let asked := set_stdin rest (shows [year_prompt] w) in
  (forall year, year_in_range year = true <-> (1800 <= year <= 2024)%Z) /\
  year_in_range 1800 = true /\ year_in_range 2024 = true /\
  year_in_range 1799 = false /\ year_in_range 2025 = false /\
  match py_int line with
  | Some year =>
      if year_in_range year then read_year w0 = (Ok year, asked)
      else read_year w0 = read_year (shows [year_range_message] asked)
  | None => read_year w0 = read_year (shows [year_number_message] asked)
  end.
Proof.
  intros w0 asked.
  split; [intros year; unfold year_in_range; lia|].
  repeat (split; [reflexivity|]).
  assert (Hturn : year_turn w0 =
                  match py_int line with
                  | Some year =>
                      if year_in_range year then (Ok (Some year), asked)
                      else (Ok None, shows [year_range_message] asked)
                  | None => (Ok None, shows [year_number_message] asked)
                  end).
  { unfold year_turn, try_except, bind, input. simpl.
    destruct (py_int line) as [year|]; [|reflexivity].
    now destruct (year_in_range year). }
  assert (Hloop : read_year w0 =
                  (let* r := year_turn in
                   match r with
                   | Some year => ret year
                   | None => read_year_from rest
                   end) w0) by reflexivity.
  destruct (py_int line) as [year|]; [destruct (year_in_range year)|];
    rewrite Hloop; unfold bind; rewrite Hturn; reflexivity.
Qed.

End StatisticsProofs.

(** * The reference decoder inverts the reference encoder *)

Module Decoding.
Import Reference.
Local Open Scope nat_scope.

Lemma append_cons x (a b : string) : String x a +:+ b = String x (a +:+ b).
Proof. reflexivity. Qed.

Lemma append_nil_l (b : string) : "" +:+ b = b.
Proof. reflexivity. Qed.

Lemma append_assoc (a b c : string) : (a +:+ b) +:+ c = a +:+ b +:+ c.
Proof.
  induction a as [|x a IH]; [reflexivity|]. now rewrite !append_cons, IH.
Qed.

Lemma append_nil_r (a : string) : a +:+ "" = a.
Proof. induction a as [|x a IH]; [reflexivity|]. now rewrite append_cons, IH. Qed.

Lemma length_append (a b : string) :
  String.length (a +:+ b) = (String.length a + String.length b)%nat.
Proof.
  induction a as [|x a IH]; [reflexivity|]. rewrite append_cons. simpl. now rewrite IH.
Qed.

Lemma skip_ws_pad n s : skip_ws (pad n +:+ s) = skip_ws s.
Proof.
  induction n as [|n IH]; [reflexivity|].
  change (pad (S n)) with ("    " +:+ pad n). rewrite append_assoc. exact IH.
Qed.

Lemma string_body_escape s rest :
  string_body (escape s +:+ dq +:+ rest) = Some (s, rest).
Proof.
  induction s as [|c s IH]; [reflexivity|].
  change (escape (String c s)) with (escape_char c +:+ escape s).
  rewrite append_assoc.
  destruct c as [[] [] [] [] [] [] [] []];
    match goal with
    | |- context [escape_char ?C] =>
        let e := eval vm_compute in (escape_char C) in
        change (escape_char C) with e
    end;
    rewrite ?append_cons, ?append_nil_l; cbn; rewrite IH; reflexivity.
Qed.

(** ** Integers *)

Lemma digit_of_pretty d :
  (d < 10)%N -> digit_of (pretty_N_char d) = Some (Z.of_N d).
Proof.
  intros Hd.
  assert (d = 0 \/ d = 1 \/ d = 2 \/ d = 3 \/ d = 4 \/ d = 5 \/ d = 6 \/ d = 7 \/
          d = 8 \/ d = 9)%N as H by lia.
  repeat destruct H as [-> | H]; try subst d; reflexivity.
Qed.

Lemma pretty_N_go_append x s r : pretty_N_go x s +:+ r = pretty_N_go x (s +:+ r).
Proof.
  revert s. induction (N.lt_wf_0 x) as [x _ IH]; intros s.
  destruct (N.eq_dec x 0%N) as [->|Hx]; [now rewrite !pretty_N_go_0|].
  rewrite (pretty_N_go_step x s), (pretty_N_go_step x (s +:+ r)) by lia.
  rewrite IH by (apply N.div_lt; lia). reflexivity.
Qed.

Lemma digits_cons acc c s d :
  digit_of c = Some d -> digits acc (String c s) = digits (acc * 10 + d) s.
Proof. intros Hd. simpl. now rewrite Hd. Qed.

Lemma digits_pretty_go x s :
  exists k : Z, (0 <= k)%Z /\
    forall acc, digits acc (pretty_N_go x s) = digits (acc * 10 ^ k + Z.of_N x) s.
Proof.
  revert s. induction (N.lt_wf_0 x) as [x _ IH]; intros s.
  destruct (N.eq_dec x 0%N) as [->|Hx].
  - exists 0%Z. split; [lia|]. intros acc. rewrite pretty_N_go_0. f_equal. lia.
  - rewrite pretty_N_go_step by lia.
    destruct (IH (N.div x 10) ltac:(apply N.div_lt; lia)
                (String (pretty_N_char (N.modulo x 10)) s)) as (k & Hk & Hd).
    exists (k + 1)%Z. split; [lia|]. intros acc. rewrite Hd.
    rewrite (digits_cons _ _ _ _ (digit_of_pretty _ ltac:(apply N.mod_lt; lia))).
    f_equal. rewrite Z.pow_add_r by lia.
    rewrite (N.div_mod x 10) at 3 by lia. lia.
Qed.

Lemma digits_delimited z s : delimited s = true -> digits z s = (z, s).
Proof.
  destruct s as [|c s]; [reflexivity|]. simpl.
  destruct c as [[] [] [] [] [] [] [] []]; try discriminate; reflexivity.
Qed.

Lemma starts_fraction_delimited s : delimited s = true -> starts_fraction s = false.
Proof.
  destruct s as [|c s]; [reflexivity|]. simpl.
  destruct c as [[] [] [] [] [] [] [] []]; try discriminate; reflexivity.
Qed.

(** The first character of a positive number is a digit other than 0. *)
Lemma pretty_N_go_head x s :
  (0 < x)%N ->
  exists d r, pretty_N_go x s = String (pretty_N_char d) r /\ (0 < d < 10)%N.
Proof.
  revert s. induction (N.lt_wf_0 x) as [x _ IH]; intros s Hx.
  rewrite pretty_N_go_step by exact Hx.
  destruct (N.eq_dec (N.div x 10) 0%N) as [E|E].
  - rewrite E, pretty_N_go_0. exists (N.modulo x 10). eexists. split; [reflexivity|].
    assert (N.modulo x 10 < 10)%N by (apply N.mod_lt; lia).
    assert (x = N.modulo x 10) by (rewrite (N.div_mod x 10) at 1 by lia; lia). lia.
  - apply IH; [apply N.div_lt; lia | now apply N.neq_0_lt_0].
Qed.

Lemma natural_digit d r :
  (0 < d < 10)%N ->
  natural (String (pretty_N_char d) r) =
  let '(z, rest) := digits 0 (String (pretty_N_char d) r) in
  if starts_fraction rest then None else Some (z, rest).
Proof.
  intros Hd.
  assert (d = 1 \/ d = 2 \/ d = 3 \/ d = 4 \/ d = 5 \/ d = 6 \/ d = 7 \/
          d = 8 \/ d = 9)%N as H by lia.
  repeat destruct H as [-> | H]; try subst d; reflexivity.
Qed.

Lemma natural_pretty (x : N) rest :
  delimited rest = true -> natural (pretty x +:+ rest) = Some (Z.of_N x, rest).
Proof.
  intros Hr. unfold pretty, pretty_N. destruct (decide (x = 0%N)) as [->|Hx].
  - change (natural (String "0"%char rest) = Some (0%Z, rest)).
    unfold natural. now rewrite starts_fraction_delimited.
  - rewrite pretty_N_go_append, append_nil_l.
    destruct (pretty_N_go_head x rest ltac:(lia)) as (d & r & E & Hd).
    destruct (digits_pretty_go x rest) as (k & _ & Hdig).
    rewrite E, natural_digit by exact Hd. rewrite <- E, Hdig.
    rewrite digits_delimited by exact Hr. simpl.
    now rewrite starts_fraction_delimited.
Qed.

(** ** Values *)

Lemma skip_ws_starts_value s : starts_value s = true -> skip_ws s = s.
Proof.
  destruct s as [|c s]; [discriminate|]. simpl.
  destruct (is_json_ws c); [discriminate | reflexivity].
Qed.

Lemma value_null n rest : value (S n) ("null" +:+ rest) = Some (PNone, rest).
Proof. rewrite !append_cons, append_nil_l. reflexivity. Qed.

Lemma value_true n rest : value (S n) ("true" +:+ rest) = Some (PBool true, rest).
Proof. rewrite !append_cons, append_nil_l. reflexivity. Qed.

Lemma value_false n rest : value (S n) ("false" +:+ rest) = Some (PBool false, rest).
Proof. rewrite !append_cons, append_nil_l. reflexivity. Qed.

Lemma value_string n s rest : value (S n) (quoted s +:+ rest) = Some (PStr s, rest).
Proof.
  unfold quoted. rewrite !append_assoc.
  change (value (S n) (dq +:+ escape s +:+ dq +:+ rest))
    with (match string_body (escape s +:+ dq +:+ rest) with
          | Some (t, r) => Some (PStr t, r)
          | None => None
          end).
  now rewrite string_body_escape.
Qed.

Lemma value_digit n d r :
  (d < 10)%N ->
  value (S n) (String (pretty_N_char d) r) =
  match natural (String (pretty_N_char d) r) with
  | Some (z, rest) => Some (PInt z, rest)
  | None => None
  end.
Proof.
  intros Hd.
  assert (d = 0 \/ d = 1 \/ d = 2 \/ d = 3 \/ d = 4 \/ d = 5 \/ d = 6 \/ d = 7 \/
          d = 8 \/ d = 9)%N as H by lia.
  repeat destruct H as [-> | H]; try subst d; reflexivity.
Qed.

Lemma value_natural n (x : N) rest :
  delimited rest = true -> value (S n) (pretty x +:+ rest) = Some (PInt (Z.of_N x), rest).
Proof.
  intros Hr. pose proof (natural_pretty x rest Hr) as Hn.
  assert (exists d r, pretty x +:+ rest = String (pretty_N_char d) r /\ (d < 10)%N)
    as (d & r & E & Hd).
  { unfold pretty, pretty_N. destruct (decide (x = 0%N)) as [->|Hx].
    - exists 0%N, rest. split; [reflexivity | lia].
    - rewrite pretty_N_go_append, append_nil_l.
      destruct (pretty_N_go_head x rest ltac:(lia)) as (d & r & E & Hd).
      exists d, r. split; [exact E | lia]. }
  rewrite E in *. rewrite value_digit by exact Hd. now rewrite Hn.
Qed.

Lemma value_int n z rest :
  delimited rest = true -> value (S n) (pretty z +:+ rest) = Some (PInt z, rest).
Proof.
  intros Hr. destruct z as [|p|p].
  - apply (value_natural n 0%N rest Hr).
  - apply (value_natural n (Npos p) rest Hr).
  - change (pretty (Z.neg p)) with ("-" +:+ pretty (Npos p)).
    rewrite append_assoc.
    change (value (S n) ("-" +:+ pretty (N.pos p) +:+ rest))
      with (match natural (pretty (N.pos p) +:+ rest) with
            | Some (z, r) => Some (PInt (- z), r)
            | None => None
            end).
    now rewrite (natural_pretty (Npos p) rest Hr).
Qed.

(** ** Containers *)

Lemma skip_ws_nl s : skip_ws (nl +:+ s) = skip_ws s.
Proof. reflexivity. Qed.

Lemma skip_ws_indent n s :
  starts_value s = true -> skip_ws (nl +:+ pad n +:+ s) = s.
Proof. intros Hs. now rewrite skip_ws_nl, skip_ws_pad, skip_ws_starts_value. Qed.

Lemma value_open_list n r :
  starts_value (skip_ws r) = true ->
  value (S n) ("[" +:+ r) =
  match elements n (skip_ws r) with
  | Some (l, rest) => Some (PList l, rest)
  | None => None
  end.
Proof.
  intros Hs. rewrite append_cons, append_nil_l.
  change (value (S n) (String "[" r))
    with (match skip_ws r with
          | String "]" r' => Some (PList [], r')
          | r' => match elements n r' with
                  | Some (l, rest) => Some (PList l, rest)
                  | None => None
                  end
          end).
  destruct (skip_ws r) as [|c s]; [discriminate|].
  destruct c as [[] [] [] [] [] [] [] []]; try discriminate; reflexivity.
Qed.

Lemma value_open_dict n r :
  starts_value (skip_ws r) = true ->
  value (S n) ("{" +:+ r) =
  match members n (skip_ws r) [] with
  | Some (kv, rest) => Some (PDict kv, rest)
  | None => None
  end.
Proof.
  intros Hs. rewrite append_cons, append_nil_l.
  change (value (S n) (String "{" r))
    with (match skip_ws r with
          | String "}" r' => Some (PDict [], r')
          | r' => match members n r' [] with
                  | Some (kv, rest) => Some (PDict kv, rest)
                  | None => None
                  end
          end).
  destruct (skip_ws r) as [|c s]; [discriminate|].
  destruct c as [[] [] [] [] [] [] [] []]; try discriminate; reflexivity.
Qed.

Lemma elements_last n s v r r' :
  value n s = Some (v, r) -> skip_ws r = "]" +:+ r' ->
  elements (S n) s = Some ([v], r').
Proof. intros Hv Hr. simpl. rewrite Hv, Hr. reflexivity. Qed.

Lemma elements_more n s v r r' :
  value n s = Some (v, r) -> skip_ws r = "," +:+ r' ->
  elements (S n) s =
  match elements n (skip_ws r') with
  | Some (l, rest) => Some (v :: l, rest)
  | None => None
  end.
Proof. intros Hv Hr. simpl. rewrite Hv, Hr. reflexivity. Qed.

Lemma members_step n k r acc :
  members (S n) (quoted k +:+ ": " +:+ r) acc =
  match value n (skip_ws r) with
  | Some (v, r3) =>
      match skip_ws r3 with
      | String "," r4 => members n (skip_ws r4) (dict_set k v acc)
      | String "}" r4 => Some (dict_set k v acc, r4)
      | _ => None
      end
  | None => None
  end.
Proof.
  unfold quoted. rewrite !append_assoc.
  change (members (S n) (dq +:+ escape k +:+ dq +:+ ": " +:+ r) acc)
    with (match string_body (escape k +:+ dq +:+ ": " +:+ r) with
          | Some (k0, r1) =>
              match skip_ws r1 with
              | String ":" r2 =>
                  match value n (skip_ws r2) with
                  | Some (v, r3) =>
                      match skip_ws r3 with
                      | String "," r4 => members n (skip_ws r4) (dict_set k0 v acc)
                      | String "}" r4 => Some (dict_set k0 v acc, r4)
                      | _ => None
                      end
                  | None => None
                  end
              | _ => None
              end
          | None => None
          end).
  rewrite string_body_escape. reflexivity.
Qed.

Lemma dict_set_fresh k v acc :
  k ∉ map fst acc -> dict_set k v acc = (acc ++ [(k, v)])%list.
Proof.
  induction acc as [|[k' v'] acc IH]; simpl; [reflexivity|].
  intros Hk. apply not_elem_of_cons in Hk as [Hne Hk].
  destruct (String.eqb_spec k' k) as [->|_]; [done|].
  now rewrite IH.
Qed.

Lemma size_pos v : (1 <= size v)%nat.
Proof. destruct v; simpl; lia. Qed.

Lemma starts_value_digit d r :
  (d < 10)%N -> starts_value (String (pretty_N_char d) r) = true.
Proof.
  intros Hd.
  assert (d = 0 \/ d = 1 \/ d = 2 \/ d = 3 \/ d = 4 \/ d = 5 \/ d = 6 \/ d = 7 \/
          d = 8 \/ d = 9)%N as H by lia.
  repeat destruct H as [-> | H]; try subst d; reflexivity.
Qed.

Lemma starts_value_dump v level rest :
  clean v = true -> starts_value (dump level v +:+ rest) = true.
Proof.
  destruct v as [| b | z | f | s | l | kv]; simpl; intros Hc.
  - reflexivity.
  - now destruct b.
  - destruct z as [|p|p]; [reflexivity | | reflexivity].
    change (pretty (Z.pos p)) with (pretty (Npos p)).
    unfold pretty, pretty_N. destruct (decide (N.pos p = 0%N)) as [|_]; [lia|].
    rewrite pretty_N_go_append.
    destruct (pretty_N_go_head (Npos p) ("" +:+ rest) ltac:(lia)) as (d & r & -> & Hd).
    apply starts_value_digit. lia.
  - discriminate.
  - reflexivity.
  - unfold bracket. destruct l; simpl map;
      rewrite ?append_assoc, ?append_cons; reflexivity.
  - unfold bracket. destruct kv; simpl map;
      rewrite ?append_assoc, ?append_cons; reflexivity.
Qed.

Lemma lines_cons level x xs :
  lines level (x :: xs) =
  match xs with
  | [] => x
  | _ => x +:+ "," +:+ nl +:+ pad level +:+ lines level xs
  end.
Proof. now destruct xs. Qed.

Lemma starts_value_lines level l tail :
  l <> [] -> forallb clean l = true ->
  starts_value (lines level (map (dump level) l) +:+ tail) = true.
Proof.
  destruct l as [|x xs]; [done|]. intros _ [Hx _]%andb_prop.
  destruct xs as [|y zs]; rewrite !map_cons, lines_cons; simpl map; cbv iota.
  - now apply starts_value_dump.
  - rewrite append_assoc. now apply starts_value_dump.
Qed.

Lemma starts_value_quoted k tail : starts_value (quoted k +:+ tail) = true.
Proof. unfold quoted. rewrite !append_assoc. reflexivity. Qed.

Lemma starts_value_members level kv tail :
  kv <> [] -> starts_value (lines level (map (member_text level) kv) +:+ tail) = true.
Proof.
  destruct kv as [|[k x] xs]; [done|]. intros _.
  destruct xs as [|y zs]; rewrite !map_cons, lines_cons; simpl map; cbv iota;
    unfold member_text at 1; rewrite !append_assoc; apply starts_value_quoted.
Qed.

(** With fuel [n], the decoder reads back what the encoder wrote: a
    value, the items of a list that is not empty, the members of a
    dictionary that is not empty. *)
Lemma decode_encode n :
  (forall v level rest,
     clean v = true -> delimited rest = true -> (size v <= n)%nat ->
     value n (dump level v +:+ rest) = Some (v, rest)) /\
  (forall l level k rest,
     l <> [] -> forallb clean l = true -> (list_weight l <= n)%nat ->
     elements n (lines level (map (dump level) l) +:+ nl +:+ pad k +:+ "]" +:+ rest)
     = Some (l, rest)) /\
  (forall kv acc level k rest,
     kv <> [] ->
     forallb (fun kx => match kx with (_, x) => clean x end) kv = true ->
     NoDup (map fst (acc ++ kv)) -> (dict_weight kv <= n)%nat ->
     members n (lines level (map (member_text level) kv) +:+ nl +:+ pad k +:+ "}" +:+ rest) acc
     = Some ((acc ++ kv)%list, rest)).
Proof.
  induction n as [|n (IHV & IHE & IHM)].
  { split; [|split].
    - intros v level rest _ _ Hs. pose proof (size_pos v). lia.
    - intros [|x xs] level k rest Hne _ Hs; [done|]. unfold list_weight in Hs. simpl in Hs. lia.
    - intros [|[k0 x] xs] acc level k rest Hne _ _ Hs; [done|].
      unfold dict_weight in Hs. simpl in Hs. lia. }
  assert (Hclose : forall k c rest,
            skip_ws (nl +:+ pad k +:+ c +:+ rest) = skip_ws (c +:+ rest)).
  { intros. now rewrite skip_ws_nl, skip_ws_pad. }
  split; [|split].
  - (* a value *)
    intros v level rest Hc Hr Hs. destruct v as [| b | z | f | s | l | kv].
    + apply value_null.
    + destruct b; [apply value_true | apply value_false].
    + now apply value_int.
    + discriminate.
    + apply value_string.
    + simpl in Hc, Hs. change (dump level (PList l))
        with (bracket "[" "]" level (map (dump (S level)) l)).
      destruct l as [|x xs]; [reflexivity|].
      rewrite map_cons. unfold bracket. cbv iota. rewrite <- map_cons.
      rewrite !append_assoc.
      assert (Hsv : starts_value
                      (lines (S level) (map (dump (S level)) (x :: xs))
                       +:+ nl +:+ pad level +:+ "]" +:+ rest) = true).
      { apply starts_value_lines; [done | exact Hc]. }
      rewrite value_open_list by (now rewrite skip_ws_indent).
      rewrite skip_ws_indent by exact Hsv.
      rewrite IHE; [reflexivity | done | exact Hc |].
      unfold list_weight. lia.
    + simpl in Hc, Hs. apply andb_prop in Hc as [Hnd Hc].
      apply bool_decide_eq_true in Hnd.
      change (dump level (PDict kv))
        with (bracket "{" "}" level (map (member_text (S level)) kv)).
      destruct kv as [|kx xs]; [reflexivity|].
      rewrite map_cons. unfold bracket. cbv iota. rewrite <- map_cons.
      rewrite !append_assoc.
      assert (Hsv : starts_value
                      (lines (S level) (map (member_text (S level)) (kx :: xs))
                       +:+ nl +:+ pad level +:+ "}" +:+ rest) = true).
      { apply starts_value_members. done. }
      rewrite value_open_dict by (now rewrite skip_ws_indent).
      rewrite skip_ws_indent by exact Hsv.
      rewrite (IHM (kx :: xs) []); [reflexivity | done | exact Hc | exact Hnd |].
      unfold dict_weight. lia.
  - (* the items of a list *)
    intros [|x xs] level k rest Hne Hc Hs; [done|].
    apply andb_prop in Hc as [Hx Hxs]. unfold list_weight in Hs. simpl in Hs.
    rewrite map_cons, lines_cons. destruct xs as [|y zs].
    + simpl map. cbv iota.
      eapply elements_last.
      * apply IHV; [exact Hx | reflexivity | lia].
      * rewrite Hclose. reflexivity.
    + rewrite map_cons. cbv iota. rewrite <- map_cons.
      rewrite !append_assoc.
      erewrite elements_more.
      2:{ apply IHV; [exact Hx | reflexivity | lia]. }
      2:{ reflexivity. }
      rewrite skip_ws_indent by (apply starts_value_lines; [done | exact Hxs]).
      rewrite IHE; [reflexivity | done | exact Hxs |].
      unfold list_weight. lia.
  - (* the members of a dictionary *)
    intros [|[k0 x] xs] acc level k rest Hne Hc Hnd Hs; [done|].
    apply andb_prop in Hc as [Hx Hxs]. unfold dict_weight in Hs. simpl in Hs.
    assert (Hfresh : dict_set k0 x acc = (acc ++ [(k0, x)])%list).
    { apply dict_set_fresh. rewrite map_app in Hnd. apply NoDup_app in Hnd as (_ & Hd & _).
      intros Hin. apply (Hd k0 Hin). simpl. left. }
    rewrite map_cons, lines_cons. destruct xs as [|y zs].
    + simpl map. cbv iota. unfold member_text. rewrite !append_assoc.
      rewrite members_step.
      rewrite skip_ws_starts_value by now apply starts_value_dump.
      rewrite IHV; [| exact Hx | reflexivity | lia].
      rewrite Hclose. rewrite Hfresh. reflexivity.
    + rewrite map_cons. cbv iota. rewrite <- map_cons.
      unfold member_text at 1. rewrite !append_assoc.
      rewrite members_step.
      rewrite skip_ws_starts_value by now apply starts_value_dump.
      rewrite IHV; [| exact Hx | reflexivity | lia].
      match goal with
      | |- context [skip_ws ("," +:+ ?r)] =>
          change (skip_ws ("," +:+ r)) with (String ","%char r)
      end.
      cbv iota.
      rewrite skip_ws_indent by (apply starts_value_members; done).
      rewrite Hfresh. rewrite IHM; [| done | exact Hxs | | unfold dict_weight; lia].
      * now rewrite <- app_assoc.
      * now rewrite <- app_assoc.
Qed.

(** ** Enough fuel *)

Lemma length_pad_lines level items :
  (list_sum (map String.length items) + length items
   <= S (String.length (lines level items)))%nat.
Proof.
  induction items as [|x xs IH]; [simpl; lia|].
  rewrite lines_cons. destruct xs as [|y zs].
  - simpl. lia.
  - rewrite !length_append. simpl in *. lia.
Qed.

Lemma length_bracket o c level items :
  items <> [] ->
  (String.length o + String.length c + String.length (lines (S level) items) + 2
   <= String.length (bracket o c level items))%nat.
Proof.
  destruct items as [|x xs]; [done|]. intros _. unfold bracket.
  rewrite !length_append. simpl. lia.
Qed.

Lemma length_pretty_N (x : N) : (1 <= String.length (pretty x))%nat.
Proof.
  unfold pretty, pretty_N. destruct (decide (x = 0%N)) as [->|Hx]; [simpl; lia|].
  destruct (pretty_N_go_head x "" ltac:(lia)) as (d & r & -> & _). simpl. lia.
Qed.

Lemma length_pretty_Z (z : Z) : (1 <= String.length (pretty z))%nat.
Proof.
  destruct z as [|p|p].
  - simpl. lia.
  - apply (length_pretty_N (Npos p)).
  - change (pretty (Z.neg p)) with ("-" +:+ pretty (Npos p)).
    rewrite length_append. simpl. lia.
Qed.

Lemma size_le_length n :
  forall v level, (size v <= n)%nat -> clean v = true ->
                  (size v <= String.length (dump level v))%nat.
Proof.
  induction n as [|n IH]; intros v level Hs Hc.
  { pose proof (size_pos v). lia. }
  destruct v as [| b | z | f | s | l | kv].
  - simpl. lia.
  - destruct b; simpl; lia.
  - simpl. apply length_pretty_Z.
  - discriminate.
  - simpl. unfold quoted. rewrite !length_append. simpl. lia.
  - change (dump level (PList l)) with (bracket "[" "]" level (map (dump (S level)) l)).
    change (size (PList l)) with (S (list_weight l)) in *.
    change (clean (PList l)) with (forallb clean l) in Hc.
    destruct l as [|x xs]; [vm_compute; lia|].
    pose proof (length_bracket "[" "]" level (map (dump (S level)) (x :: xs)) ltac:(done)) as Hb.
    pose proof (length_pad_lines (S level) (map (dump (S level)) (x :: xs))) as Hl.
    rewrite length_map in Hl.
    assert (Hsum : forall l',
               (list_weight l' <= n)%nat -> forallb clean l' = true ->
               (list_weight l'
                <= list_sum (map String.length (map (dump (S level)) l')) + length l')%nat).
    { induction l' as [|y l' IHl]; unfold list_weight in *; simpl; intros Hs' Hc'; [lia|].
      apply andb_prop in Hc' as [Hy Hl'].
      pose proof (IH y (S level) ltac:(lia) Hy). pose proof (IHl ltac:(lia) Hl'). lia. }
    specialize (Hsum (x :: xs) ltac:(lia) Hc).
    change (String.length "[") with 1%nat in Hb.
    change (String.length "]") with 1%nat in Hb. lia.
  - change (dump level (PDict kv))
      with (bracket "{" "}" level (map (member_text (S level)) kv)).
    change (size (PDict kv)) with (S (dict_weight kv)) in *.
    simpl in Hc. apply andb_prop in Hc as [_ Hc].
    destruct kv as [|kx xs]; [vm_compute; lia|].
    pose proof (length_bracket "{" "}" level (map (member_text (S level)) (kx :: xs))
                  ltac:(done)) as Hb.
    pose proof (length_pad_lines (S level) (map (member_text (S level)) (kx :: xs))) as Hl.
    rewrite length_map in Hl.
    assert (Hsum : forall l',
               (dict_weight l' <= n)%nat ->
               forallb (fun kx => match kx with (_, x) => clean x end) l' = true ->
               (dict_weight l'
                <= list_sum (map String.length (map (member_text (S level)) l'))
                   + length l')%nat).
    { induction l' as [|[k y] l' IHl]; unfold dict_weight in *; simpl; intros Hs' Hc'; [lia|].
      apply andb_prop in Hc' as [Hy Hl'].
      pose proof (IH y (S level) ltac:(lia) Hy). pose proof (IHl ltac:(lia) Hl').
      rewrite !length_append. lia. }
    specialize (Hsum (kx :: xs) ltac:(lia) Hc).
    change (String.length "{") with 1%nat in Hb.
    change (String.length "}") with 1%nat in Hb. lia.
Qed.

(** [json.loads(json.dumps(l))] is [l], for every list of clean values. *)
Theorem loads_dumps (l : list pyval) :
  forallb clean l = true -> loads (dumps l) = inl (PList l).
Proof.
  intros Hc. unfold loads, dumps.
  assert (Hcl : clean (PList l) = true) by exact Hc.
  pose proof (starts_value_dump (PList l) 0 "" Hcl) as Hsv.
  rewrite append_nil_r in Hsv. rewrite skip_ws_starts_value by exact Hsv.
  rewrite <- (append_nil_r (dump 0 (PList l))) at 2.
  rewrite (proj1 (decode_encode _) (PList l) 0 "" Hcl eq_refl).
  - reflexivity.
  - pose proof (size_le_length _ (PList l) 0 (Nat.le_refl _) Hcl). lia.
Qed.

End Decoding.

(** ** The round trip on the reference built-ins *)

(** A record as [add_book] builds it is clean. *)
Lemma added_book_clean title author year genre read_status :
  Reference.clean
    (PDict [("title", PStr title); ("author", PStr author); ("year", PInt year);
            ("genre", PStr genre); ("read", PBool read_status)]) = true.
Proof. reflexivity. Qed.

(** With the reference encoder and decoder, every library of clean
    values is read back as it was saved. *)
Lemma save_then_init_reference L w :
  books w = L -> faults w = [] -> forallb Reference.clean L = true ->
  exists w1 w2, save_library w = (Ok tt, w1) /\ init w1 = (Ok tt, w2) /\ books w2 = L.
Proof.
  intros HL Hf Hc.
  destruct (save_then_init w Hf) as (w1 & w2 & Hsave & Hinit & Hfile & Hbooks).
  exists w1, w2. split; [exact Hsave|]. split; [exact Hinit|].
  rewrite Hbooks. unfold load_spec, adoptable. rewrite Hfile, HL.
  change (json_loads (json_dumps L)) with (Reference.loads (Reference.dumps L)).
  now rewrite Decoding.loads_dumps.
Qed.

(** * Beyond the claims: the other methods, and the methods together *)

(** * Footprints of the methods *)

#[local] Instance within_refl f : Reflexive (within f).
Proof. intros w. now repeat split. Qed.

#[local] Instance within_trans f : Transitive (within f).
Proof.
  intros a b c (Hb1 & Hi1 & Hs1 & Hf1 & Hx1) (Hb2 & Hi2 & Hs2 & Hf2 & Hx2). repeat split.
  - intros E. now rewrite Hb2, Hb1.
  - intros E. now rewrite Hi2, Hi1.
  - now transitivity (stdin b).
  - intros p Hp. now rewrite Hf2, Hf1.
  - now transitivity (faults b).
Qed.

(** A step that changes neither the library, nor the input, nor a file. *)
Lemma within_steady f w w' :
  books w' = books w -> stdin w' = stdin w -> files w' = files w ->
  faults w' = faults w -> within f w w'.
Proof. intros Hb Hi Hf Hx. repeat split; intros; rewrite ?Hb, ?Hi, ?Hf, ?Hx; done. Qed.

Lemma within_files f w w' : writes_files f = [] -> within f w w' -> files w' = files w.
Proof.
  intros Hf (_ & _ & _ & Hfiles & _). apply map_eq. intros p. apply Hfiles.
  rewrite Hf. apply not_elem_of_nil.
Qed.

Lemma within_print f s : preserves (within f) (print s).
Proof. intros w r w' [= _ <-]. now apply within_steady. Qed.

Lemma within_input f prompt : reads_input f = true -> preserves (within f) (input prompt).
Proof.
  intros Hf w r w'. unfold input. destruct (stdin w) as [|s rest] eqn:E.
  - intros [= _ <-]. now apply within_steady.
  - intros [= _ <-]. repeat split; simpl; try done.
    + congruence.
    + rewrite E. apply suffix_cons_r. done.
Qed.

Lemma within_get_books f : preserves (within f) get_books.
Proof. intros w r w' [= _ <-]. reflexivity. Qed.

Lemma within_put_books f l : writes_books f = true -> preserves (within f) (put_books l).
Proof. intros Hf w r w' [= _ <-]. repeat split; simpl; try done. congruence. Qed.

Lemma within_get_loaded f : preserves (within f) get_loaded.
Proof. intros w r w' [= _ <-]. reflexivity. Qed.

Lemma within_put_loaded f b : preserves (within f) (put_loaded b).
Proof. intros w r w' [= _ <-]. now apply within_steady. Qed.

Lemma within_next_fault f : preserves (within f) next_fault.
Proof.
  intros w r w' [= _ <-]. repeat split; simpl; try done.
  destruct (faults w); [done | now apply suffix_cons_r].
Qed.

Lemma within_path_exists f p : preserves (within f) (path_exists p).
Proof. intros w r w' [= _ <-]. reflexivity. Qed.

Lemma within_open_read f p : preserves (within f) (open p ModeR).
Proof.
  apply preserves_bind; [apply _ | apply within_next_fault |].
  intros [|e n]; [|apply preserves_raise, _].
  intros w r w'. destruct (files w !! p); intros [= _ <-]; reflexivity.
Qed.

Lemma within_open_write f p : p ∈ writes_files f -> preserves (within f) (open p ModeW).
Proof.
  intros Hp. apply preserves_bind; [apply _ | apply within_next_fault |].
  intros [|e n]; [|apply preserves_raise, _].
  intros w r w' [= _ <-]. repeat split; simpl; try done.
  intros q Hq. apply lookup_insert_ne. intros ->. contradiction.
Qed.

Lemma within_read f h : preserves (within f) (read h).
Proof.
  apply preserves_bind; [apply _ | apply within_next_fault |].
  intros [|e n]; [|apply preserves_raise, _].
  intros w r w' [= _ <-]. reflexivity.
Qed.

Lemma within_write f h d : h ∈ writes_files f -> preserves (within f) (write h d).
Proof.
  intros Hp. apply preserves_bind; [apply _ | apply within_next_fault |].
  intros [|e n]; intros w r w' [= _ <-]; repeat split; simpl; try done;
    intros q Hq; apply lookup_insert_ne; intros ->; contradiction.
Qed.

Lemma within_close f h : preserves (within f) (close h).
Proof.
  apply preserves_bind; [apply _ | apply within_next_fault |].
  intros [|e n]; [apply preserves_ret, _ | apply preserves_raise, _].
Qed.

Lemma within_getitem f v k : preserves (within f) (getitem v k).
Proof.
  unfold getitem. destruct v; try apply preserves_raise, _.
  destruct (dict_get k kv); [apply preserves_ret, _ | apply preserves_raise, _].
Qed.

Lemma within_method_lower `{Builtins} f v : preserves (within f) (method_lower v).
Proof. destruct v; try apply preserves_raise, _. apply preserves_ret, _. Qed.

Lemma within_pop f i : writes_books f = true -> preserves (within f) (pop i).
Proof.
  intros Hf w r w'. unfold pop. destruct (books w !! i); intros [= _ <-].
  - repeat split; simpl; try done. congruence.
  - reflexivity.
Qed.

Lemma within_append f b : writes_books f = true -> preserves (within f) (append b).
Proof. intros Hf w r w' [= _ <-]. repeat split; simpl; try done. congruence. Qed.

(** The body of a [with] runs on the file that was opened. *)
Lemma within_with_open {A} f p m (body : handle -> M A) :
  (m = ModeW -> p ∈ writes_files f) ->
  preserves (within f) (body p) -> preserves (within f) (with_open p m body).
Proof.
  intros Hm Hb w r w'. unfold with_open, bind.
  destruct (open p m w) as [[h|e] w1] eqn:Eo.
  - assert (h = p) as ->.
    { destruct m; [apply open_read_ok in Eo | apply open_write_ok in Eo]; tauto. }
    intros Hr. transitivity w1.
    + destruct m; [eapply within_open_read, Eo | eapply within_open_write, Eo; auto].
    + revert Hr. apply preserves_finally; [apply _ | exact Hb | apply within_close].
  - intros [= _ <-].
    destruct m; [eapply within_open_read, Eo | eapply within_open_write, Eo; auto].
Qed.

Create HintDb footprint.

#[local] Hint Extern 1 (_ ∈ _) => solve [assumption | simpl; repeat constructor] : footprint.

#[local] Hint Resolve within_print within_input within_get_books within_put_books
  within_get_loaded within_put_loaded within_path_exists within_open_read
  within_open_write within_read within_write within_close within_getitem
  within_method_lower within_pop within_append : footprint.

(** One step through the structure of a method. *)
Ltac frame_step :=
  lazymatch goal with
  | |- preserves _ (bind _ _) => apply preserves_bind; [apply _ | | intros ?]
  | |- preserves _ (try_except _ _ _) => apply preserves_try_except; [apply _ | | intros ?]
  | |- preserves _ (finally _ _) => apply preserves_finally; [apply _ | | ]
  | |- preserves _ (with_open _ _ _) =>
      apply within_with_open; [try discriminate; intros _ |]
  | |- preserves _ (ret _) => apply preserves_ret, _
  | |- preserves _ (raise _) => apply preserves_raise, _
  | |- preserves _ (if ?b then _ else _) => destruct b
  | |- preserves _ (match ?x with _ => _ end) => destruct x
  end.

Ltac frame :=
  repeat frame_step;
  try solve [eauto with footprint].

Lemma outside_saves p : p <> filename -> p <> backup_filename -> p ∉ writes_files saves.
Proof. intros Hp Hq. simpl. rewrite !not_elem_of_cons. auto using not_elem_of_nil. Qed.

Section Footprints.
Context `{Builtins}.

Lemma within_copy_file f src dst :
  dst ∈ writes_files f -> preserves (within f) (copy_file src dst).
Proof. intros Hd. unfold copy_file. frame. Qed.

Lemma within_save_library f :
  filename ∈ writes_files f -> backup_filename ∈ writes_files f ->
  preserves (within f) save_library.
Proof.
  intros Hp Hb.
  assert (Hcopy := within_copy_file f).
  unfold save_library, save_body, backup_step, write_primary, save_handler, recover.
  frame.
Qed.

Lemma within_load_library f : writes_books f = true -> preserves (within f) load_library.
Proof.
  intros Hf. unfold load_library, load_primary, load_backup, json_load. frame.
Qed.

Lemma within_init f : writes_books f = true -> preserves (within f) init.
Proof.
  intros Hf. assert (Hl := within_load_library f Hf). unfold init. frame.
Qed.

Lemma within_display_from f i bs : preserves (within f) (display_from i bs).
Proof. revert i. induction bs as [|b bs IH]; intros i; simpl; frame. Qed.

Lemma within_display_all_books f : preserves (within f) display_all_books.
Proof.
  assert (Hd := within_display_from f). unfold display_all_books, _display_books. frame.
Qed.

Lemma within_search_scan f t bs found : preserves (within f) (search_scan t bs found).
Proof. revert found. induction bs as [|b bs IH]; intros found; simpl; frame. Qed.

Lemma within_search_books f : reads_input f = true -> preserves (within f) search_books.
Proof.
  intros Hf. assert (Hd := within_display_from f). assert (Hs := within_search_scan f).
  unfold search_books, _display_books. frame.
Qed.

Lemma within_count_read f bs : preserves (within f) (count_read bs).
Proof. induction bs as [|b bs IH]; simpl; frame. Qed.

Lemma within_count_genres f bs acc : preserves (within f) (count_genres bs acc).
Proof. revert acc. induction bs as [|b bs IH]; intros acc; simpl; frame. Qed.

Lemma within_print_genres f T : preserves (within f) (print_genres T).
Proof. induction T as [|[g c] T IH]; simpl; frame. Qed.

Lemma within_display_statistics f : preserves (within f) display_statistics.
Proof.
  assert (H1 := within_count_read f). assert (H2 := within_count_genres f).
  assert (H3 := within_print_genres f). unfold display_statistics. frame.
Qed.

Lemma within_export_from f p i bs :
  p ∈ writes_files f -> preserves (within f) (export_from p i bs).
Proof. intros Hp. revert i. induction bs as [|b bs IH]; intros i; simpl; frame. Qed.

Lemma within_export_to_txt f p :
  p ∈ writes_files f -> preserves (within f) (export_to_txt p).
Proof.
  intros Hp. assert (He := fun i bs => within_export_from f p i bs Hp).
  unfold export_to_txt. frame.
Qed.

Lemma within_year_turn f : reads_input f = true -> preserves (within f) year_turn.
Proof. intros Hf. unfold year_turn. frame. Qed.

Lemma within_read_year_from f lines :
  reads_input f = true -> preserves (within f) (read_year_from lines).
Proof.
  intros Hf. assert (Ht := within_year_turn f Hf).
  induction lines as [|l lines IH]; simpl; frame.
Qed.

Lemma within_read_year f : reads_input f = true -> preserves (within f) read_year.
Proof. intros Hf w r w'. apply within_read_year_from, Hf. Qed.

Lemma within_add_book f :
  writes_books f = true -> reads_input f = true ->
  filename ∈ writes_files f -> backup_filename ∈ writes_files f ->
  preserves (within f) add_book.
Proof.
  intros Hb Hi Hp Hq. assert (Hy := within_read_year f Hi).
  assert (Hs := within_save_library f Hp Hq). unfold add_book. frame.
Qed.

Lemma within_remove_scan f title i bs :
  writes_books f = true ->
  filename ∈ writes_files f -> backup_filename ∈ writes_files f ->
  preserves (within f) (remove_scan title i bs).
Proof.
  intros Hb Hp Hq. assert (Hs := within_save_library f Hp Hq).
  revert i. induction bs as [|b bs IH]; intros i; simpl; frame.
Qed.

Lemma within_remove_book f :
  writes_books f = true -> reads_input f = true ->
  filename ∈ writes_files f -> backup_filename ∈ writes_files f ->
  preserves (within f) remove_book.
Proof.
  intros Hb Hi Hp Hq. assert (Hs := fun t i bs => within_remove_scan f t i bs Hb Hp Hq).
  unfold remove_book. frame.
Qed.

Lemma within_print_lines f msgs : preserves (within f) (print_lines msgs).
Proof. induction msgs as [|s msgs IH]; simpl; frame. Qed.

Lemma within_dispatch choice : preserves (within session) (dispatch choice).
Proof.
  assert (H1 := within_add_book session eq_refl eq_refl
                  ltac:(repeat constructor) ltac:(repeat constructor)).
  assert (H2 := within_remove_book session eq_refl eq_refl
                  ltac:(repeat constructor) ltac:(repeat constructor)).
  assert (H3 := within_search_books session eq_refl).
  assert (H4 := within_display_all_books session).
  assert (H5 := within_display_statistics session).
  assert (H6 := within_export_to_txt session export_filename ltac:(repeat constructor)).
  assert (H7 := within_save_library session ltac:(repeat constructor) ltac:(repeat constructor)).
  unfold dispatch. frame.
Qed.

(** [save] by its footprint. *)
Lemma save_library_within w r w' :
  save_library w = (r, w') -> within saves w w'.
Proof. apply within_save_library; repeat constructor. Qed.

End Footprints.

Section PersistenceTheorems.
Context `{Builtins}.

(** Property X1.

    [load_library] (lines 174-217) returns in every world, whatever the
    two files hold and whatever the file system does, and it only
    reads: no file is created or changed, and no line of the input is
    taken. *)
Theorem load_only_reads w :
  exists w',
    load_library w = (Ok tt, w') /\ files w' = files w /\ stdin w' = stdin w.
Proof.
  destruct (never_raises_load_library w) as ([] & w' & E). exists w'.
  split; [exact E|].
  apply (within_load_library loads_books eq_refl) in E.
  split; [now apply (within_files loads_books) | now apply E].
Qed.

(** Property X3.

    [save_library] (lines 143-172), whether the save succeeds or not,
    changes neither the library nor the input, and no file other than
    the primary file and the backup file. *)
Theorem save_touches_only_its_files w p :
  p <> filename -> p <> backup_filename ->
  books (save_library w).2 = books w /\
  stdin (save_library w).2 = stdin w /\
  files (save_library w).2 !! p = files w !! p.
Proof.
  intros Hp Hq. destruct (save_library w) as [r w'] eqn:E.
  apply save_library_within in E as (Hb & Hi & _ & Hf & _).
  split; [exact (Hb eq_refl)|]. split; [exact (Hi eq_refl)|].
  apply Hf. now apply outside_saves.
Qed.

(** Property X4.

    A save that meets no failure (lines 150-161) leaves in the backup
    file the very text the primary file held before, whether or not
    that text was a library, and writes the library to the primary
    file.  The first save, with no primary file yet, creates no backup
    file. *)
Theorem save_backs_up_previous_file w :
  faults w = [] ->
  exists w',
    save_library w = (Ok tt, w') /\
    files w' !! filename = Some (json_dumps (books w)) /\
    files w' !! backup_filename =
      match files w !! filename with
      | Some previous => Some previous
      | None => files w !! backup_filename
      end /\
    stdout w' = (stdout w ++ [saved_message])%list.
Proof.
  intros Hclean. rewrite (save_library_clean w Hclean). eexists. split; [reflexivity|].
  simpl. split; [apply lookup_insert_eq|]. split; [|reflexivity].
  rewrite lookup_insert_ne by apply filename_neq.
  destruct (files w !! filename); [apply lookup_insert_eq | reflexivity].
Qed.

End PersistenceTheorems.

(** * What load adopts, whatever the file system does *)

Section LoadProofs.
Context `{Builtins}.

(** One attempt of [load_library] on the file [p]: it leaves the library
    and the flag as they are, or it sets the flag and the library is
    the array the file holds. *)
Lemma attempt_inv p msg1 msg2 w r w' :
  with_open p ModeR (fun f =>
    let* data := json_load f in
    match data with
    | PList l =>
        let* _ := put_books l in
        let* _ := put_loaded true in
        let* _ := print msg1 in
        let* bs := get_books in
        print (count_message (length bs))
    | _ => print msg2
    end) w = (r, w') ->
  (books w' = books w /\ loaded w' = loaded w) \/
  (loaded w' = true /\ adoptable (files w !! p) = Some (books w')).
Proof.
  unfold with_open, bind at 1.
  destruct (open p ModeR w) as [[h|e] w1] eqn:Eo.
  2:{ intros [= _ <-]. left. apply quiet_open in Eo. destruct Eo as (? & ? & _). now split. }
  apply open_read_ok in Eo as (-> & Hsome & ->). destruct Hsome as [c Hc].
  unfold finally.
  set (body := bind _ _).
  assert (Hbody : forall rb wb, body (decided w) = (rb, wb) ->
            (books wb = books w /\ loaded wb = loaded w) \/
            (loaded wb = true /\ adoptable (files w !! p) = Some (books wb))).
  { intros rb wb. unfold body, bind at 1, json_load, bind at 1.
    destruct (read p (decided w)) as [[s|e] w2] eqn:Er.
    2:{ intros [= _ <-]. left. apply quiet_read in Er. destruct Er as (? & ? & _). now split. }
    apply read_ok in Er as (-> & ->).
    assert (Hs : file_content p (decided w) = c).
    { unfold file_content. change (files (decided w)) with (files w). now rewrite Hc. }
    rewrite Hs. destruct (json_loads c) as [v|msg] eqn:Ej.
    2:{ intros [= _ <-]. now left. }
    unfold ret. destruct v; try (intros [= _ <-]; now left).
    intros [= _ <-]. right. split; [reflexivity|].
    rewrite Hc. unfold adoptable. now rewrite Ej. }
  destruct (body (decided w)) as [rb wb] eqn:Eb.
  specialize (Hbody _ _ eq_refl).
  destruct (close p wb) as [[[]|e] wc] eqn:Ec; intros [= _ <-];
    apply quiet_close in Ec; destruct Ec as (Hbk & Hld & _); rewrite Hbk, Hld; exact Hbody.
Qed.

Lemma load_primary_inv w r w' :
  load_primary w = (r, w') ->
  (books w' = books w /\ loaded w' = loaded w) \/
  (loaded w' = true /\ adoptable (files w !! filename) = Some (books w')).
Proof.
  unfold load_primary, try_except.
  match goal with |- context [with_open ?p ?m ?b w] =>
    destruct (with_open p m b w) as [[a|e] w1] eqn:E end.
  - intros [= _ <-]. exact (attempt_inv _ _ _ _ _ _ E).
  - apply attempt_inv in E. simpl.
    destruct (is_exception e); [|intros [= _ <-]; exact E].
    destruct (is_json_decode_error e); unfold print; intros [= _ <-]; exact E.
Qed.

Lemma load_backup_inv w r w' :
  load_backup w = (r, w') ->
  (books w' = books w /\ loaded w' = loaded w) \/
  (loaded w' = true /\ adoptable (files w !! backup_filename) = Some (books w')).
Proof.
  unfold load_backup, try_except.
  match goal with |- context [with_open ?p ?m ?b w] =>
    destruct (with_open p m b w) as [[a|e] w1] eqn:E end.
  - intros [= _ <-]. exact (attempt_inv _ _ _ _ _ _ E).
  - apply attempt_inv in E. simpl.
    destruct (is_exception e); unfold print; intros [= _ <-]; exact E.
Qed.

Lemma within_load_primary f : writes_books f = true -> preserves (within f) load_primary.
Proof. intros Hf. unfold load_primary, json_load. frame. Qed.

End LoadProofs.

Section LoadTheorems.
Context `{Builtins}.

(** Property X2.

    Whatever the file system does, the library after [load_library] is
    empty, or it is the array the primary file holds, or the array the
    backup file holds: a failing read never leaves a part of a file, or
    the library of before, in the library. *)
Theorem load_adopts_only_file_content w :
  exists w',
    load_library w = (Ok tt, w') /\
    (books w' = [] \/
     adoptable (files w !! filename) = Some (books w') \/
     adoptable (files w !! backup_filename) = Some (books w')).
Proof.
  destruct (never_raises_load_library w) as ([] & w' & E). exists w'.
  split; [exact E|]. unfold load_library in E.
  apply bind_ok_inv in E as ([] & w0 & E0 & E). injection E0 as <-.
  apply bind_ok_inv in E as (ex & w1 & E1 & E). injection E1 as <- <-.
  apply bind_ok_inv in E as ([] & w1 & E1 & E).
  assert (H1 : (loaded w1 = false /\ files w1 = files w) \/
               (loaded w1 = true /\ files w1 = files w /\
                adoptable (files w !! filename) = Some (books w1))).
  { assert (Hfiles : files w1 = files w).
    { destruct (bool_decide _).
      - apply (within_load_primary loads_books eq_refl) in E1.
        now apply (within_files loads_books) in E1.
      - now injection E1 as <-. }
    destruct (bool_decide _).
    - apply load_primary_inv in E1 as [[_ Hl] | [Hl Ha]]; [left | right]; auto.
    - injection E1 as <-. left. auto. }
  apply bind_ok_inv in E as (ld & w2 & E2 & E). injection E2 as <- <-.
  apply bind_ok_inv in E as (exb & w2 & E2 & E). injection E2 as <- <-.
  apply bind_ok_inv in E as ([] & w2 & E2 & E).
  apply bind_ok_inv in E as (ld & w3 & E3 & E). injection E3 as <- <-.
  destruct H1 as [[Hl Hf] | (Hl & Hf & Ha)].
  - rewrite Hl in E2. simpl in E2.
    destruct (bool_decide (is_Some (files w1 !! backup_filename))).
    + apply load_backup_inv in E2 as [[_ Hl2] | [Hl2 Ha2]].
      * rewrite Hl2, Hl in E. simpl in E.
        apply bind_ok_inv in E as ([] & w3 & E3 & E). injection E3 as <-.
        injection E as <-. now left.
      * rewrite Hl2 in E. injection E as <-. right. right. now rewrite <- Hf.
    + injection E2 as <-. rewrite Hl in E. simpl in E.
      apply bind_ok_inv in E as ([] & w3 & E3 & E). injection E3 as <-.
      injection E as <-. now left.
  - rewrite Hl in E2. injection E2 as <-. rewrite Hl in E. injection E as <-.
    right. now left.
Qed.

End LoadTheorems.

(** * The menu loop *)

Lemma print_lines_run msgs w : print_lines msgs w = (Ok tt, shows msgs w).
Proof.
  revert w. induction msgs as [|s msgs IH]; intros w; simpl.
  - unfold ret, shows. rewrite app_nil_r. now destruct w.
  - rewrite (bind_ok_run _ _ _ _ _ (print_run _ _)), IH, shows_shows. reflexivity.
Qed.

Lemma input_run prompt w :
  input prompt w =
  match stdin w with
  | [] => (Raise EOFError, shows [prompt] w)
  | line :: rest => (Ok line, set_stdin rest (shows [prompt] w))
  end.
Proof. reflexivity. Qed.

Section MenuProofs.
Context `{Builtins}.

(** The world once the menu has been shown and a choice has been typed. *)
Lemma menu_turn_run w :
  menu_turn w =
  match stdin w with
  | [] => (Raise EOFError, shows (menu ++ [choice_prompt]) w)
  | line :: rest =>
      dispatch (strip line) (set_stdin rest (shows (menu ++ [choice_prompt]) w))
  end.
Proof.
  unfold menu_turn. rewrite (bind_ok_run _ _ _ _ _ (print_lines_run _ _)).
  unfold bind at 1. rewrite input_run. change (stdin (shows menu w)) with (stdin w).
  destruct (stdin w); now rewrite shows_shows.
Qed.

(** A turn that comes back has taken a line. *)
Lemma menu_turn_takes w b w' :
  menu_turn w = (Ok b, w') -> (length (stdin w') < length (stdin w))%nat.
Proof.
  rewrite menu_turn_run. destruct (stdin w) as [|line rest] eqn:E; [discriminate|].
  intros Hr. apply within_dispatch in Hr as (_ & _ & Hs & _).
  apply suffix_length in Hs. simpl in *. lia.
Qed.

Lemma main_loop_from_any l1 : forall l2 w,
  (length (stdin w) <= length l1)%nat -> (length (stdin w) <= length l2)%nat ->
  main_loop_from l1 w = main_loop_from l2 w.
Proof.
  induction l1 as [|x l1 IH]; intros l2 w H1 H2.
  - destruct (stdin w) eqn:E; [|simpl in H1; lia].
    destruct l2; simpl; unfold bind; rewrite menu_turn_run, E; reflexivity.
  - destruct l2 as [|y l2]; simpl.
    + destruct (stdin w) eqn:E; [|simpl in H2; lia].
      unfold bind; rewrite menu_turn_run, E; reflexivity.
    + unfold bind. destruct (menu_turn w) as [[[|]|e] w'] eqn:Et; try reflexivity.
      apply menu_turn_takes in Et. apply IH; simpl in *; lia.
Qed.

(** The equation of [while True]: a turn, then the loop again unless the
    turn has left it. *)
Lemma main_loop_unfold w :
  main_loop w = (let* stop := menu_turn in if stop then ret tt else main_loop) w.
Proof.
  unfold main_loop at 1. destruct (stdin w) as [|line rest] eqn:E; simpl; unfold bind.
  - rewrite menu_turn_run, E. reflexivity.
  - destruct (menu_turn w) as [[[|]|e] w'] eqn:Et; try reflexivity.
    apply menu_turn_takes in Et. rewrite E in Et. simpl in Et.
    unfold main_loop. apply main_loop_from_any; lia.
Qed.

End MenuProofs.

(** * add_book *)

Lemma never_raises_no_raise {A} (m : M A) w e w' : never_raises m -> m w <> (Raise e, w').
Proof. intros Hm E. destruct (Hm w) as (a & w1 & E1). congruence. Qed.

Lemma raises_only_never {A} P (m : M A) : never_raises m -> raises_only P m.
Proof. intros Hm w e w' E. now apply never_raises_no_raise in E. Qed.

Lemma raises_only_input prompt : raises_only is_eof (input prompt).
Proof. intros w e w'. unfold input. destruct (stdin w); [|discriminate]. now intros [= <- _]. Qed.

Lemma set_stdin_set_stdin i j w : set_stdin i (set_stdin j w) = set_stdin i w.
Proof. now destruct w. Qed.

Lemma shows_set_stdin msgs i w : shows msgs (set_stdin i w) = set_stdin i (shows msgs w).
Proof. now destruct w. Qed.

Lemma books_set_stdin i w : books (set_stdin i w) = books w.
Proof. reflexivity. Qed.

Lemma books_shows msgs w : books (shows msgs w) = books w.
Proof. reflexivity. Qed.

(** The setters, in the order input, then terminal. *)
Ltac normalize_world :=
  repeat first [ rewrite shows_set_stdin | rewrite set_stdin_set_stdin
               | rewrite shows_shows | rewrite books_set_stdin | rewrite books_shows ].

Section AddBookProofs.
Context `{Builtins}.

Lemma year_turn_run w :
  year_turn w =
  match stdin w with
  | [] => (Raise EOFError, shows [year_prompt] w)
  | line :: rest =>
      match year_of line with
      | Some year => (Ok (Some year), set_stdin rest (shows [year_prompt] w))
      | None => (Ok None, shows [year_reply line] (set_stdin rest (shows [year_prompt] w)))
      end
  end.
Proof.
  unfold year_turn, try_except, bind, input, year_of, year_reply.
  destruct (stdin w) as [|line rest]; [reflexivity|].
  destruct (py_int line) as [year|]; [|reflexivity].
  now destruct (year_in_range year).
Qed.

Lemma read_year_unfold w :
  read_year w =
  (let* r := year_turn in
   match r with
   | Some year => ret year
   | None => read_year
   end) w.
Proof.
  unfold read_year at 1. destruct (stdin w) as [|line rest] eqn:E; simpl; unfold bind;
    rewrite year_turn_run, E; [reflexivity|].
  destruct (year_of line); reflexivity.
Qed.

Lemma read_year_skips refused : forall w line year rest,
  stdin w = (refused ++ line :: rest)%list ->
  Forall (fun l => year_of l = None) refused ->
  year_of line = Some year ->
  read_year w =
  (Ok year, set_stdin rest (shows (asked_years refused ++ [year_prompt]) w)).
Proof.
  induction refused as [|x refused IH]; intros w line year rest Hin Hall Hy;
    rewrite read_year_unfold; unfold bind; rewrite year_turn_run, Hin; simpl.
  - now rewrite Hy.
  - inversion Hall as [|? ? Hx Hall']; subst. rewrite Hx.
    erewrite IH; [|reflexivity|exact Hall'|exact Hy].
    normalize_world. reflexivity.
Qed.

Lemma read_year_runs_out lines : forall w,
  stdin w = lines -> Forall (fun l => year_of l = None) lines ->
  read_year w =
  (Raise EOFError, set_stdin [] (shows (asked_years lines ++ [year_prompt]) w)).
Proof.
  induction lines as [|x lines IH]; intros w Hin Hall;
    rewrite read_year_unfold; unfold bind; rewrite year_turn_run, Hin; simpl.
  - destruct w; simpl in *. now subst.
  - inversion Hall as [|? ? Hx Hall']; subst. rewrite Hx.
    erewrite IH; [|reflexivity|exact Hall'].
    normalize_world. reflexivity.
Qed.

Lemma raises_only_year_turn : raises_only is_eof year_turn.
Proof.
  intros w e w'. rewrite year_turn_run. destruct (stdin w) as [|line rest].
  - now intros [= <- _].
  - destruct (year_of line); discriminate.
Qed.

Lemma raises_only_read_year_from lines : raises_only is_eof (read_year_from lines).
Proof.
  induction lines as [|l lines IH]; simpl;
    (apply raises_only_bind; [apply raises_only_year_turn|]);
    intros [year|]; try apply raises_only_ret; [now apply raises_only_raise | exact IH].
Qed.

Lemma raises_only_read_year : raises_only is_eof read_year.
Proof. intros w e w'. apply raises_only_read_year_from. Qed.

(** [add_book] once the five answers have been given. *)
Lemma add_book_run w title author refused year_line year genre answer rest :
  stdin w = (title :: author :: refused ++ year_line :: genre :: answer :: rest)%list ->
  Forall (fun l => year_of l = None) refused ->
  year_of year_line = Some year ->
  add_book w =
  (let* _ := save_library in print (added_message (strip title)))
    (set_books (books w ++ [new_book title author year genre answer])
       (set_stdin rest (shows (add_prompts refused) w))).
Proof.
  intros Hin Hall Hy. unfold add_book.
  rewrite (bind_ok_run _ _ _ _ _ (print_run _ _)).
  unfold bind at 1. rewrite input_run. change (stdin (shows _ w)) with (stdin w). rewrite Hin.
  unfold bind at 1. rewrite input_run. simpl stdin.
  unfold bind at 1.
  erewrite (read_year_skips refused); [|simpl; reflexivity|exact Hall|exact Hy].
  unfold bind at 1. rewrite input_run. simpl stdin.
  unfold bind at 1. rewrite input_run. simpl stdin.
  unfold bind at 1, append at 1.
  normalize_world. unfold add_prompts. rewrite <- ?app_assoc. reflexivity.
Qed.

End AddBookProofs.

(** * Numbers typed in decimal *)

Lemma pretty_char_digit d :
  (d < 10)%N -> digit_of (pretty_N_char d) = Some (Z.of_N d).
Proof.
  intros Hd.
  assert (d = 0 \/ d = 1 \/ d = 2 \/ d = 3 \/ d = 4 \/ d = 5 \/ d = 6 \/ d = 7 \/
          d = 8 \/ d = 9)%N as Hc by lia.
  repeat destruct Hc as [-> | Hc]; try subst d; reflexivity.
Qed.

(** A digit is an ASCII character, and no white space. *)
Lemma digit_plain c d :
  digit_of c = Some d ->
  (nat_of_ascii c <? 128)%nat = true /\ is_int_space c = false.
Proof. destruct c as [[] [] [] [] [] [] [] []]; try discriminate; now split. Qed.

Lemma all_digits_pretty_go x : forall s,
  all_digits s = true -> all_digits (pretty_N_go x s) = true.
Proof.
  induction (N.lt_wf_0 x) as [x _ IH]; intros s Hs.
  destruct (N.eq_dec x 0%N) as [->|Hx]; [now rewrite pretty_N_go_0|].
  rewrite pretty_N_go_step by lia. apply IH; [apply N.div_lt; lia|].
  simpl. now rewrite (pretty_char_digit _ ltac:(apply N.mod_lt; lia)).
Qed.

Lemma is_ascii_digits s : all_digits s = true -> is_ascii s = true.
Proof.
  induction s as [|c r IH]; [reflexivity|]. simpl.
  destruct (digit_of c) as [d|] eqn:Ed; [|discriminate].
  intros Hr. destruct (digit_plain c d Ed) as [-> _]. now apply IH.
Qed.

Lemma rstrip_digits s : all_digits s = true -> rstrip is_int_space s = s.
Proof.
  induction s as [|c r IH]; [reflexivity|]. simpl.
  destruct (digit_of c) as [d|] eqn:Ed; [|discriminate].
  intros Hr. destruct (digit_plain c d Ed) as [_ Hc]. rewrite (IH Hr), Hc. now destruct r.
Qed.

Lemma lstrip_digits s : all_digits s = true -> lstrip is_int_space s = s.
Proof.
  destruct s as [|c r]; [reflexivity|]. simpl.
  destruct (digit_of c) as [d|] eqn:Ed; [|discriminate].
  intros _. now destruct (digit_plain c d Ed) as [_ ->].
Qed.

(** [int] of digits: there is no white space and no sign to take off. *)
Lemma int_plain_digits s : all_digits s = true -> int_plain s = parse_digits 0 false s.
Proof.
  intros Hs. unfold int_plain. rewrite (lstrip_digits s Hs), (rstrip_digits s Hs).
  destruct s as [|c r]; [reflexivity|]. simpl in Hs.
  destruct c as [[] [] [] [] [] [] [] []]; try discriminate; reflexivity.
Qed.

Lemma parse_digits_pretty_go x : forall s,
  (0 < x)%N ->
  exists k : Z, 0 <= k /\
    forall acc b,
      parse_digits acc b (pretty_N_go x s) =
      parse_digits (acc * 10 ^ k + Z.of_N x) true s.
Proof.
  induction (N.lt_wf_0 x) as [x _ IH]; intros s Hx.
  rewrite pretty_N_go_step by exact Hx.
  assert (Hd := pretty_char_digit (N.modulo x 10) ltac:(apply N.mod_lt; lia)).
  destruct (N.eq_dec (N.div x 10) 0%N) as [E|E].
  - rewrite E, pretty_N_go_0. exists 1. split; [lia|]. intros acc b. simpl.
    rewrite Hd. f_equal. rewrite (N.div_mod x 10) at 2 by lia. rewrite E. lia.
  - destruct (IH (N.div x 10) ltac:(apply N.div_lt; lia)
                (String (pretty_N_char (N.modulo x 10)) s)
                ltac:(now apply N.neq_0_lt_0)) as (k & Hk & Hp).
    exists (k + 1). split; [lia|]. intros acc b. rewrite Hp. simpl. rewrite Hd.
    f_equal. rewrite Z.pow_add_r by lia.
    rewrite (N.div_mod x 10) at 3 by lia. lia.
Qed.

(** A number is written with no more digits than its value. *)
Lemma length_pretty_go x : forall s,
  (String.length (pretty_N_go x s) <= String.length s + N.to_nat x)%nat.
Proof.
  induction (N.lt_wf_0 x) as [x _ IH]; intros s.
  destruct (N.eq_dec x 0%N) as [->|Hx]; [rewrite pretty_N_go_0; lia|].
  rewrite pretty_N_go_step by lia.
  etransitivity; [apply IH; apply N.div_lt; lia|]. simpl.
  assert (N.div x 10 < x)%N by (apply N.div_lt; lia). lia.
Qed.

(** [int] of ASCII digits reads back every natural number written in
    decimal. *)
Lemma int_plain_pretty (x : N) : int_plain (pretty x) = Some (Z.of_N x).
Proof.
  unfold pretty, pretty_N. destruct (decide (x = 0%N)) as [->|Hx]; [reflexivity|].
  rewrite int_plain_digits by now apply all_digits_pretty_go.
  destruct (parse_digits_pretty_go x "" ltac:(lia)) as (k & _ & Hp).
  rewrite Hp. reflexivity.
Qed.

Lemma py_int_pretty `{Builtins} (x : N) :
  (x <= 4300)%N -> py_int (pretty x) = Some (Z.of_N x).
Proof.
  intros Hx. unfold py_int.
  assert (Ha : is_ascii (pretty x) = true).
  { apply is_ascii_digits. unfold pretty, pretty_N.
    destruct (decide (x = 0%N)); [reflexivity | now apply all_digits_pretty_go]. }
  assert (Hl : (String.length (pretty x) <=? max_str_digits)%nat = true).
  { apply Nat.leb_le. unfold pretty, pretty_N, max_str_digits.
    destruct (decide (x = 0%N)); [simpl; lia|].
    pose proof (length_pretty_go x "") as Hlen. simpl in Hlen. lia. }
  rewrite Ha, Hl. apply int_plain_pretty.
Qed.

Lemma year_of_pretty `{Builtins} (year : Z) :
  1800 <= year <= 2024 -> year_of (pretty year) = Some year.
Proof.
  intros Hy. destruct year as [|p|p]; try lia.
  change (pretty (Z.pos p)) with (pretty (N.pos p)).
  unfold year_of. rewrite py_int_pretty by lia. change (Z.of_N (N.pos p)) with (Z.pos p).
  unfold year_in_range.
  destruct (Z.leb_spec 1800 (Z.pos p)); [|lia].
  destruct (Z.leb_spec (Z.pos p) 2024); [reflexivity | lia].
Qed.

Section AddBookTheorems.
Context `{Builtins}.

(** Property X5.

    The year loop of [add_book] (lines 25-32) answers every line it
    refuses and asks again; it ends with the first line that is a year
    from 1800 to 2024, taking nothing after it; if no such line is
    typed, the end of the input raises [EOFError]. *)
Theorem year_loop_asks_until_valid w refused :
  Forall (fun l => year_of l = None) refused ->
  (forall line year rest,
     stdin w = (refused ++ line :: rest)%list -> year_of line = Some year ->
     read_year w =
     (Ok year, set_stdin rest (shows (asked_years refused ++ [year_prompt]) w))) /\
  (stdin w = refused ->
   read_year w =
   (Raise EOFError, set_stdin [] (shows (asked_years refused ++ [year_prompt]) w))).
Proof.
  intros Hall. split.
  - intros line year rest Hin Hy. exact (read_year_skips refused w line year rest Hin Hall Hy).
  - intros Hin. exact (read_year_runs_out refused w Hin Hall).
Qed.

(** Property X7.

    [add_book] (lines 15-52), given its five answers, appends one record
    at the end of the library: title, author and genre stripped, the
    year as a number, and read only for the answer yes (in any case,
    spaces around).  It does so whatever the file system does: a save
    that fails is reported, and the record stays in the library.  With
    no failure the primary file holds the new library. *)
Theorem add_book_appends w title author refused year_line year genre answer rest :
  stdin w = (title :: author :: refused ++ year_line :: genre :: answer :: rest)%list ->
  Forall (fun l => year_of l = None) refused ->
  year_of year_line = Some year ->
  exists w',
    add_book w = (Ok tt, w') /\
    books w' = (books w ++ [new_book title author year genre answer])%list /\
    stdin w' = rest /\
    (forall p, p <> filename -> p <> backup_filename -> files w' !! p = files w !! p) /\
    (faults w = [] ->
     files w' !! filename = Some (json_dumps (books w')) /\
     stdout w' = (stdout w ++ add_prompts refused ++
                    [saved_message; added_message (strip title)])%list).
Proof.
  intros Hin Hall Hy. rewrite (add_book_run _ _ _ _ _ _ _ _ _ Hin Hall Hy).
  set (w0 := set_books _ _).
  destruct (never_raises_save_library w0) as ([] & w1 & Es).
  rewrite (bind_ok_run _ _ _ _ _ Es), print_run. eexists. split; [reflexivity|].
  destruct (save_library_within _ _ _ Es) as (Hb & Hi & _ & Hf & _).
  split; [exact (Hb eq_refl)|]. split; [exact (Hi eq_refl)|]. split.
  - intros p Hp Hq. simpl. rewrite Hf; [reflexivity | now apply outside_saves].
  - intros Hclean. clear Hb Hi Hf. rewrite save_library_clean in Es by exact Hclean.
    injection Es as <-. split.
    + simpl. apply lookup_insert_eq.
    + subst w0. unfold add_prompts. simpl.
      repeat (rewrite <- app_assoc || rewrite <- app_comm_cons). reflexivity.
Qed.

(** Property X8.

    [add_book] can stop only at the end of the input, and then it has
    neither added a record nor written a file. *)
Theorem add_book_stops_only_at_eof w e w' :
  add_book w = (Raise e, w') ->
  e = EOFError /\ books w' = books w /\ files w' = files w.
Proof.
  intros Hr.
  assert (Hin : forall p, preserves (within answers) (input p))
    by (intros p; now apply within_input).
  assert (Heof : forall A (m : M A) w0 e0 w1,
            raises_only is_eof m -> m w0 = (Raise e0, w1) -> e0 = EOFError).
  { intros A m w0 e0 w1 Hm E. apply Hm in E. now destruct e0. }
  assert (Hstop : forall w0 w1, within answers w w0 -> within answers w0 w1 ->
            books w1 = books w /\ files w1 = files w).
  { intros w0 w1 H0 H1. assert (Hw : within answers w w1) by now transitivity w0.
    split; [apply Hw; reflexivity | now apply (within_files answers)]. }
  unfold add_book in Hr.
  apply bind_raise_inv in Hr as [Hr | ([] & w1 & E1 & Hr)]; [discriminate|].
  pose proof (within_print answers _ _ _ _ E1) as W1.
  apply bind_raise_inv in Hr as [Hr | (l1 & w2 & E2 & Hr)].
  { split; [eapply Heof, Hr; apply raises_only_input|]. eapply Hstop; [exact W1 | eapply Hin, Hr]. }
  assert (W2 : within answers w w2) by (transitivity w1; [exact W1 | eapply Hin, E2]).
  apply bind_raise_inv in Hr as [Hr | (l2 & w3 & E3 & Hr)].
  { split; [eapply Heof, Hr; apply raises_only_input|]. eapply Hstop; [exact W2 | eapply Hin, Hr]. }
  assert (W3 : within answers w w3) by (transitivity w2; [exact W2 | eapply Hin, E3]).
  apply bind_raise_inv in Hr as [Hr | (year & w4 & E4 & Hr)].
  { split; [eapply Heof, Hr; apply raises_only_read_year|].
    eapply Hstop; [exact W3 | eapply within_read_year, Hr; reflexivity]. }
  assert (W4 : within answers w w4)
    by (transitivity w3; [exact W3 | eapply within_read_year, E4; reflexivity]).
  apply bind_raise_inv in Hr as [Hr | (l3 & w5 & E5 & Hr)].
  { split; [eapply Heof, Hr; apply raises_only_input|]. eapply Hstop; [exact W4 | eapply Hin, Hr]. }
  assert (W5 : within answers w w5) by (transitivity w4; [exact W4 | eapply Hin, E5]).
  apply bind_raise_inv in Hr as [Hr | (l4 & w6 & E6 & Hr)].
  { split; [eapply Heof, Hr; apply raises_only_input|]. eapply Hstop; [exact W5 | eapply Hin, Hr]. }
  apply bind_raise_inv in Hr as [Hr | ([] & w7 & E7 & Hr)]; [discriminate|].
  apply bind_raise_inv in Hr as [Hr | ([] & w8 & E8 & Hr)]; [|discriminate].
  now apply never_raises_no_raise in Hr; [|apply never_raises_save_library].
Qed.

End AddBookTheorems.

Section YearTheorems.
Context `{Builtins}.

(** Property X6.

    Every year from 1800 to 2024, typed in decimal, is taken by the
    year loop of [add_book] (lines 27-29) as that number, at the first
    prompt. *)
Theorem decimal_years_are_accepted (year : Z) rest w :
  1800 <= year <= 2024 ->
  py_int (pretty year) = Some year /\
  read_year (set_stdin (pretty year :: rest) w) =
  (Ok year, set_stdin rest (shows [year_prompt] w)).
Proof.
  intros Hy. pose proof (year_of_pretty year Hy) as Hyear. split.
  - unfold year_of in Hyear. destruct (py_int (pretty year)) as [y|]; [|discriminate].
    destruct (year_in_range y); [now injection Hyear as -> | discriminate].
  - rewrite (read_year_skips [] (set_stdin (pretty year :: rest) w) (pretty year) year rest
               eq_refl (Forall_nil_2 _) Hyear).
    now normalize_world.
Qed.

End YearTheorems.

(** * Display, search, statistics and removal on any library *)

Lemma getitem_missing kv k w :
  dict_get k kv = None -> getitem (PDict kv) k w = (Raise (KeyError k), w).
Proof. intros E. unfold getitem. now rewrite E. Qed.

Lemma bind_raise_run {A B} (m : M A) (k : A -> M B) w e w1 :
  m w = (Raise e, w1) -> bind m k w = (Raise e, w1).
Proof. unfold bind. now intros ->. Qed.

Lemma str_in_empty s : str_in "" s = true.
Proof. now destruct s. Qed.

Lemma forallb_app_inv {A} (f : A -> bool) l1 l2 :
  forallb f (l1 ++ l2) = true -> forallb f l1 = true /\ forallb f l2 = true.
Proof. rewrite forallb_app. apply andb_prop. Qed.

Section RecordStoreFurther.
Context `{Builtins}.

Lemma book_lines_length i b : is_book b = true -> length (book_lines i b) = 2%nat.
Proof.
  intros Hb. destruct (is_book_fields b Hb) as (t & a & y & g & r & Et & Ea & Ey & Eg & Er).
  unfold book_lines. now rewrite Et, Ea, Ey, Eg, Er.
Qed.

(** The record at index [k] is shown on the lines [2k] and [2k+1], under
    the number [k+1]. *)
Lemma display_lines_at bs : forall i k b,
  forallb is_book bs = true -> bs !! k = Some b ->
  take 2 (drop (2 * k) (display_lines i bs)) = book_lines (i + k) b.
Proof.
  induction bs as [|x bs IH]; intros i k b Hwf Hk; [discriminate|].
  apply andb_prop in Hwf as [Hx Hbs]. destruct k as [|k]; simpl in Hk.
  - injection Hk as ->. simpl display_lines. change (2 * 0)%nat with 0%nat.
    rewrite drop_0, Nat.add_0_r. apply take_app_length'. symmetry. now apply book_lines_length.
  - simpl display_lines. replace (2 * S k)%nat with (2 + 2 * k)%nat by lia.
    rewrite <- drop_drop, drop_app_length'; [|symmetry; now apply book_lines_length].
    rewrite (IH (S i) k b Hbs Hk). f_equal. lia.
Qed.

Lemma display_lines_length i bs :
  forallb is_book bs = true -> length (display_lines i bs) = (2 * length bs)%nat.
Proof.
  revert i. induction bs as [|x bs IH]; intros i Hwf; [reflexivity|].
  apply andb_prop in Hwf as [Hx Hbs]. simpl display_lines.
  rewrite length_app, (book_lines_length _ _ Hx), (IH _ Hbs). simpl. lia.
Qed.

Lemma display_all_books_run w :
  forallb is_book (books w) = true ->
  display_all_books w =
  (Ok tt,
   shows match books w with
         | [] => [empty_message]
         | _ => library_header :: display_lines 1 (books w)
         end w).
Proof.
  intros Hwf. unfold display_all_books, bind at 1, get_books.
  destruct (books w) as [|b0 bs0] eqn:Eb; [reflexivity|].
  rewrite (bind_ok_run _ _ _ _ _ (print_run _ _)).
  unfold _display_books. rewrite display_from_ok by exact Hwf. now rewrite shows_shows.
Qed.

(** [_display_books] stops at the first record that has no [read] key,
    having shown the records before it. *)
Lemma display_from_missing_read i pre kv post w :
  forallb is_book pre = true -> dict_get "read" kv = None ->
  display_from i (pre ++ PDict kv :: post) w =
  (Raise (KeyError "read"), shows (display_lines i pre) w).
Proof.
  revert i w. induction pre as [|b pre IH]; intros i w Hwf Hk.
  - simpl. rewrite (bind_raise_run _ _ _ _ _ (getitem_missing _ _ _ Hk)).
    unfold shows. rewrite app_nil_r. now destruct w.
  - apply andb_prop in Hwf as [Hb Hpre].
    destruct (is_book_fields b Hb) as (t & a & y & g & r & Et & Ea & Ey & Eg & Er).
    simpl. unfold book_lines. rewrite Et, Ea, Ey, Eg, Er.
    rewrite (bind_ok_run _ _ _ _ _ (getitem_field _ _ _ _ Er)).
    rewrite (bind_ok_run _ _ _ _ _ (getitem_field _ _ _ _ Et)).
    rewrite (bind_ok_run _ _ _ _ _ (getitem_field _ _ _ _ Ea)).
    rewrite (bind_ok_run _ _ _ _ _ (getitem_field _ _ _ _ Ey)).
    unfold bind at 1, print at 1.
    rewrite (bind_ok_run _ _ _ _ _ (getitem_field _ _ _ _ Eg)).
    unfold bind at 1, print at 1.
    rewrite IH by assumption. now rewrite !shows_shows.
Qed.

Lemma search_matches_empty b : is_book b = true -> search_matches "" b = true.
Proof.
  intros Hb. destruct (is_book_fields b Hb) as (t & a & y & g & r & Et & Ea & _).
  unfold search_matches, str_field. rewrite Et, Ea. now rewrite str_in_empty.
Qed.

Lemma filter_search_empty bs :
  forallb is_book bs = true -> List.filter (search_matches "") bs = bs.
Proof.
  induction bs as [|b bs IH]; [reflexivity|]. intros [Hb Hbs]%andb_prop.
  simpl. now rewrite (search_matches_empty b Hb), IH.
Qed.

Lemma search_books_run w line rest :
  forallb is_book (books w) = true -> books w <> [] -> stdin w = line :: rest ->
  let term := lower (strip line) in
  let found := List.filter (search_matches term) (books w) in
  search_books w =
  (Ok tt,
   set_stdin rest
     (shows ([search_header; search_prompt] ++
             match found with
             | [] => [no_match_message term]
             | _ => found_header :: display_lines 1 found
             end) w)).
Proof.
  intros Hwf Hne Hin term found.
  assert (Hfound : forallb is_book found = true) by now apply filter_is_book.
  assert (Hscan : forall w0, search_scan term (books w) [] w0 = (Ok found, w0))
    by (intros w0; now rewrite search_scan_ok).
  clearbody found. unfold search_books, bind at 1, get_books. revert Hscan.
  destruct (books w) as [|b0 bs0]; [done|]. intros Hscan.
  rewrite (bind_ok_run _ _ _ _ _ (print_run _ _)).
  unfold bind at 1. rewrite input_run. change (stdin (shows _ w)) with (stdin w). rewrite Hin.
  unfold bind at 1. rewrite Hscan.
  destruct found as [|f fs].
  - rewrite print_run. now normalize_world.
  - rewrite (bind_ok_run _ _ _ _ _ (print_run _ _)).
    unfold _display_books. rewrite display_from_ok by exact Hfound. now normalize_world.
Qed.

End RecordStoreFurther.

(** ** Counting *)

Lemma genres_incr_sum g T :
  list_sum (map snd (genres_incr g T)) = S (list_sum (map snd T)).
Proof.
  induction T as [|[k c] T IH]; [reflexivity|]. simpl.
  destruct (key_eqb k g); simpl; [reflexivity|]. rewrite IH. lia.
Qed.

Section CountingProofs.
Context `{Builtins}.

Lemma count_read_le bs w n w' :
  count_read bs w = (Ok n, w') -> (n <= length bs)%nat /\ w' = w.
Proof.
  revert n w'. induction bs as [|b bs IH]; intros n w'; simpl.
  - intros [= <- <-]. split; [lia | reflexivity].
  - intros Hr. apply bind_ok_inv in Hr as (r & w1 & Er & Hr).
    apply bind_ok_inv in Hr as (m & w2 & Em & Hr). injection Hr as <- <-.
    assert (w1 = w) as ->.
    { unfold getitem in Er. destruct b; try discriminate.
      destruct (dict_get "read" kv); [now injection Er | discriminate]. }
    apply IH in Em as [Hm ->]. split; [destruct (truthy r); lia | reflexivity].
Qed.

Lemma count_genres_sum bs : forall acc w T w',
  count_genres bs acc w = (Ok T, w') ->
  list_sum (map snd T) = (list_sum (map snd acc) + length bs)%nat /\ w' = w.
Proof.
  induction bs as [|b bs IH]; intros acc w T w'; simpl.
  - intros [= <- <-]. split; [lia | reflexivity].
  - intros Hr. apply bind_ok_inv in Hr as (g & w1 & Eg & Hr).
    assert (w1 = w) as ->.
    { unfold getitem in Eg. destruct b; try discriminate.
      destruct (dict_get "genre" kv); [now injection Eg | discriminate]. }
    destruct (hashable g); [|discriminate].
    apply IH in Hr as [Hs ->]. rewrite Hs, genres_incr_sum. split; [lia | reflexivity].
Qed.

End CountingProofs.

(** ** Removal *)

Section RemovalProofs.
Context `{Builtins}.

Lemma remove_book_asks w line rest :
  books w <> [] -> stdin w = line :: rest ->
  remove_book w =
  remove_scan (strip line) 0 (books w)
    (set_stdin rest (shows [remove_header; remove_prompt] w)).
Proof.
  intros Hne Hin. unfold remove_book, bind at 1, get_books.
  destruct (books w) as [|b0 bs0]; [done|].
  rewrite (bind_ok_run _ _ _ _ _ (print_run _ _)).
  unfold bind at 1. rewrite input_run. change (stdin (shows _ w)) with (stdin w). rewrite Hin.
  now rewrite shows_shows.
Qed.

Lemma remove_scan_missing_title title i pre kv post w :
  Forall (fun x => has_title x = true /\ title_matches title x = false) pre ->
  dict_get "title" kv = None ->
  remove_scan title i (pre ++ PDict kv :: post) w = (Raise (KeyError "title"), w).
Proof.
  intros Hall Hk. revert i. induction Hall as [|x pre [Ht Hm] _ IH]; intros i.
  - simpl. now rewrite (bind_raise_run _ _ _ _ _ (getitem_missing _ _ _ Hk)).
  - simpl. unfold has_title, title_matches in *.
    destruct (str_field "title" x) as [tx|] eqn:Ex; [|discriminate].
    rewrite (bind_ok_run _ _ _ _ _ (getitem_field _ _ _ _ (str_field_field _ _ _ Ex))).
    simpl. unfold bind at 1, ret at 1. rewrite Hm. apply IH.
Qed.

(** The removal of the first match, whatever the save does. *)
Lemma remove_book_first_match w line rest pre b post t :
  stdin w = line :: rest ->
  books w = (pre ++ b :: post)%list ->
  Forall (fun x => has_title x = true /\ title_matches (strip line) x = false) pre ->
  str_field "title" b = Some t -> lower t = lower (strip line) ->
  let asked := set_stdin rest (shows [remove_header; remove_prompt] w) in
  exists w1,
    save_library (set_books (pre ++ post) asked) = (Ok tt, w1) /\
    remove_book w = (Ok tt, shows [removed_message (py_str (PStr t))] w1).
Proof.
  intros Hin Hb Hpre Et Hl asked.
  rewrite (remove_book_asks w line rest) by (rewrite ?Hb; try done; now destruct pre).
  fold asked. rewrite Hb, (remove_scan_first_match _ _ _ _ _ t _ Hpre Et Hl). simpl.
  assert (Hbooks : books asked = (pre ++ b :: post)%list) by exact Hb.
  rewrite (bind_ok_run _ _ _ _ _ (pop_middle _ _ _ _ Hbooks)).
  destruct (never_raises_save_library (set_books (pre ++ post) asked)) as ([] & w1 & Es).
  exists w1. split; [exact Es|].
  rewrite (bind_ok_run _ _ _ _ _ Es).
  rewrite (bind_ok_run _ _ _ _ _ (getitem_field _ _ _ _ (str_field_field _ _ _ Et))).
  reflexivity.
Qed.

End RemovalProofs.

Section RecordStoreTheorems.
Context `{Builtins}.

(** Property X12.

    [display_all_books], [display_statistics] and [search_books] (lines
    75-141) change neither the library nor any file, on every library
    and whether they return or raise; the first two leave the input as
    it is too. *)
Theorem reports_change_nothing w :
  let unchanged w' := books w' = books w /\ files w' = files w in
  (unchanged (display_all_books w).2 /\ stdin (display_all_books w).2 = stdin w) /\
  (unchanged (display_statistics w).2 /\ stdin (display_statistics w).2 = stdin w) /\
  unchanged (search_books w).2.
Proof.
  intros unchanged.
  assert (Hu : forall f w', writes_books f = false -> writes_files f = [] ->
                 within f w w' -> unchanged w').
  { intros f w' Hb Hf Hw. split; [now apply Hw | now apply (within_files f)]. }
  split; [|split].
  - destruct (display_all_books w) as [r w'] eqn:E.
    apply (within_display_all_books shows_only) in E. split; [now apply (Hu shows_only)|].
    now apply E.
  - destruct (display_statistics w) as [r w'] eqn:E.
    apply (within_display_statistics shows_only) in E. split; [now apply (Hu shows_only)|].
    now apply E.
  - destruct (search_books w) as [r w'] eqn:E.
    apply (within_search_books answers eq_refl) in E. now apply (Hu answers).
Qed.

(** Property X13.

    [display_all_books] (lines 97-104, 133-141) on a library of book
    records shows the header and then two lines for each record, in the
    order of the library and numbered from 1; on the empty library it
    shows only that the library is empty. *)
Theorem display_all_books_lists w :
  forallb is_book (books w) = true ->
  display_all_books w =
  (Ok tt,
   shows match books w with
         | [] => [empty_message]
         | _ => library_header :: display_lines 1 (books w)
         end w) /\
  length (display_lines 1 (books w)) = (2 * length (books w))%nat /\
  (forall k b,
     books w !! k = Some b ->
     take 2 (drop (2 * k) (display_lines 1 (books w))) = book_lines (S k) b).
Proof.
  intros Hwf. split; [now apply display_all_books_run|].
  split; [now apply display_lines_length|].
  intros k b Hk. now apply (display_lines_at (books w) 1 k b).
Qed.

(** Property X14.

    [_display_books] (lines 136-141) reads the key [read] of a record
    first: at the first record without it, [display_all_books] raises
    [KeyError], having shown the records before it and none after. *)
Theorem display_stops_at_missing_read w pre kv post :
  books w = (pre ++ PDict kv :: post)%list ->
  forallb is_book pre = true ->
  dict_get "read" kv = None ->
  display_all_books w =
  (Raise (KeyError "read"), shows (library_header :: display_lines 1 pre) w).
Proof.
  intros Hb Hpre Hk. unfold display_all_books, bind at 1, get_books. rewrite Hb.
  destruct (pre ++ PDict kv :: post)%list as [|b0 bs0] eqn:E; [now destruct pre|].
  rewrite <- E. rewrite (bind_ok_run _ _ _ _ _ (print_run _ _)).
  unfold _display_books. rewrite display_from_missing_read by assumption.
  now rewrite shows_shows.
Qed.

(** Property X11.

    [search_books] (lines 83-93) with an empty search term, or one of
    white space only, lists the whole library: the empty string is in
    every title. *)
Theorem search_empty_term_lists_all w line rest :
  forallb is_book (books w) = true -> books w <> [] ->
  stdin w = line :: rest -> strip line = "" ->
  search_books w =
  (Ok tt,
   set_stdin rest
     (shows ([search_header; search_prompt; found_header] ++ display_lines 1 (books w)) w)).
Proof.
  intros Hwf Hne Hin Hs. rewrite (search_books_run w line rest Hwf Hne Hin), Hs.
  change (lower "") with "".
  rewrite (filter_search_empty _ Hwf). destruct (books w); [done | reflexivity].
Qed.

(** Property X15.

    The counts of [display_statistics] (lines 113-127) add up: the
    number of records read is at most the number of records, and the
    counts of the genres sum to it. *)
Theorem statistics_counts_add_up bs w read_books genres w1 w2 :
  count_read bs w = (Ok read_books, w1) ->
  count_genres bs [] w = (Ok genres, w2) ->
  (read_books <= length bs)%nat /\ list_sum (map snd genres) = length bs.
Proof.
  intros Er Eg. apply count_read_le in Er as [Hr _].
  apply count_genres_sum in Eg as [Hg _]. split; [exact Hr | exact Hg].
Qed.

(** Property X10.

    [remove_book] (lines 66-71) looks up the key [title] of each record
    it passes: at a record without it, met before any match, it raises
    [KeyError]; nothing is removed and nothing is saved, even if a
    later record matches. *)
Theorem remove_stops_at_missing_title w line rest pre kv post :
  books w = (pre ++ PDict kv :: post)%list ->
  stdin w = line :: rest ->
  Forall (fun x => has_title x = true /\ title_matches (strip line) x = false) pre ->
  dict_get "title" kv = None ->
  remove_book w =
  (Raise (KeyError "title"), set_stdin rest (shows [remove_header; remove_prompt] w)).
Proof.
  intros Hb Hin Hpre Hk.
  rewrite (remove_book_asks w line rest) by (rewrite ?Hb; try done; now destruct pre).
  rewrite Hb. now apply remove_scan_missing_title.
Qed.

(** Property X9.

    [add_book] then [remove_book] of the title just added (in any case)
    gives back the library as it was, when no record had that title;
    with no failure of the file system the primary file holds it
    again. *)
Theorem add_then_remove w title author year_line year genre answer line rest :
  stdin w = title :: author :: year_line :: genre :: answer :: line :: rest ->
  year_of year_line = Some year ->
  lower (strip line) = lower (strip title) ->
  Forall (fun x => has_title x = true /\ title_matches (strip line) x = false) (books w) ->
  exists w1 w2,
    add_book w = (Ok tt, w1) /\ remove_book w1 = (Ok tt, w2) /\
    books w1 = (books w ++ [new_book title author year genre answer])%list /\
    books w2 = books w /\ stdin w2 = rest /\
    (faults w = [] -> files w2 !! filename = Some (json_dumps (books w))).
Proof.
  intros Hin Hy Hl Hall.
  rewrite (add_book_run w title author [] year_line year genre answer (line :: rest)
             Hin (Forall_nil_2 _) Hy).
  set (w0 := set_books _ _).
  destruct (never_raises_save_library w0) as ([] & wa & Ea).
  rewrite (bind_ok_run _ _ _ _ _ Ea), print_run.
  destruct (save_library_within _ _ _ Ea) as (Hba & Hia & _).
  specialize (Hba eq_refl). specialize (Hia eq_refl).
  set (w1 := shows _ wa).
  assert (Hb1 : books w1 = (books w ++ [new_book title author year genre answer])%list)
    by exact Hba.
  assert (Hi1 : stdin w1 = line :: rest) by exact Hia.
  destruct (remove_book_first_match w1 line rest (books w)
              (new_book title author year genre answer) [] (strip title)
              Hi1 Hb1 Hall eq_refl (eq_sym Hl)) as (wb & Eb & Er).
  exists w1, (shows [removed_message (py_str (PStr (strip title)))] wb).
  split; [reflexivity|]. split; [exact Er|]. split; [exact Hb1|].
  destruct (save_library_within _ _ _ Eb) as (Hbb & Hib & _).
  split; [|split].
  - simpl. rewrite (Hbb eq_refl). simpl. apply app_nil_r.
  - simpl. rewrite (Hib eq_refl). reflexivity.
  - intros Hclean.
    rewrite save_library_clean in Ea by exact Hclean. injection Ea as <-.
    rewrite save_library_clean in Eb by exact Hclean. injection Eb as <-.
    simpl. rewrite lookup_insert_eq, app_nil_r. reflexivity.
Qed.

End RecordStoreTheorems.

(** * export_to_txt *)

Lemma raises_only_getitem v k : raises_only is_exception (getitem v k).
Proof.
  intros w e w'. unfold getitem. destruct v; try (now intros [= <- _]).
  destruct (dict_get k kv); [discriminate | now intros [= <- _]].
Qed.

Lemma open_write_written p w : faults w = [] -> open p ModeW w = (Ok p, written p "" w).
Proof. apply open_write_clean. Qed.

Lemma write_written p c d w :
  faults w = [] -> write p d (written p c w) = (Ok tt, written p (c +:+ d) w).
Proof.
  intros Hf. rewrite write_clean by exact Hf. unfold written, file_content. simpl.
  rewrite lookup_insert_eq, insert_insert_eq. now destruct w.
Qed.

Section ExportProofs.
Context `{Builtins}.

Lemma raises_only_export_from p i bs : raises_only is_exception (export_from p i bs).
Proof.
  revert i. induction bs as [|b bs IH]; intros i; simpl; [apply raises_only_ret|].
  repeat (apply raises_only_bind;
          [first [apply raises_only_write | apply raises_only_getitem] | intros ?]).
  apply IH.
Qed.

Lemma never_raises_export_to_txt p : never_raises (export_to_txt p).
Proof.
  apply never_raises_try; [|intros e; apply never_raises_print].
  apply raises_only_with_open. intros f.
  apply raises_only_bind; [apply raises_only_write | intros _].
  apply raises_only_bind; [intros w e w'; discriminate | intros bs].
  apply raises_only_bind; [apply raises_only_write | intros _].
  apply raises_only_bind; [apply raises_only_write | intros _].
  apply raises_only_bind; [intros w e w'; discriminate | intros bs'].
  apply raises_only_bind; [apply raises_only_export_from | intros _].
  apply raises_only_print.
Qed.

Lemma export_from_clean p bs : forall i c w,
  faults w = [] -> forallb is_book bs = true ->
  export_from p i bs (written p c w) = (Ok tt, written p (c +:+ export_entries i bs) w).
Proof.
  induction bs as [|b bs IH]; intros i c w Hf Hwf.
  - simpl. now rewrite Decoding.append_nil_r.
  - apply andb_prop in Hwf as [Hb Hbs].
    destruct (is_book_fields b Hb) as (t & a & y & g & r & Et & Ea & Ey & Eg & Er).
    simpl. unfold export_entry. rewrite Et, Ea, Ey, Eg, Er.
    rewrite (bind_ok_run _ _ _ _ _ (write_written _ _ _ _ Hf)).
    rewrite (bind_ok_run _ _ _ _ _ (getitem_field _ _ _ _ Et)).
    rewrite (bind_ok_run _ _ _ _ _ (write_written _ _ _ _ Hf)).
    rewrite (bind_ok_run _ _ _ _ _ (getitem_field _ _ _ _ Ea)).
    rewrite (bind_ok_run _ _ _ _ _ (write_written _ _ _ _ Hf)).
    rewrite (bind_ok_run _ _ _ _ _ (getitem_field _ _ _ _ Ey)).
    rewrite (bind_ok_run _ _ _ _ _ (write_written _ _ _ _ Hf)).
    rewrite (bind_ok_run _ _ _ _ _ (getitem_field _ _ _ _ Eg)).
    rewrite (bind_ok_run _ _ _ _ _ (write_written _ _ _ _ Hf)).
    rewrite (bind_ok_run _ _ _ _ _ (getitem_field _ _ _ _ Er)).
    rewrite (bind_ok_run _ _ _ _ _ (write_written _ _ _ _ Hf)).
    rewrite (bind_ok_run _ _ _ _ _ (write_written _ _ _ _ Hf)).
    rewrite IH by assumption. now rewrite !Decoding.append_assoc.
Qed.

(** The loop stops at the first record without a title, after the line
    that numbers it. *)
Lemma export_from_missing_title p pre kv post : forall i c w,
  faults w = [] -> forallb is_book pre = true -> dict_get "title" kv = None ->
  export_from p i (pre ++ PDict kv :: post) (written p c w) =
  (Raise (KeyError "title"),
   written p (c +:+ export_entries i pre +:+
              "Book #" +:+ str_nat (i + length pre) +:+ ":" +:+ nl) w).
Proof.
  induction pre as [|b pre IH]; intros i c w Hf Hwf Hk.
  - simpl. rewrite (bind_ok_run _ _ _ _ _ (write_written _ _ _ _ Hf)).
    rewrite (bind_raise_run _ _ _ _ _ (getitem_missing _ _ _ Hk)).
    now rewrite Nat.add_0_r.
  - apply andb_prop in Hwf as [Hb Hpre].
    destruct (is_book_fields b Hb) as (t & a & y & g & r & Et & Ea & Ey & Eg & Er).
    simpl. unfold export_entry. rewrite Et, Ea, Ey, Eg, Er.
    rewrite (bind_ok_run _ _ _ _ _ (write_written _ _ _ _ Hf)).
    rewrite (bind_ok_run _ _ _ _ _ (getitem_field _ _ _ _ Et)).
    rewrite (bind_ok_run _ _ _ _ _ (write_written _ _ _ _ Hf)).
    rewrite (bind_ok_run _ _ _ _ _ (getitem_field _ _ _ _ Ea)).
    rewrite (bind_ok_run _ _ _ _ _ (write_written _ _ _ _ Hf)).
    rewrite (bind_ok_run _ _ _ _ _ (getitem_field _ _ _ _ Ey)).
    rewrite (bind_ok_run _ _ _ _ _ (write_written _ _ _ _ Hf)).
    rewrite (bind_ok_run _ _ _ _ _ (getitem_field _ _ _ _ Eg)).
    rewrite (bind_ok_run _ _ _ _ _ (write_written _ _ _ _ Hf)).
    rewrite (bind_ok_run _ _ _ _ _ (getitem_field _ _ _ _ Er)).
    rewrite (bind_ok_run _ _ _ _ _ (write_written _ _ _ _ Hf)).
    rewrite (bind_ok_run _ _ _ _ _ (write_written _ _ _ _ Hf)).
    rewrite IH by assumption. rewrite Nat.add_succ_r. now rewrite !Decoding.append_assoc.
Qed.

(** The three writes that come before the loop. *)
Lemma export_head_clean p w (k : unit -> M unit) :
  faults w = [] ->
  (let* _ := write p export_title in
   let* bs := get_books in
   let* _ := write p (export_total (length bs)) in
   let* _ := write p export_rule in
   k tt) (written p "" w) =
  k tt (written p (export_title +:+ export_total (length (books w)) +:+ export_rule) w).
Proof.
  intros Hf.
  rewrite (bind_ok_run _ _ _ _ _ (write_written _ _ _ _ Hf)).
  unfold bind at 1, get_books at 1.
  rewrite (bind_ok_run _ _ _ _ _ (write_written _ _ _ _ Hf)).
  rewrite (bind_ok_run _ _ _ _ _ (write_written _ _ _ _ Hf)).
  now rewrite Decoding.append_nil_l, !Decoding.append_assoc.
Qed.

End ExportProofs.

Section ExportTheorems.
Context `{Builtins}.

(** Property X16.

    [export_to_txt] (lines 219-241) returns in every world, whatever
    the library holds and whatever the file system does; it changes
    neither the library nor the input, and no file but the one it
    exports to. *)
Theorem export_never_raises p w :
  exists w',
    export_to_txt p w = (Ok tt, w') /\
    books w' = books w /\ stdin w' = stdin w /\
    (forall q, q <> p -> files w' !! q = files w !! q).
Proof.
  destruct (never_raises_export_to_txt p w) as ([] & w' & E). exists w'.
  split; [exact E|].
  apply (within_export_to_txt (exports p) p ltac:(repeat constructor)) in E
    as (Hb & Hi & _ & Hf & _).
  split; [exact (Hb eq_refl)|]. split; [exact (Hi eq_refl)|].
  intros q Hq. apply Hf. simpl. rewrite not_elem_of_cons. split; [exact Hq | apply not_elem_of_nil].
Qed.

(** Property X17.

    With no failure of the file system, [export_to_txt] replaces the
    content of the file by the report of a library of book records: the
    title, the number of records, and one numbered entry for each, in
    the order of the library.  There is no guard for the empty library:
    its report is the title and a total of 0. *)
Theorem export_writes_report p w :
  faults w = [] -> forallb is_book (books w) = true ->
  export_to_txt p w =
  (Ok tt, shows [exported_message p] (written p (export_text (books w)) w)).
Proof.
  intros Hf Hwf. unfold export_to_txt. apply try_except_ok_run.
  apply (with_open_clean _ _ _ _ _ _ _ (open_write_written p w Hf)); [|exact Hf].
  rewrite (export_head_clean p w
             (fun _ => let* bs := get_books in
                       let* _ := export_from p 1 bs in
                       print (exported_message p)) Hf).
  unfold bind at 1, get_books at 1.
  rewrite (bind_ok_run _ _ _ _ _ (export_from_clean p _ _ _ _ Hf Hwf)).
  rewrite print_run. unfold export_text. now rewrite !Decoding.append_assoc.
Qed.

(** Property X18.

    An export is not all or nothing: at the first record without a
    title, [export_to_txt] reports the [KeyError] and leaves the file
    with the entries of the records before it and the line that numbers
    the record it stopped at. *)
Theorem export_stops_at_missing_title p w pre kv post :
  faults w = [] ->
  books w = (pre ++ PDict kv :: post)%list ->
  forallb is_book pre = true -> dict_get "title" kv = None ->
  export_to_txt p w =
  (Ok tt,
   shows [export_error (KeyError "title")]
     (written p
        (export_title +:+ export_total (length (books w)) +:+ export_rule +:+
         export_entries 1 pre +:+
         "Book #" +:+ str_nat (S (length pre)) +:+ ":" +:+ nl) w)).
Proof.
  intros Hf Hb Hpre Hk. unfold export_to_txt.
  erewrite try_except_raise_run; [apply print_run| |reflexivity].
  apply (with_open_clean _ _ _ _ _ _ _ (open_write_written p w Hf)); [|exact Hf].
  rewrite (export_head_clean p w
             (fun _ => let* bs := get_books in
                       let* _ := export_from p 1 bs in
                       print (exported_message p)) Hf).
  unfold bind at 1, get_books at 1.
  change (books (written _ _ w)) with (books w).
  pose proof (export_from_missing_title p pre kv post 1
                (export_title +:+ export_total (length (books w)) +:+ export_rule)
                w Hf Hpre Hk) as E.
  rewrite <- Hb in E. rewrite (bind_raise_run _ _ _ _ _ E).
  now rewrite !Decoding.append_assoc.
Qed.

End ExportTheorems.

(** * The library stays a library of book records *)

#[local] Instance tidy_refl : Reflexive tidy.
Proof. now intros w. Qed.

#[local] Instance tidy_trans : Transitive tidy.
Proof. intros a b c Hab Hbc Ha. auto. Qed.

Lemma tidy_of_within {A} f (m : M A) :
  writes_books f = false -> preserves (within f) m -> preserves tidy m.
Proof. intros Hf Hm w r w' E Hwf. apply Hm in E as (Hb & _). now rewrite (Hb Hf). Qed.

Lemma tidy_append b : is_book b = true -> preserves tidy (append b).
Proof.
  intros Hb w r w' [= _ <-] Hwf. simpl. rewrite forallb_app, Hwf. simpl. now rewrite Hb.
Qed.

Lemma forallb_delete {A} (f : A -> bool) i l :
  forallb f l = true -> forallb f (delete i l) = true.
Proof.
  revert i. induction l as [|x l IH]; intros i; [now destruct i|].
  intros [Hx Hl]%andb_prop. destruct i as [|i]; simpl; [exact Hl|].
  now rewrite Hx, (IH i Hl).
Qed.

Lemma tidy_pop i : preserves tidy (pop i).
Proof.
  intros w r w' E Hwf. unfold pop in E. destruct (books w !! i); injection E as _ <-.
  - simpl. now apply forallb_delete.
  - exact Hwf.
Qed.

(** The first record that matches a title, if there is one. *)
Lemma first_match_dec `{Builtins} title bs :
  Forall (fun x => has_title x = true) bs ->
  Forall (fun x => has_title x = true /\ title_matches title x = false) bs \/
  exists pre b post t,
    bs = (pre ++ b :: post)%list /\
    Forall (fun x => has_title x = true /\ title_matches title x = false) pre /\
    str_field "title" b = Some t /\ lower t = lower title.
Proof.
  induction 1 as [|b bs Hb _ IH]; [left; constructor|].
  destruct (title_matches title b) eqn:Em.
  - right. unfold title_matches in Em. destruct (str_field "title" b) as [t|] eqn:Et; [|discriminate].
    exists [], b, bs, t. split; [reflexivity|]. split; [constructor|].
    split; [exact Et | now apply String.eqb_eq].
  - destruct IH as [IH | (pre & x & post & t & -> & Hpre & Et & Hl)].
    + left. now constructor.
    + right. exists (b :: pre), x, post, t. split; [reflexivity|].
      split; [now constructor | now split].
Qed.

Lemma is_book_has_title b : is_book b = true -> has_title b = true.
Proof.
  intros Hb. destruct (is_book_fields b Hb) as (t & _ & _ & _ & _ & Et & _).
  unfold has_title, str_field. now rewrite Et.
Qed.

Section TidyProofs.
Context `{Builtins}.

Lemma tidy_print s : preserves tidy (print s).
Proof. apply (tidy_of_within shows_only); [reflexivity | apply within_print]. Qed.

Lemma tidy_input p : preserves tidy (input p).
Proof. apply (tidy_of_within answers); [reflexivity | now apply within_input]. Qed.

Lemma tidy_save_library : preserves tidy save_library.
Proof. apply (tidy_of_within saves); [reflexivity | intros w r w'; apply save_library_within]. Qed.

Lemma tidy_add_book : preserves tidy add_book.
Proof.
  unfold add_book.
  apply preserves_bind; [apply _ | apply tidy_print | intros _].
  apply preserves_bind; [apply _ | apply tidy_input | intros l1].
  apply preserves_bind; [apply _ | apply tidy_input | intros l2].
  apply preserves_bind; [apply _ | | intros year].
  { apply (tidy_of_within answers); [reflexivity | now apply within_read_year]. }
  apply preserves_bind; [apply _ | apply tidy_input | intros l3].
  apply preserves_bind; [apply _ | apply tidy_input | intros l4].
  apply preserves_bind; [apply _ | now apply tidy_append | intros _].
  apply preserves_bind; [apply _ | apply tidy_save_library | intros _].
  apply tidy_print.
Qed.

Lemma tidy_remove_scan title i bs : preserves tidy (remove_scan title i bs).
Proof.
  revert i. induction bs as [|b bs IH]; intros i; simpl; [apply tidy_print|].
  apply preserves_bind; [apply _ | | intros t].
  { apply (tidy_of_within shows_only); [reflexivity | apply within_getitem]. }
  apply preserves_bind; [apply _ | | intros tl].
  { apply (tidy_of_within shows_only); [reflexivity | apply within_method_lower]. }
  destruct (String.eqb tl (lower title)); [|apply IH].
  apply preserves_bind; [apply _ | apply tidy_pop | intros removed].
  apply preserves_bind; [apply _ | apply tidy_save_library | intros _].
  apply preserves_bind; [apply _ | | intros rt; apply tidy_print].
  apply (tidy_of_within shows_only); [reflexivity | apply within_getitem].
Qed.

Lemma tidy_remove_book : preserves tidy remove_book.
Proof.
  unfold remove_book.
  apply preserves_bind; [apply _ | | intros bs].
  { apply (tidy_of_within shows_only); [reflexivity | apply within_get_books]. }
  destruct bs; [apply tidy_print|].
  apply preserves_bind; [apply _ | apply tidy_print | intros _].
  apply preserves_bind; [apply _ | apply tidy_input | intros line].
  apply tidy_remove_scan.
Qed.

Lemma tidy_dispatch choice : preserves tidy (dispatch choice).
Proof.
  unfold dispatch.
  repeat match goal with |- preserves _ (if ?b then _ else _) => destruct b end;
    (apply preserves_bind; [apply _ | | intros _]);
    try apply preserves_ret, _; try apply tidy_print.
  - apply tidy_add_book.
  - apply tidy_remove_book.
  - apply (tidy_of_within answers); [reflexivity | now apply within_search_books].
  - apply (tidy_of_within shows_only); [reflexivity | apply within_display_all_books].
  - apply (tidy_of_within shows_only); [reflexivity | apply within_display_statistics].
  - apply (tidy_of_within (exports export_filename)); [reflexivity|].
    apply within_export_to_txt. repeat constructor.
  - apply preserves_bind; [apply _ | apply tidy_save_library | intros _].
    apply preserves_bind; [apply _ | apply tidy_print | intros _]. apply preserves_ret, _.
Qed.

(** ** What can end a turn *)

Lemma raises_only_add_book : raises_only is_eof add_book.
Proof.
  unfold add_book.
  apply raises_only_bind; [apply raises_only_print | intros _].
  apply raises_only_bind; [apply raises_only_input | intros l1].
  apply raises_only_bind; [apply raises_only_input | intros l2].
  apply raises_only_bind; [apply raises_only_read_year | intros year].
  apply raises_only_bind; [apply raises_only_input | intros l3].
  apply raises_only_bind; [apply raises_only_input | intros l4].
  apply raises_only_bind; [intros w e w'; discriminate | intros _].
  apply raises_only_bind; [apply raises_only_never, never_raises_save_library | intros _].
  apply raises_only_print.
Qed.

Lemma remove_book_ends_well w r w' :
  forallb is_book (books w) = true -> remove_book w = (r, w') -> ends_well r.
Proof.
  intros Hwf. destruct (books w) as [|b0 bs0] eqn:Eb.
  { unfold remove_book, bind, get_books. rewrite Eb. now intros [= <- _]. }
  destruct (stdin w) as [|line rest] eqn:Ein.
  { unfold remove_book, bind, get_books, print, input. rewrite Eb. simpl.
    rewrite Ein. now intros [= <- _]. }
  assert (Hne : books w <> []) by now rewrite Eb.
  assert (Ht : Forall (fun x => has_title x = true) (books w)).
  { rewrite <- Eb in Hwf. apply forallb_Forall in Hwf.
    eapply Forall_impl; [exact Hwf | apply is_book_has_title]. }
  rewrite <- Eb in *. clear Eb.
  destruct (first_match_dec (strip line) (books w) Ht)
    as [Hnone | (pre & b & post & t & Hb & Hpre & Et & Hl)].
  - rewrite (remove_book_asks w line rest Hne Ein), remove_scan_no_match by exact Hnone.
    now intros [= <- _].
  - destruct (remove_book_first_match w line rest pre b post t Ein Hb Hpre Et Hl)
      as (w1 & _ & ->).
    now intros [= <- _].
Qed.

Lemma search_books_ends_well w r w' :
  forallb is_book (books w) = true -> search_books w = (r, w') -> ends_well r.
Proof.
  intros Hwf. destruct (books w) as [|b0 bs0] eqn:Eb.
  { unfold search_books, bind, get_books. rewrite Eb. now intros [= <- _]. }
  destruct (stdin w) as [|line rest] eqn:Ein.
  { unfold search_books, bind, get_books, print, input. rewrite Eb. simpl.
    rewrite Ein. now intros [= <- _]. }
  rewrite (search_books_run w line rest); [now intros [= <- _] | | | exact Ein];
    now rewrite Eb.
Qed.

Lemma display_statistics_returns w :
  forallb is_book (books w) = true -> exists w', display_statistics w = (Ok tt, w').
Proof.
  intros Hwf. unfold display_statistics, bind at 1, get_books.
  destruct (books w) as [|b0 bs0] eqn:Eb; [eexists; reflexivity|].
  rewrite (bind_ok_run _ _ _ _ _ (count_read_ok _ _ Hwf)).
  rewrite !(bind_ok_run _ _ _ _ _ (print_run _ _)).
  rewrite (bind_ok_run _ _ _ _ _ (count_genres_ok _ _ _ Hwf)).
  rewrite (bind_ok_run _ _ _ _ _ (print_run _ _)).
  rewrite print_genres_ok. eexists; reflexivity.
Qed.

Lemma dispatch_ends_well choice w r w' :
  forallb is_book (books w) = true -> dispatch choice w = (r, w') -> ends_well r.
Proof.
  intros Hwf. unfold dispatch.
  assert (Hstep : forall (m : M unit) (b : bool),
            (forall r0 w0, m w = (r0, w0) -> ends_well r0) ->
            (let* _ := m in ret b) w = (r, w') -> ends_well r).
  { intros m b Hm. unfold bind. destruct (m w) as [[[]|e] w0] eqn:E.
    - now intros [= <- _].
    - intros [= <- _]. exact (Hm _ _ eq_refl). }
  repeat match goal with |- (if ?b then _ else _) _ = _ -> _ => destruct b end.
  - apply Hstep. intros [a|e] w0 E; [exact I|]. apply raises_only_add_book in E.
    now destruct e.
  - apply Hstep. intros r0 w0. now apply remove_book_ends_well.
  - apply Hstep. intros r0 w0. now apply search_books_ends_well.
  - apply Hstep. intros r0 w0. rewrite display_all_books_run by exact Hwf. now intros [= <- _].
  - apply Hstep. intros r0 w0. destruct (display_statistics_returns w Hwf) as (w1 & ->).
    now intros [= <- _].
  - apply Hstep. intros r0 w0. destruct (never_raises_export_to_txt export_filename w)
      as ([] & w1 & ->). now intros [= <- _].
  - rewrite (bind_ok_run _ _ _ _ _ (print_run _ _)).
    destruct (never_raises_save_library (shows [exit_message] w)) as ([] & w1 & E).
    rewrite (bind_ok_run _ _ _ _ _ E), (bind_ok_run _ _ _ _ _ (print_run _ _)).
    now intros [= <- _].
  - apply Hstep. intros r0 w0 [= <- _]. exact I.
Qed.

Lemma menu_turn_keeps_books : keeps_books menu_turn.
Proof.
  intros w r w' Hwf. rewrite menu_turn_run. destruct (stdin w) as [|line rest].
  - intros [= <- <-]. split; [reflexivity | exact Hwf].
  - intros E. split.
    + eapply dispatch_ends_well; [|exact E]. exact Hwf.
    + eapply tidy_dispatch; [exact E | exact Hwf].
Qed.

Lemma main_loop_from_keeps_books lines : keeps_books (main_loop_from lines).
Proof.
  induction lines as [|l lines IH]; intros w r w' Hwf; simpl; unfold bind;
    destruct (menu_turn w) as [[[|]|e] w1] eqn:Et;
    destruct (menu_turn_keeps_books _ _ _ Hwf Et) as [Hr Hb];
    try (intros [= <- <-]; split; [done | exact Hb]).
  now apply IH.
Qed.

End TidyProofs.

(** * main *)

Section MainProofs.
Context `{Builtins}.

(** A turn of the loop on a typed choice, and what follows it. *)
Lemma main_loop_choice w line rest :
  stdin w = line :: rest ->
  main_loop w =
  (let* stop := dispatch (strip line) in if stop then ret tt else main_loop)
    (set_stdin rest (shows (menu ++ [choice_prompt]) w)).
Proof.
  intros Hin. rewrite main_loop_unfold. unfold bind. now rewrite menu_turn_run, Hin.
Qed.

Lemma then_again (m : M unit) w :
  (let* stop := (let* _ := m in ret false) in if stop then ret tt else main_loop) w =
  (let* _ := m in main_loop) w.
Proof. unfold bind. now destruct (m w) as [[[]|e] w1]. Qed.

Lemma main_loop_eof w :
  stdin w = [] -> main_loop w = (Raise EOFError, shows (menu ++ [choice_prompt]) w).
Proof. intros Hin. rewrite main_loop_unfold. unfold bind. now rewrite menu_turn_run, Hin. Qed.

(** Only the choice 7 leaves the loop: by a save and a goodbye. *)
Lemma dispatch_leaves choice w w' :
  dispatch choice w = (Ok true, w') ->
  exists w2,
    save_library (shows [exit_message] w) = (Ok tt, w2) /\
    w' = shows [goodbye_message] w2.
Proof.
  unfold dispatch.
  assert (Hno : forall (m : M unit), (let* _ := m in ret false) w <> (Ok true, w')).
  { intros m. unfold bind. destruct (m w) as [[[]|e] w0]; discriminate. }
  repeat match goal with |- (if ?b then _ else _) _ = _ -> _ => destruct b end;
    try (intros E; now apply Hno in E).
  rewrite (bind_ok_run _ _ _ _ _ (print_run _ _)).
  destruct (never_raises_save_library (shows [exit_message] w)) as ([] & w2 & E).
  rewrite (bind_ok_run _ _ _ _ _ E), (bind_ok_run _ _ _ _ _ (print_run _ _)).
  intros [= <-]. now exists w2.
Qed.

Lemma within_menu_turn : preserves (within session) menu_turn.
Proof.
  intros w r w'. rewrite menu_turn_run. destruct (stdin w) as [|line rest] eqn:E.
  - intros [= _ <-]. now apply within_steady.
  - intros Hr. apply within_dispatch in Hr. etransitivity; [|exact Hr].
    repeat split; simpl; try done. rewrite E. now apply suffix_cons_r.
Qed.

Lemma main_loop_from_leaves lines : forall w w',
  main_loop_from lines w = (Ok tt, w') ->
  exists w1 w2,
    save_library w1 = (Ok tt, w2) /\ w' = shows [goodbye_message] w2 /\
    faults w1 `suffix_of` faults w.
Proof.
  induction lines as [|l lines IH]; intros w w' Hr; simpl in Hr;
    apply bind_ok_inv in Hr as ([|] & wa & Et & Hr); try discriminate.
  - injection Hr as <-. rewrite menu_turn_run in Et.
    destruct (stdin w) as [|line rest]; [discriminate|].
    apply dispatch_leaves in Et as (w2 & Es & ->). eauto.
  - injection Hr as <-. rewrite menu_turn_run in Et.
    destruct (stdin w) as [|line rest]; [discriminate|].
    apply dispatch_leaves in Et as (w2 & Es & ->). eauto.
  - apply IH in Hr as (w1 & w2 & Es & -> & Hf). exists w1, w2.
    split; [exact Es|]. split; [reflexivity|].
    etransitivity; [exact Hf|].
    apply within_menu_turn in Et as (_ & _ & _ & _ & Hx). exact Hx.
Qed.

Lemma init_clean w :
  faults w = [] ->
  exists w', init w = (Ok tt, w') /\
             books w' = load_spec (files w) /\
             files w' = files w /\ stdin w' = stdin w /\ faults w' = [].
Proof.
  intros Hf. unfold init, bind at 1, put_books.
  destruct (load_library_clean (set_books [] w) Hf) as (w' & E & Hb & Hfs & Hi & Hx).
  exists w'. now rewrite E.
Qed.

End MainProofs.

Section MainTheorems.
Context `{Builtins}.

(** Property X19.

    The menu of [main] (lines 248-273): on the choices 1 to 6, spaces
    around them aside, the loop runs the method of the choice on the
    lines that follow and then shows the menu again; an exception of
    the method leaves the loop, since [main] handles none. *)
Theorem menu_runs_choice_then_asks_again w line rest :
  stdin w = line :: rest ->
  let asked := set_stdin rest (shows (menu ++ [choice_prompt]) w) in
  let runs (m : M unit) := main_loop w = (let* _ := m in main_loop) asked in
  (strip line = "1" -> runs add_book) /\
  (strip line = "2" -> runs remove_book) /\
  (strip line = "3" -> runs search_books) /\
  (strip line = "4" -> runs display_all_books) /\
  (strip line = "5" -> runs display_statistics) /\
  (strip line = "6" -> runs (export_to_txt export_filename)).
Proof.
  intros Hin asked runs. unfold runs.
  repeat split; intros Hc; rewrite (main_loop_choice w line rest Hin), Hc; apply then_again.
Qed.

(** Property X20.

    The choice 7 (lines 274-278) saves the library and leaves the loop:
    the loop returns, whatever the file system does, and reads no line
    after the choice.  With no failure the primary file then holds the
    library. *)
Theorem exit_saves_and_returns w line rest :
  stdin w = line :: rest -> strip line = "7" ->
  exists w',
    main_loop w = (Ok tt, w') /\
    books w' = books w /\ stdin w' = rest /\
    (faults w = [] ->
     files w' !! filename = Some (json_dumps (books w)) /\
     stdout w' = (stdout w ++ menu ++
                    [choice_prompt; exit_message; saved_message; goodbye_message])%list).
Proof.
  intros Hin Hc. rewrite (main_loop_choice w line rest Hin), Hc.
  set (asked := set_stdin rest _). unfold dispatch. simpl String.eqb. cbv iota.
  unfold bind at 1. rewrite (bind_ok_run _ _ _ _ _ (print_run _ _)).
  destruct (never_raises_save_library (shows [exit_message] asked)) as ([] & w1 & Es).
  rewrite (bind_ok_run _ _ _ _ _ Es), (bind_ok_run _ _ _ _ _ (print_run _ _)).
  eexists. split; [reflexivity|].
  destruct (save_library_within _ _ _ Es) as (Hb & Hi & _).
  split; [exact (Hb eq_refl)|]. split; [exact (Hi eq_refl)|].
  intros Hclean. clear Hb Hi. rewrite save_library_clean in Es by exact Hclean.
  injection Es as <-. split; [apply lookup_insert_eq|].
  subst asked. simpl. repeat (rewrite <- app_assoc || rewrite <- app_comm_cons). reflexivity.
Qed.

(** Property X21.

    Any other choice (lines 279-280) is answered by a message and the
    menu is shown again: nothing else has changed. *)
Theorem invalid_choice_asks_again w line rest :
  stdin w = line :: rest ->
  strip line ∉ ["1"; "2"; "3"; "4"; "5"; "6"; "7"] ->
  main_loop w =
  main_loop (set_stdin rest
               (shows (menu ++ [choice_prompt; invalid_choice_message]) w)).
Proof.
  intros Hin Hc. rewrite (main_loop_choice w line rest Hin).
  assert (Hne : forall c, c ∈ ["1"; "2"; "3"; "4"; "5"; "6"; "7"] ->
                  String.eqb (strip line) c = false).
  { intros c Hin'. apply String.eqb_neq. intros E. rewrite E in Hc. contradiction. }
  unfold dispatch. rewrite !Hne by (repeat constructor).
  rewrite then_again, (bind_ok_run _ _ _ _ _ (print_run _ _)).
  normalize_world. rewrite <- app_assoc. reflexivity.
Qed.

(** Property X22.

    [main] handles no exception: when nothing is left to type at the
    first prompt (line 259) it stops with [EOFError], and it has
    written no file, whatever the files hold and whatever the file
    system does. *)
Theorem main_stops_at_end_of_input w :
  stdin w = [] ->
  exists w', main w = (Raise EOFError, w') /\ files w' = files w.
Proof.
  intros Hin. unfold main, init.
  unfold bind at 1. unfold bind at 1, put_books.
  destruct (never_raises_load_library (set_books [] w)) as ([] & w1 & El). rewrite El.
  apply (within_load_library loads_books eq_refl) in El.
  assert (Hf : files w1 = files w) by now apply (within_files loads_books) in El.
  assert (Hi : stdin w1 = []) by (destruct El as (_ & Hi & _); now rewrite Hi).
  rewrite (main_loop_eof w1 Hi). eexists. split; [reflexivity | exact Hf].
Qed.

(** Property X23.

    [main] returns only through the choice 7: the last it has done is a
    save and the goodbye.  With no failure of the file system, the
    primary file holds the library when [main] returns. *)
Theorem main_returns_only_after_saving w w' :
  main w = (Ok tt, w') ->
  (exists w1 w2, save_library w1 = (Ok tt, w2) /\ w' = shows [goodbye_message] w2) /\
  (faults w = [] -> files w' !! filename = Some (json_dumps (books w'))).
Proof.
  intros Hr. unfold main in Hr. apply bind_ok_inv in Hr as ([] & w0 & Ei & Hr).
  apply main_loop_from_leaves in Hr as (w1 & w2 & Es & -> & Hf).
  split; [eauto|]. intros Hclean.
  assert (H0 : faults w0 = []).
  { apply (within_init loads_books eq_refl) in Ei as (_ & _ & _ & _ & Hx).
    rewrite Hclean in Hx. now apply suffix_nil_inv in Hx. }
  rewrite H0 in Hf. apply suffix_nil_inv in Hf.
  rewrite save_library_clean in Es by exact Hf. injection Es as <-.
  simpl. apply lookup_insert_eq.
Qed.

(** Property X24.

    On a library of book records the menu loop cannot crash: whatever
    is typed and whatever the file system does, it returns or stops at
    the end of the input, and the library is still one of book
    records.  So does [main], when no file operation fails and the
    file it loads holds book records. *)
Theorem menu_loop_is_safe_on_books :
  (forall w r w',
     forallb is_book (books w) = true -> main_loop w = (r, w') ->
     ends_well r /\ forallb is_book (books w') = true) /\
  (forall w r w',
     faults w = [] -> forallb is_book (load_spec (files w)) = true ->
     main w = (r, w') ->
     ends_well r /\ forallb is_book (books w') = true).
Proof.
  split.
  - intros w r w' Hwf Hr. exact (main_loop_from_keeps_books _ _ _ _ Hwf Hr).
  - intros w r w' Hclean Hwf. unfold main.
    destruct (init_clean w Hclean) as (w0 & Ei & Hb & _).
    rewrite (bind_ok_run _ _ _ _ _ Ei). rewrite <- Hb in Hwf.
    intros Hr. exact (main_loop_from_keeps_books _ _ _ _ Hwf Hr).
Qed.

(** Property X25.

    A whole session: [main] loads the library, the choice 1 adds a
    book, the choice 7 leaves.  With no failure of the file system the
    library is the loaded one with the new record at its end, and both
    the primary file and the backup file hold it: the save on exit
    copies the file that [add_book] has just written. *)
Theorem session_add_then_exit w c1 title author year_line year genre answer c7 rest :
  faults w = [] ->
  stdin w = c1 :: title :: author :: year_line :: genre :: answer :: c7 :: rest ->
  strip c1 = "1" -> strip c7 = "7" -> year_of year_line = Some year ->
  let library :=
    (load_spec (files w) ++ [new_book title author year genre answer])%list in
  exists w',
    main w = (Ok tt, w') /\ books w' = library /\ stdin w' = rest /\
    files w' !! filename = Some (json_dumps library) /\
    files w' !! backup_filename = Some (json_dumps library).
Proof.
  intros Hclean Hin H1 H7 Hy library. unfold main.
  destruct (init_clean w Hclean) as (w0 & Ei & Hb0 & Hf0 & Hi0 & Hx0).
  rewrite (bind_ok_run _ _ _ _ _ Ei). rewrite Hin in Hi0.
  rewrite (main_loop_choice w0 _ _ Hi0), H1.
  set (asked := set_stdin _ _).
  unfold dispatch. simpl String.eqb. cbv iota. rewrite then_again.
  assert (Ha : stdin asked =
               (title :: author :: [] ++ year_line :: genre :: answer :: c7 :: rest)%list)
    by reflexivity.
  unfold bind at 1.
  rewrite (add_book_run asked title author [] year_line year genre answer (c7 :: rest)
             Ha (Forall_nil_2 _) Hy).
  set (wa := set_books _ _).
  rewrite (bind_ok_run _ _ _ _ _ (save_library_clean wa Hx0)), print_run.
  set (w1 := shows [added_message _] _).
  assert (Hi1 : stdin w1 = c7 :: rest) by reflexivity.
  rewrite (main_loop_choice w1 _ _ Hi1), H7.
  unfold dispatch. simpl String.eqb. cbv iota.
  unfold bind at 1. rewrite (bind_ok_run _ _ _ _ _ (print_run _ _)).
  set (wb := shows [exit_message] _).
  rewrite (bind_ok_run _ _ _ _ _ (save_library_clean wb Hx0)).
  rewrite (bind_ok_run _ _ _ _ _ (print_run _ _)).
  eexists. split; [reflexivity|].
  assert (Hb1 : books w1 = library) by (unfold library; now rewrite <- Hb0).
  split; [exact Hb1|]. split; [reflexivity|].
  change (files wb) with (files w1). change (books wb) with (books w1).
  rewrite Hb1. simpl. split.
  - rewrite lookup_insert_eq. reflexivity.
  - rewrite lookup_insert_eq.
    rewrite lookup_insert_ne by apply filename_neq.
    rewrite lookup_insert_eq. now rewrite <- Hb1.
Qed.

End MainTheorems.

(** * The claims on sample libraries *)

Lemma backup_invariant_holds :
  let w := set_books [dune] fresh in
  let w1 := (save_body w).2 in
  let wc := (copy_file filename backup_filename (set_books shelf w1)).2 in
  let w2 := (save_body (set_books shelf w1)).2 in
  save_library w = (Ok tt, w1) /\
  save_library (set_books shelf w1) = (Ok tt, w2) /\
  files w2 !! backup_filename = Some (json_dumps [dune]) /\
  files w2 !! filename = Some (json_dumps shelf).
Proof.
  intros w w1 wc w2.
  apply (backup_invariant [dune] shelf w w1 wc w2); vm_compute; reflexivity.
Defined.

(** The second save cannot open the backup file: it warns, saves, and
    reports success, and there is still no backup of the first library. *)
Lemma backup_not_refreshed :
  let w := set_faults [NoFault; NoFault; NoFault; NoFault; denied]
             (set_books [dune] fresh) in
  let w1 := (save_body w).2 in
  let w2 := (save_library (set_books shelf w1)).2 in
  save_library w = (Ok tt, w1) /\
  save_body (set_books shelf w1) = (Ok tt, w2) /\
  stdout w2 = [saved_message;
               backup_warning (OSError "Permission denied");
               saved_message] /\
  files w2 !! filename = Some (json_dumps shelf) /\
  files w2 !! backup_filename = None /\
  files w2 !! backup_filename <> Some (json_dumps [dune]).
Proof. vm_compute. repeat split; discriminate. Defined.

Lemma save_load_roundtrip_holds :
  exists w1 w2,
    save_library (set_books shelf fresh) = (Ok tt, w1) /\
    init w1 = (Ok tt, w2) /\ books w2 = shelf.
Proof.
  apply (save_load_roundtrip shelf (set_books shelf fresh));
    vm_compute; reflexivity.
Defined.

Lemma load_fallback_holds :
  exists w', load_library (with_files (damaged shelf) fresh) = (Ok tt, w') /\
             books w' = shelf.
Proof.
  destruct (load_fallback (with_files (damaged shelf) fresh) eq_refl)
    as (w' & Hrun & Hbooks & _).
  exists w'. split; [exact Hrun|]. rewrite Hbooks. vm_compute. reflexivity.
Defined.



Lemma remove_first_match_holds :
  exists w', remove_book (set_stdin ["  dune "] (set_books shelf fresh)) = (Ok tt, w') /\
             books w' = [hobbit; dune_again] /\
             files w' !! filename = Some (json_dumps [hobbit; dune_again]).
Proof.
  set (w := set_stdin ["  dune "] (set_books shelf fresh)).
  destruct (remove_first_match w eq_refl) as [_ Hrem].
  destruct (Hrem "  dune " [] ltac:(discriminate) eq_refl) as [Hfirst _].
  destruct (Hfirst [hobbit] dune [dune_again] "Dune" eq_refl
              ltac:(repeat constructor) eq_refl eq_refl) as (w1 & Hsave & Hbooks & Hrun).
  eexists. split; [exact Hrun|]. split; [exact Hbooks|].
  vm_compute in Hsave. injection Hsave as <-. vm_compute. reflexivity.
Defined.

(** On the empty library no title is asked for and not-found is not
    what is reported. *)
Lemma remove_on_empty_library :
  let w := set_stdin ["Dune"] fresh in
  remove_book w = (Ok tt, shows [empty_message] w) /\
  stdout (remove_book w).2 = [empty_message] /\
  stdin (remove_book w).2 = ["Dune"] /\
  stdout (remove_book w).2 <> [remove_header; remove_prompt; not_found_message "Dune"] /\
  ~ In (not_found_message "Dune") (stdout (remove_book w).2).
Proof.
  vm_compute. repeat split; try discriminate.
  intros [Hin | []]. discriminate Hin.
Defined.

Lemma search_finds_matches_holds :
  let w := set_stdin [" HERB "] (set_books shelf fresh) in
  (forall w0, search_scan "herb" shelf [] w0 = (Ok [dune; dune_again], w0)) /\
  exists w', search_books w = (Ok tt, w') /\ books w' = shelf /\ files w' = files w.
Proof.
  intros w.
  destruct (search_finds_matches w " HERB " [] eq_refl eq_refl)
    as (_ & Hscan & w' & Hrun & Hbooks & Hfiles & _).
  split; [exact Hscan|]. exists w'. auto.
Defined.

Lemma statistics_report_holds :
  display_statistics (set_books shelf fresh) =
  (Ok tt,
   shows [stats_header; "Total books: 3"; "Books read: 2";
          "Percentage read: 66.7%"; genre_header;
          "Fantasy: 1"; "Science Fiction: 2"] (set_books shelf fresh)).
Proof.
  destruct (statistics_report (set_books shelf fresh) eq_refl) as (_ & Hstats & _).
  rewrite Hstats by discriminate. vm_compute. reflexivity.
Defined.

(** On the empty library no count and no percentage is reported. *)
Lemma statistics_on_empty_library :
  display_statistics fresh = (Ok tt, shows [empty_message] fresh) /\
  stdout (display_statistics fresh).2 = [empty_message] /\
  ~ In (total_line 0) (stdout (display_statistics fresh).2) /\
  ~ In (percentage_line (percentage_read 0 0)) (stdout (display_statistics fresh).2).
Proof.
  vm_compute. repeat split; intros [Hin | []]; discriminate Hin.
Defined.

Lemma load_adopts_any_array_holds :
  exists w',
    load_library (with_files (<[filename := json_dumps odd_array]> ∅) fresh) = (Ok tt, w') /\
    books w' = odd_array.
Proof.
  apply (load_adopts_any_array _ (json_dumps odd_array) odd_array);
    [reflexivity | vm_compute; reflexivity | left; vm_compute; reflexivity].
Defined.

(** * The further properties on sample libraries *)

(** A record that has lost its title, between two books. *)
Definition untitled : pyval :=
  PDict [("author", PStr "Unknown"); ("year", PInt 1900);
         ("genre", PStr "Essay"); ("read", PBool false)].

(** A record that has lost its [read] key. *)
Definition unmarked : pyval :=
  PDict [("title", PStr "Emma"); ("author", PStr "Jane Austen");
         ("year", PInt 1815); ("genre", PStr "Novel")].

Definition emma : pyval :=
  PDict [("title", PStr "Emma"); ("author", PStr "Jane Austen");
         ("year", PInt 1815); ("genre", PStr "Novel"); ("read", PBool true)].

Lemma save_touches_only_its_files_holds :
  let w := set_books shelf (with_files (<["notes.txt" := "to read"]> ∅) fresh) in
  books (save_library w).2 = shelf /\
  stdin (save_library w).2 = [] /\
  files (save_library w).2 !! "notes.txt" = Some "to read".
Proof.
  intros w.
  exact (save_touches_only_its_files w "notes.txt"
           ltac:(discriminate) ltac:(discriminate)).
Defined.

Lemma save_backs_up_previous_file_holds :
  let w := set_books shelf (with_files (damaged [dune]) fresh) in
  exists w',
    save_library w = (Ok tt, w') /\
    files w' !! filename = Some (json_dumps shelf) /\
    files w' !! backup_filename = Some "{ not json".
Proof.
  intros w. destruct (save_backs_up_previous_file w eq_refl) as (w' & Hs & Hp & Hb & _).
  exists w'. split; [exact Hs|]. split; [exact Hp | exact Hb].
Defined.

Lemma year_loop_asks_until_valid_holds :
  read_year (set_stdin ["old"; "1799"; "1965"; "next"] fresh) =
  (Ok 1965,
   set_stdin ["next"]
     (shows [year_prompt; year_number_message; year_prompt; year_range_message;
             year_prompt] fresh)).
Proof.
  destruct (year_loop_asks_until_valid
              (set_stdin ["old"; "1799"; "1965"; "next"] fresh) ["old"; "1799"]
              ltac:(repeat constructor)) as [Htaken _].
  exact (Htaken "1965" 1965 ["next"] eq_refl eq_refl).
Defined.

Lemma decimal_years_are_accepted_holds :
  py_int (pretty 1965) = Some 1965 /\
  read_year (set_stdin [pretty 1965; "Science Fiction"] fresh) =
  (Ok 1965, set_stdin ["Science Fiction"] (shows [year_prompt] fresh)).
Proof. exact (decimal_years_are_accepted 1965 ["Science Fiction"] fresh ltac:(lia)). Defined.

Lemma add_book_appends_holds :
  let w := set_stdin [" Emma "; "Jane Austen"; "soon"; "1815"; "Novel"; " YES "; "7"]
             (set_books shelf fresh) in
  exists w',
    add_book w = (Ok tt, w') /\
    books w' = (shelf ++ [emma])%list /\ stdin w' = ["7"] /\
    files w' !! filename = Some (json_dumps (shelf ++ [emma])).
Proof.
  intros w.
  destruct (add_book_appends w " Emma " "Jane Austen" ["soon"] "1815" 1815 "Novel" " YES "
              ["7"] eq_refl ltac:(repeat constructor) eq_refl)
    as (w' & Hrun & Hb & Hi & _ & Hclean).
  exists w'. split; [exact Hrun|]. split; [exact Hb|]. split; [exact Hi|].
  destruct (Hclean eq_refl) as [Hfile _]. rewrite Hfile, Hb. reflexivity.
Defined.

Lemma add_book_stops_only_at_eof_holds :
  let w := set_stdin ["Emma"; "Jane Austen"; "soon"] (set_books shelf fresh) in
  exists e w',
    add_book w = (Raise e, w') /\ e = EOFError /\ books w' = shelf /\ files w' = ∅.
Proof.
  intros w. exists EOFError, (add_book w).2.
  assert (Hrun : add_book w = (Raise EOFError, (add_book w).2)) by (vm_compute; reflexivity).
  split; [exact Hrun|].
  exact (add_book_stops_only_at_eof w EOFError (add_book w).2 Hrun).
Defined.

Lemma add_then_remove_holds :
  let w := set_stdin ["Emma"; "Jane Austen"; "1815"; "Novel"; "yes"; " EMMA "]
             (set_books shelf fresh) in
  exists w1 w2,
    add_book w = (Ok tt, w1) /\ remove_book w1 = (Ok tt, w2) /\
    books w1 = (shelf ++ [emma])%list /\ books w2 = shelf /\
    files w2 !! filename = Some (json_dumps shelf).
Proof.
  intros w.
  destruct (add_then_remove w "Emma" "Jane Austen" "1815" 1815 "Novel" "yes" " EMMA " []
              eq_refl eq_refl eq_refl ltac:(repeat constructor))
    as (w1 & w2 & Ha & Hr & Hb1 & Hb2 & _ & Hclean).
  exists w1, w2. split; [exact Ha|]. split; [exact Hr|]. split; [exact Hb1|].
  split; [exact Hb2 | exact (Hclean eq_refl)].
Defined.

Lemma remove_stops_at_missing_title_holds :
  let w := set_stdin ["dune"] (set_books [hobbit; untitled; dune] fresh) in
  remove_book w =
  (Raise (KeyError "title"), set_stdin [] (shows [remove_header; remove_prompt] w)).
Proof.
  intros w.
  exact (remove_stops_at_missing_title w "dune" [] [hobbit] _ [dune]
           eq_refl eq_refl ltac:(repeat constructor) eq_refl).
Defined.

Lemma search_empty_term_lists_all_holds :
  let w := set_stdin ["   "] (set_books shelf fresh) in
  search_books w =
  (Ok tt,
   set_stdin []
     (shows ([search_header; search_prompt; found_header] ++ display_lines 1 shelf) w)).
Proof.
  intros w.
  exact (search_empty_term_lists_all w "   " [] eq_refl ltac:(discriminate) eq_refl eq_refl).
Defined.

Lemma display_all_books_lists_holds :
  let w := set_books shelf fresh in
  display_all_books w = (Ok tt, shows (library_header :: display_lines 1 shelf) w) /\
  length (display_lines 1 shelf) = 6%nat /\
  take 2 (drop 2 (display_lines 1 shelf)) =
    ["2. Dune by Frank Herbert (1965)"; "   Genre: Science Fiction | Read: ✓"].
Proof.
  intros w. destruct (display_all_books_lists w eq_refl) as (Hrun & Hlen & Hat).
  split; [exact Hrun|]. split; [exact Hlen|]. exact (Hat 1%nat dune eq_refl).
Defined.

Lemma display_stops_at_missing_read_holds :
  let w := set_books [hobbit; unmarked; dune] fresh in
  display_all_books w =
  (Raise (KeyError "read"), shows (library_header :: display_lines 1 [hobbit]) w).
Proof.
  intros w.
  exact (display_stops_at_missing_read w [hobbit] _ [dune] eq_refl eq_refl eq_refl).
Defined.

Lemma statistics_counts_add_up_holds :
  (2 <= length shelf)%nat /\
  list_sum (map snd [(PStr "Fantasy", 1%nat); (PStr "Science Fiction", 2%nat)]) =
  length shelf.
Proof.
  exact (statistics_counts_add_up shelf fresh 2
           [(PStr "Fantasy", 1%nat); (PStr "Science Fiction", 2%nat)] fresh fresh
           eq_refl eq_refl).
Defined.

Lemma export_writes_report_holds :
  let w := set_books [dune] fresh in
  export_to_txt export_filename w =
  (Ok tt, shows [exported_message export_filename]
            (written export_filename (export_text [dune]) w)).
Proof. intros w. exact (export_writes_report export_filename w eq_refl eq_refl). Defined.

Lemma export_stops_at_missing_title_holds :
  let w := set_books [hobbit; untitled; dune] fresh in
  export_to_txt export_filename w =
  (Ok tt,
   shows [export_error (KeyError "title")]
     (written export_filename
        (export_title +:+ export_total 3 +:+ export_rule +:+
         export_entries 1 [hobbit] +:+ "Book #" +:+ str_nat 2 +:+ ":" +:+ nl) w)).
Proof.
  intros w.
  exact (export_stops_at_missing_title export_filename w [hobbit] _ [dune]
           eq_refl eq_refl eq_refl eq_refl).
Defined.

Lemma menu_runs_choice_then_asks_again_holds :
  let w := set_stdin [" 4 "; "7"] (set_books shelf fresh) in
  main_loop w =
  (let* _ := display_all_books in main_loop)
    (set_stdin ["7"] (shows (menu ++ [choice_prompt]) w)).
Proof.
  intros w.
  destruct (menu_runs_choice_then_asks_again w " 4 " ["7"] eq_refl)
    as (_ & _ & _ & Hdisplay & _).
  exact (Hdisplay eq_refl).
Defined.

Lemma exit_saves_and_returns_holds :
  let w := set_stdin [" 7 "; "1"] (set_books shelf fresh) in
  exists w',
    main_loop w = (Ok tt, w') /\ books w' = shelf /\ stdin w' = ["1"] /\
    files w' !! filename = Some (json_dumps shelf).
Proof.
  intros w.
  destruct (exit_saves_and_returns w " 7 " ["1"] eq_refl eq_refl)
    as (w' & Hrun & Hb & Hi & Hclean).
  exists w'. split; [exact Hrun|]. split; [exact Hb|]. split; [exact Hi|].
  exact (proj1 (Hclean eq_refl)).
Defined.

Lemma invalid_choice_asks_again_holds :
  let w := set_stdin ["8"; "7"] (set_books shelf fresh) in
  main_loop w =
  main_loop (set_stdin ["7"] (shows (menu ++ [choice_prompt; invalid_choice_message]) w)).
Proof.
  intros w. apply (invalid_choice_asks_again w "8" ["7"] eq_refl).
  change (strip "8") with "8". rewrite !not_elem_of_cons.
  repeat split; try discriminate. apply not_elem_of_nil.
Defined.

Lemma main_stops_at_end_of_input_holds :
  exists w',
    main (with_files (on_disk shelf) fresh) = (Raise EOFError, w') /\
    files w' = on_disk shelf.
Proof. exact (main_stops_at_end_of_input (with_files (on_disk shelf) fresh) eq_refl). Defined.

Lemma main_returns_only_after_saving_holds :
  let w := set_stdin ["7"] (with_files (on_disk shelf) fresh) in
  let w' := (main w).2 in
  (exists w1 w2, save_library w1 = (Ok tt, w2) /\ w' = shows [goodbye_message] w2) /\
  files w' !! filename = Some (json_dumps (books w')).
Proof.
  intros w w'.
  assert (Hrun : main w = (Ok tt, w')) by (vm_compute; reflexivity).
  destruct (main_returns_only_after_saving w w' Hrun) as [Hsaved Hclean].
  split; [exact Hsaved | exact (Hclean eq_refl)].
Defined.

Lemma menu_loop_is_safe_on_books_holds :
  let w := set_stdin ["2"; "dune"; "5"] (set_books shelf fresh) in
  ends_well (main_loop w).1 /\ forallb is_book (books (main_loop w).2) = true.
Proof.
  intros w. destruct menu_loop_is_safe_on_books as [Hloop _].
  apply (Hloop w); [reflexivity | now destruct (main_loop w)].
Defined.

Lemma session_add_then_exit_holds :
  let w := set_stdin ["1"; " Emma "; "Jane Austen"; "1815"; "Novel"; "yes"; "7"]
             (with_files (on_disk shelf) fresh) in
  exists w',
    main w = (Ok tt, w') /\ books w' = (shelf ++ [emma])%list /\ stdin w' = [] /\
    files w' !! filename = Some (json_dumps (shelf ++ [emma])) /\
    files w' !! backup_filename = Some (json_dumps (shelf ++ [emma])).
Proof.
  intros w.
  destruct (session_add_then_exit w "1" " Emma " "Jane Austen" "1815" 1815 "Novel" "yes" "7" []
              eq_refl eq_refl eq_refl eq_refl eq_refl)
    as (w' & Hrun & Hb & Hi & Hp & Hq).
  assert (Hl : load_spec (files w) = shelf) by (vm_compute; reflexivity).
  rewrite Hl in Hb, Hp, Hq.
  exists w'. split; [exact Hrun|]. split; [exact Hb|]. split; [exact Hi|].
  split; [exact Hp | exact Hq].
Defined.

(** ** The examples of the specification *)

Example search_is_case_insensitive_substring :
  search_matches (lower "dune") dune = true /\
  search_matches (lower "HERB") dune = true /\
  search_matches (lower "ank her") dune = true /\
  search_matches (lower "tolkien") dune = false.
Proof. vm_compute. auto. Qed.

Example two_of_three_read : format_1f (percentage_read 2 3) = "66.7".
Proof. vm_compute. reflexivity. Qed.

Example year_boundaries :
  py_int "1800" = Some 1800%Z /\ py_int " 2024 " = Some 2024%Z /\
  py_int "1799" = Some 1799%Z /\ py_int "2025" = Some 2025%Z /\
  py_int "nineteen" = None /\ py_int "19.5" = None /\ py_int "" = None.
Proof. vm_compute. repeat split. Qed.

Example year_is_asked_again :
  read_year (set_stdin ["old"; "1799"; "2025"; "1800"; "next"] fresh) =
  (Ok 1800%Z,
   set_stdin ["next"]
     (shows [year_prompt; year_number_message;
             year_prompt; year_range_message;
             year_prompt; year_range_message;
             year_prompt] fresh)).
Proof. vm_compute. reflexivity. Qed.

Example load_on_first_start :
  load_library fresh = (Ok tt, shows [empty_start_message] fresh).
Proof. vm_compute. reflexivity. Qed.

(** ** Text outside ASCII, on the reference built-ins *)

(** The no-break space U+00A0. *)
Definition nbsp : string := String (ascii_of_nat 194) (String (ascii_of_nat 160) "").

Definition miserables : pyval :=
  PDict [("title", PStr "Les Misérables"); ("author", PStr "Victor Hugo");
         ("year", PInt 1862); ("genre", PStr "Novel"); ("read", PBool false)].

Example accented_letters_are_lowered :
  lower "LES MISÉRABLES" = "les misérables" /\
  title_matches "LES MISÉRABLES" miserables = true /\
  search_matches (lower "MISÉ") miserables = true.
Proof. vm_compute. auto. Qed.

Example accented_title_is_removed :
  let w := set_stdin ["LES MISÉRABLES"] (set_books [hobbit; miserables] fresh) in
  books (remove_book w).2 = [hobbit] /\
  files (remove_book w).2 !! filename = Some (json_dumps [hobbit]).
Proof. vm_compute. auto. Qed.

Example no_break_space_is_stripped :
  strip (nbsp +:+ "1") = "1" /\
  strip (" Dune" +:+ nbsp) = "Dune" /\
  strip (lower ("YES" +:+ nbsp)) = "yes" /\
  search_scan (lower (strip (nbsp +:+ "dune"))) shelf [] fresh
  = (Ok [dune; dune_again], fresh).
Proof. vm_compute. auto. Qed.

Example digits_of_other_scripts_are_read :
  py_int "１９６５" = Some 1965%Z /\
  py_int ("１９６５" +:+ nbsp) = Some 1965%Z /\
  year_of "１９６５" = Some 1965%Z.
Proof. vm_compute. auto. Qed.

(** [int] does not skip the separators that [strip] takes off. *)
Example separators_are_no_space_for_int :
  let fs := String (ascii_of_nat 28) "" in
  strip (fs +:+ "1965") = "1965" /\
  py_int (fs +:+ "1965") = None /\
  year_reply (fs +:+ "1965") = year_number_message.
Proof. vm_compute. auto. Qed.

Example long_numerals_are_refused :
  py_int (str_mul "1" 4301) = None /\
  year_reply (str_mul "1" 4301) = year_number_message /\
  py_int (" " +:+ str_mul "0" 4300) = Some 0%Z.
Proof. vm_compute. auto. Qed.
